(** * dpmutil: I2C fragmentation, SYZYGY CRC-16 and Zmod identification

    A shallow embedding of the parts of Digilent's dpmutil that carry the
    algorithmic content of the library:

    - [I2CHAL.c]: [I2CHALRead] and [I2CHALWrite], which split a transfer
      into bus transactions, and their callers in [PlatformMCU.c] and
      [syzygy.c]; what a read leaves in its buffer; and
      [I2CHALOpenI2cController], which looks for the controller;
    - [syzygy.c]: [SyzygyComputeCRC], [SyzygyReadDNAHeader],
      [SyzygyReadStdFwRegisters], [SyzygyReadDNAStrings] and
      [SyzygyFreeDNAStrings];
    - [Zmod.c], [ZmodADC.c], [ZmodDigitizer.c]: the product-ID decoders
      and the frequency-step table;
    - [ZmodDAC.c]: [ComputeAddCoefDAC1411], in binary32 and binary64
      arithmetic.

    C integers are modelled as [Z] with the wrap-around of every narrowing
    assignment written out; the I2C bus is an oracle that answers each
    primitive call; loops that the source does not bound are run on fuel. *)

From Stdlib Require Import ZArith List Lia Bool.
From Stdlib Require Import Floats.SpecFloat.
Import ListNotations.
Local Open Scope Z_scope.

(* ================================================================= *)
(** * Part I: the embedding *)
(* ================================================================= *)

(** ** stdtypes.h *)

Module StdTypes.

(** [typedef unsigned char BYTE; typedef unsigned short WORD;]  A value
    converted to one of these types is reduced modulo the width of the
    type. *)
Definition to_BYTE (z : Z) : Z := z mod 2 ^ 8.
Definition to_WORD (z : Z) : Z := z mod 2 ^ 16.

Definition is_BYTE (z : Z) : Prop := 0 <= z < 2 ^ 8.
Definition is_WORD (z : Z) : Prop := 0 <= z < 2 ^ 16.

(** [#define fFalse 0] and [#define fTrue (!fFalse)]: a [BOOL] is
    modelled as [bool]. *)
Definition fFalse : bool := false.
Definition fTrue : bool := negb fFalse.

(** The [n] consecutive integers from [lo] on. *)
Fixpoint Zseq (lo : Z) (n : nat) : list Z :=
  match n with
  | O => []
  | S n' => lo :: Zseq (lo + 1) n'
  end.

(** All values of a [WORD]. *)
Definition all_WORDs : list Z := Zseq 0 (Z.to_nat (2 ^ 16)).

End StdTypes.
Import StdTypes.

(** ** Zmod.h, ZmodADC.h, ZmodDAC.h, ZmodDigitizer.h: product codes and enums *)

Module ZmodId.

Definition prodZmodADC : Z := 0x801.
Definition prodZmodDAC : Z := 0x802.
Definition prodZmodDigitizer : Z := 0x801.

Inductive ZMOD_FAMILY : Set :=
| ZMOD_FAMILY_ADC
| ZMOD_FAMILY_DAC
| ZMOD_FAMILY_DIGITIZER
| ZMOD_FAMILY_UNSUPPORTED.

Inductive ZMOD_ADC_VARIANT : Set :=
| ZMOD_ADC_VARIANT_1410_105
| ZMOD_ADC_VARIANT_1010_40
| ZMOD_ADC_VARIANT_1210_40
| ZMOD_ADC_VARIANT_1410_40
| ZMOD_ADC_VARIANT_1010_125
| ZMOD_ADC_VARIANT_1210_125
| ZMOD_ADC_VARIANT_1410_125
| ZMOD_ADC_VARIANT_UNSUPPORTED.

(** A function that returns a [BOOL] and writes through one output
    pointer is modelled as a function from the old contents of the
    pointee to the pair of the return value and the new contents. *)

(** [ZmodADC.c]:
    [return ((Pdid >> 20) & 0xfff) == prodZmodADC;] *)
Definition FZmodIsADC (Pdid : Z) : bool :=
  Z.land (Z.shiftr Pdid 20) 0xfff =? prodZmodADC.

(** [ZmodDigitizer.c]:
    [return ((Pdid >> 20) & 0xfff) == prodZmodDigitizer;] *)
Definition FZmodIsDigitizer (Pdid : Z) : bool :=
  Z.land (Z.shiftr Pdid 20) 0xfff =? prodZmodDigitizer.

(** [ZmodADC.c]: [switch ((Pdid >> 8) & 0xfff)]; every case stores the
    variant through [pVariant]. *)
Definition FGetZmodADCVariant (Pdid : Z) : bool * ZMOD_ADC_VARIANT :=
  match Z.land (Z.shiftr Pdid 8) 0xfff with
  | 0x002 => (fTrue, ZMOD_ADC_VARIANT_1410_105)
  | 0x012 => (fTrue, ZMOD_ADC_VARIANT_1010_40)
  | 0x022 => (fTrue, ZMOD_ADC_VARIANT_1210_40)
  | 0x032 => (fTrue, ZMOD_ADC_VARIANT_1410_40)
  | 0x042 => (fTrue, ZMOD_ADC_VARIANT_1010_125)
  | 0x052 => (fTrue, ZMOD_ADC_VARIANT_1210_125)
  | 0x062 => (fTrue, ZMOD_ADC_VARIANT_1410_125)
  | _ => (fFalse, ZMOD_ADC_VARIANT_UNSUPPORTED)
  end.

(** [ZmodADC.c]: the unsupported case returns without writing
    [*pResolution], so the old contents [res0] are kept. *)
Definition FGetZmodADCResolution (variant : ZMOD_ADC_VARIANT) (res0 : Z)
  : bool * Z :=
  match variant with
  | ZMOD_ADC_VARIANT_1410_105
  | ZMOD_ADC_VARIANT_1410_40
  | ZMOD_ADC_VARIANT_1410_125 => (fTrue, 14)
  | ZMOD_ADC_VARIANT_1210_40
  | ZMOD_ADC_VARIANT_1210_125 => (fTrue, 12)
  | ZMOD_ADC_VARIANT_1010_40
  | ZMOD_ADC_VARIANT_1010_125 => (fTrue, 10)
  | ZMOD_ADC_VARIANT_UNSUPPORTED => (fFalse, res0)
  end.

Section Family.

(** [FZmodIsDAC] is called by [FGetZmodFamily] but its body is not
    part of the sources at hand; it is kept abstract. *)
Variable FZmodIsDAC : Z -> bool.

(** [Zmod.c]: the three tests in source order; the last store is
    followed by [return fTrue]. *)
Definition FGetZmodFamily (Pdid : Z) : bool * ZMOD_FAMILY :=
  if FZmodIsADC Pdid then (fTrue, ZMOD_FAMILY_ADC)
  else if FZmodIsDAC Pdid then (fTrue, ZMOD_FAMILY_DAC)
  else if FZmodIsDigitizer Pdid then (fTrue, ZMOD_FAMILY_DIGITIZER)
  else (fTrue, ZMOD_FAMILY_UNSUPPORTED).

End Family.

End ZmodId.

(** ** ZmodDigitizer.c: the frequency-step table *)

Module Digitizer.

(** The C type [float] is IEEE-754 binary32: 24 bits of precision and
    [emax = 128], as a [spec_float]. *)
Definition prec32 : Z := 24.
Definition emax32 : Z := 128.

Definition float32_of_Z (n : Z) : spec_float :=
  binary_normalize prec32 emax32 n 0 false.

(** The value of the C literal [<num>/<10^frac>f], for instance
    [122.88f] as [float32_lit 12288 2]: the binary32 number nearest to
    the decimal (a correctly rounded quotient of two integers that
    binary32 holds exactly). *)
Definition float32_lit (num : Z) (frac : nat) : spec_float :=
  SFdiv prec32 emax32 (float32_of_Z num) (float32_of_Z (10 ^ Z.of_nat frac)).

(** The rational value of a finite binary32 number, as a pair
    numerator/denominator [(n, d)] with [d] a power of two. *)
Definition float32_ratio (x : spec_float) : option (Z * Z) :=
  match x with
  | S754_zero _ => Some (0, 1)
  | S754_finite s m e =>
      let n := if s then Z.neg m else Z.pos m in
      Some (if 0 <=? e then (n * 2 ^ e, 1) else (n, 2 ^ (- e)))
  | _ => None
  end.

(** [float32_is x num den]: [x] is exactly the rational [num/den];
    [float32_within k x num den]: [x] is at most [2^-k] away from it
    ([den] positive). *)
Definition float32_is (x : spec_float) (num den : Z) : Prop :=
  match float32_ratio x with
  | Some (n, d) => n * den = num * d
  | None => False
  end.

Definition float32_within (k : Z) (x : spec_float) (num den : Z) : Prop :=
  match float32_ratio x with
  | Some (n, d) => 2 ^ k * Z.abs (n * den - num * d) <= d * den
  | None => False
  end.

(** [float FZmodDigitizerGetFrequencyStepMHz(BYTE hz)]: a [switch] over
    the byte with a [default]. *)
Definition FZmodDigitizerGetFrequencyStepMHz (hz : Z) : spec_float :=
  match hz with
  | 0 => float32_lit 12288 2     (* 122.88f *)
  | 50 => float32_lit 500 1      (* 50.0f *)
  | 80 => float32_lit 800 1      (* 80.0f *)
  | 100 => float32_lit 1000 1    (* 100.0f *)
  | 110 => float32_lit 1100 1    (* 110.0f *)
  | 120 => float32_lit 1200 1    (* 120.0f *)
  | 125 => float32_lit 1250 1    (* 125.0f *)
  | _ => float32_lit 0 1         (* 0.0f *)
  end.

(** The byte values the table knows. *)
Definition known_steps : list Z := [0; 50; 80; 100; 110; 120; 125].

End Digitizer.

(** ** ZmodDAC.c: the additive coefficient *)

Module ZmodDAC.
Import Digitizer.

(** The C type [double] is IEEE-754 binary64: 53 bits of precision and
    [emax = 1024]. *)
Definition prec64 : Z := 53.
Definition emax64 : Z := 1024.

Definition double_of_Z (n : Z) : spec_float :=
  binary_normalize prec64 emax64 n 0 false.

(** The value of the C literal [<num>/<10^frac>] without suffix, for
    instance [5.32] as [double_lit 532 2]: the binary64 number nearest
    to the decimal. *)
Definition double_lit (num : Z) (frac : nat) : spec_float :=
  SFdiv prec64 emax64 (double_of_Z num) (double_of_Z (10 ^ Z.of_nat frac)).

(** The conversions between the two types: a [float] becomes a [double]
    of the same value; a [double] is rounded to the nearest [float]. *)
Definition double_of_float (x : spec_float) : spec_float :=
  match x with
  | S754_finite s m e => binary_round prec64 emax64 s m e
  | _ => x
  end.

Definition float_of_double (x : spec_float) : spec_float :=
  match x with
  | S754_finite s m e => binary_round prec32 emax32 s m e
  | _ => x
  end.

(** [(float)(uint32_t)n] for an [int] [n]. *)
Definition float_of_uint32 (n : Z) : spec_float :=
  float32_of_Z (n mod 2 ^ 32).

(** [(int32_t)x] for a [double] [x]: the fractional part is discarded;
    C leaves the conversion undefined when [x] is a NaN or an infinity
    and when the integral part does not fit the type ([None]). *)
Definition int32_of_double (x : spec_float) : option Z :=
  match x with
  | S754_zero _ => Some 0
  | S754_finite s m e =>
      let a := if 0 <=? e then Z.shiftl (Z.pos m) e
               else Z.shiftr (Z.pos m) (- e) in
      let i := if s then - a else a in
      if (- 2 ^ 31 <=? i) && (i <? 2 ^ 31) then Some i else None
  | _ => None
  end.

(** [#define DAC1411_REAL_RANGE_DAC_HIGH 5.32] and
    [#define DAC1411_REAL_RANGE_DAC_LOW 1.33]. *)
Definition DAC1411_REAL_RANGE_DAC_HIGH : spec_float := double_lit 532 2.
Definition DAC1411_REAL_RANGE_DAC_LOW : spec_float := double_lit 133 2.

(** [int32_t ComputeAddCoefDAC1411(float ca, float cg, BOOL fHighGain)].
<<
    fval = -ca * (float)(uint32_t)(1<<17)
           / ((fHighGain ? DAC1411_REAL_RANGE_DAC_HIGH
                         : DAC1411_REAL_RANGE_DAC_LOW) * (1 + cg));
    ival = (int32_t)(fval + 0.5);
    ival &= (1<<18) - 1;
>>
    The operations have the types the usual arithmetic conversions give
    them, each evaluated in its own type: [-ca * (float)...] and
    [1 + cg] are [float]; the product with the [double] constant and
    the quotient are [double]; the assignment rounds the quotient to
    [float]; [fval + 0.5] is [double] (no excess precision, as on the
    ARM and x86-64 targets of the library).  The result is [None] where
    the conversion to [int32_t] is undefined. *)
Definition ComputeAddCoefDAC1411 (ca cg : spec_float) (fHighGain : bool)
  : option Z :=
  let fval :=
    float_of_double
      (SFdiv prec64 emax64
         (double_of_float
            (SFmul prec32 emax32 (SFopp ca)
                   (float_of_uint32 (Z.shiftl 1 17))))
         (SFmul prec64 emax64
            (if fHighGain then DAC1411_REAL_RANGE_DAC_HIGH
             else DAC1411_REAL_RANGE_DAC_LOW)
            (double_of_float
               (SFadd prec32 emax32 (float32_of_Z 1) cg)))) in
  match int32_of_double
          (SFadd prec64 emax64 (double_of_float fval) (double_lit 5 1)) with
  | Some ival => Some (Z.land ival (Z.shiftl 1 18 - 1))
  | None => None
  end.

(** *** The formula of the specification

    The rational value of a finite [double], numerator and denominator,
    and the two comparisons with a rational: the representation is that
    of [float], so these are the definitions of the frequency-step
    table. *)
Definition double_ratio : spec_float -> option (Z * Z) := float32_ratio.
Definition double_is : spec_float -> Z -> Z -> Prop := float32_is.
Definition double_within : Z -> spec_float -> Z -> Z -> Prop :=
  float32_within.

(** The float intermediate of the specification,
    [-ca * 2^17 / (real * (1 + cg))], for the full-scale constant [real]:
    a [float], computed from [float]s and the [double] [real]. *)
Definition claimed_intermediate (ca cg real : spec_float) : spec_float :=
  float_of_double
    (SFdiv prec64 emax64
       (double_of_float
          (SFmul prec32 emax32 (SFopp ca) (float32_of_Z (2 ^ 17))))
       (SFmul prec64 emax64 real
          (double_of_float (SFadd prec32 emax32 (float32_of_Z 1) cg)))).

(** The integer part of the rational [n/d], towards zero, when an
    [int32_t] holds it. *)
Definition integer_part (n d : Z) : option Z :=
  let i := Z.quot n d in
  if (- 2 ^ 31 <=? i) && (i <? 2 ^ 31) then Some i else None.

End ZmodDAC.

(** ** syzygy.c: the DNA header CRC *)

Module Syzygy.

(** One pass of the loop body of [SyzygyComputeCRC] on the byte [b].
    [x] and [crc] are [WORD]s: every assignment to them reduces the
    [int] value of the right-hand side modulo [2^16].
<<
    x = (crc >> 8) ^ *pbBuf;
    x ^= (x >> 4);
    crc = (crc << 8) ^ (x << 12) ^ (x << 5) ^ (x);
    crc &= 0xFFFF;
>> *)
Definition crc_update (crc b : Z) : Z :=
  let x := to_WORD (Z.lxor (Z.shiftr crc 8) b) in
  let x := to_WORD (Z.lxor x (Z.shiftr x 4)) in
  let crc :=
    to_WORD (Z.lxor (Z.lxor (Z.lxor (Z.shiftl crc 8) (Z.shiftl x 12))
                            (Z.shiftl x 5)) x) in
  Z.land crc 0xFFFF.

(** [while ( 0 < cbBuf ) { ...; pbBuf++; cbBuf--; }] over the bytes at
    [pbBuf].  The C caller owns at least [cbBuf] bytes there; the model
    stops at the end of the list. *)
Fixpoint crc_loop (pbBuf : list Z) (cbBuf : Z) (crc : Z) : Z :=
  match pbBuf with
  | [] => crc
  | b :: rest =>
      if 0 <? cbBuf then crc_loop rest (to_BYTE (cbBuf - 1)) (crc_update crc b)
      else crc
  end.

(** [WORD SyzygyComputeCRC(const BYTE* pbBuf, BYTE cbBuf)]. *)
Definition SyzygyComputeCRC (pbBuf : list Z) (cbBuf : Z) : Z :=
  crc_loop pbBuf cbBuf 0xFFFF.

(** [#define cbSyzygyDnaHeader 40] (syzygy.h). *)
Definition cbSyzygyDnaHeader : Z := 40.

(** *** The reference the source names: CRC-16 with polynomial 0x1021

    Written from the textbook definition, not from the source: the
    16-bit register is shifted left one bit at a time and the polynomial
    [x^16 + x^12 + x^5 + 1] is subtracted whenever a one is shifted
    out.  The initial value is [0xFFFF]; a byte enters at the high end;
    nothing is XORed in at the end. *)
Definition crc16_poly : Z := 0x1021.

Definition crc16_shift (r : Z) : Z :=
  let r' := Z.land (Z.shiftl r 1) 0xFFFF in
  if Z.testbit r 15 then Z.lxor r' crc16_poly else r'.

Definition crc16_byte (r b : Z) : Z :=
  Nat.iter 8 crc16_shift (Z.lxor r (Z.shiftl b 8)).

Definition crc16_ccitt (buf : list Z) : Z :=
  fold_left crc16_byte buf 0xFFFF.

(** The two bytes a header stores for a CRC: high byte first
    ([crcHigh], then [crcLow] in [SzgDnaHeader]). *)
Definition crc_bytes (crc : Z) : list Z :=
  [Z.shiftr crc 8; Z.land crc 0xFF].

(** The ASCII digits "123456789", the usual check input. *)
Definition check_input : list Z := [49; 50; 51; 52; 53; 54; 55; 56; 57].

End Syzygy.

(** ** I2CHAL.c: the fragmentation engine *)

Module I2CHAL.

(** The three transports the source selects by conditional compilation:
    [__linux__] (the i2c-dev character device), [PLATFORM_ZYNQ]
    ([XIicPs] polled driver) and the remaining case ([XIic]). *)
Inductive platform : Set := Linux | Zynq | MicroBlaze.

(** Xilinx's status code for success (xstatus.h). *)
Definition XST_SUCCESS : Z := 0.

(** The bus as the engine sees it: the value each primitive call
    returns.  Calls are indexed by the number [k] of the loop iteration
    (the bus transaction) that makes them.
    - [bus_ioctl]: [ioctl(fdI2cDev, I2C_SLAVE, slaveAddr)], Linux only;
    - [bus_send k bytes]: [write], [XIicPs_MasterSendPolled] or
      [XIic_Send] of [bytes];
    - [bus_recv k n]: [read], [XIicPs_MasterRecvPolled] or [XIic_Recv]
      of [n] bytes.
    The Linux and [XIic] calls return a byte count, the [XIicPs] calls a
    status.  Delays ([nanosleep], [usleep]) and the bytes received are
    not part of the model; nor are the waits
    [while (XIicPs_BusIsBusy(&IicDev)) {}] of the Zynq transport, which
    are taken to end, as the polled primitives are taken to return. *)
Record bus : Type := {
  bus_ioctl : Z;
  bus_send : nat -> list Z -> Z;
  bus_recv : nat -> Z -> Z
}.

(** One iteration of a transfer loop, as it was issued. *)
Record txn : Type := {
  tx_addr : Z;            (* memory address staged in rgbSnd[0..1] *)
  tx_stores : list Z;     (* indices of rgbSnd stored to, in order *)
  tx_bytes : list Z;      (* bytes handed to the send primitive *)
  tx_len : Z;             (* cbTrans *)
  tx_ok : bool;           (* false: the iteration took goto lErrorExit *)
  tx_done : Z             (* what the iteration added to cbRecv / cbSent *)
}.

(** What a call leaves behind: the return value ([None] while the loop
    is still running when the fuel runs out), the contents of the
    output-count pointee ([None] for a [NULL] pointer) and the
    transactions issued. *)
Record result : Type := {
  res_ret : option bool;
  res_pcb : option Z;
  res_trace : list txn
}.

(** [if ( NULL != pcb ) { *pcb = cb; }] *)
Definition report (pcb : option Z) (cb : Z) : option Z :=
  match pcb with
  | None => None
  | Some _ => Some cb
  end.

(** [if ( 0 > ioctl(fdI2cDev, I2C_SLAVE, slaveAddr) ) goto lErrorExit;]
    exists on Linux only. *)
Definition select_failed (p : platform) (b : bus) : bool :=
  match p with
  | Linux => bus_ioctl b <? 0
  | _ => false
  end.

(** The address phase of a read: [2 != write(...)],
    [XST_SUCCESS != XIicPs_MasterSendPolled(...)], [2 != XIic_Send(...)]. *)
Definition addr_failed (p : platform) (r : Z) : bool :=
  match p with
  | Linux | MicroBlaze => negb (r =? 2)
  | Zynq => negb (r =? XST_SUCCESS)
  end.

(** The data phase of a read: [0 >= cb] for the two calls that return a
    count, the status test for [XIicPs]. *)
Definition recv_failed (p : platform) (r : Z) : bool :=
  match p with
  | Linux | MicroBlaze => r <=? 0
  | Zynq => negb (r =? XST_SUCCESS)
  end.

(** [cbRecv += cb; addrRead += cb;] on Linux, [cbRecv += cbTrans;
    addrRead += cbTrans;] on the other two. *)
Definition recv_credit (p : platform) (r cbTrans : Z) : Z :=
  match p with
  | Linux => r
  | Zynq | MicroBlaze => cbTrans
  end.

(** The send of a write: [cb != cbTrans] or the status test. *)
Definition send_failed (p : platform) (r cbTrans : Z) : bool :=
  match p with
  | Linux | MicroBlaze => negb (r =? cbTrans)
  | Zynq => negb (r =? XST_SUCCESS)
  end.

(** [rgbSnd[0] = (addrRead >> 8); rgbSnd[1] = addrRead & 0xFF;] as a list
    of (index, byte) stores. *)
Definition stage_addr (addr : Z) : list (Z * Z) :=
  [(0, to_BYTE (Z.shiftr addr 8)); (1, to_BYTE (Z.land addr 0xFF))].

(** [for ( ib = 2; ib < cbTrans; ib++ ) { rgbSnd[ib] = *pbWrite; pbWrite++; }]
    run for [n] iterations from [ib]; returns the stores and the
    advanced [pbWrite].  A read past the end of the caller's data is
    given the value 0. *)
Fixpoint stage_data (n : nat) (ib : Z) (pbWrite : list Z)
  : list (Z * Z) * list Z :=
  match n with
  | O => ([], pbWrite)
  | S n' =>
      let '(st, rest) := stage_data n' (ib + 1) (tl pbWrite) in
      ((ib, hd 0 pbWrite) :: st, rest)
  end.

(** [BYTE rgbSnd[32]] in [I2CHALWrite]. *)
Definition cbSndWrite : Z := 32.

(** A transaction keeps inside an array of [size] elements when every
    index it stores to is one of [0 .. size-1]. *)
Definition in_bounds (size : Z) (t : txn) : Prop :=
  Forall (fun i => 0 <= i < size) (tx_stores t).

Definition in_boundsb (size : Z) (t : txn) : bool :=
  forallb (fun i => (0 <=? i) && (i <? size)) (tx_stores t).

Section Engine.

Variable p : platform.
Variable b : bus.

Section Read.

Variable cbRead : Z.

(** [cbTrans = cbRead - cbRecv; if ( 32 < cbTrans ) { cbTrans = 32; }]
    ([cbTrans] is an [ssize_t] here). *)
Definition read_cbTrans (cbRecv : Z) : Z :=
  let cbTrans := cbRead - cbRecv in
  if 32 <? cbTrans then 32 else cbTrans.

(** The body of the loop of [I2CHALRead] in iteration [k]: send the
    memory address, then receive [cbTrans] bytes. *)
Definition read_step (k : nat) (addrRead cbRecv : Z) : txn :=
  let rgbSnd := stage_addr addrRead in
  let cbTrans := read_cbTrans cbRecv in
  let mk ok done :=
    {| tx_addr := addrRead; tx_stores := map fst rgbSnd;
       tx_bytes := map snd rgbSnd; tx_len := cbTrans;
       tx_ok := ok; tx_done := done |} in
  if addr_failed p (bus_send b k (map snd rgbSnd)) then mk false 0
  else
    let cb := bus_recv b k cbTrans in
    if recv_failed p cb then mk false 0
    else mk true (recv_credit p cb cbTrans).

(** [while ( cbRecv < cbRead ) { ... }] of [I2CHALRead], from
    iteration [k] on.  The result is the return value ([None]
    when the fuel runs out first), the final [cbRecv] and the
    transactions issued.  A failed iteration leaves through
    [lErrorExit]; a successful one ends in [cbRecv += n;
    addrRead += n;]. *)
Fixpoint read_loop (fuel : nat) (k : nat) (addrRead cbRecv : Z)
  : option bool * Z * list txn :=
  if cbRecv <? cbRead then
    match fuel with
    | O => (None, cbRecv, [])
    | S fuel' =>
        let t := read_step k addrRead cbRecv in
        if tx_ok t then
          let '(ret, cb', tr) :=
            read_loop fuel' (S k) (to_WORD (addrRead + tx_done t))
                      (to_BYTE (cbRecv + tx_done t)) in
          (ret, cb', t :: tr)
        else (Some fFalse, cbRecv, [t])
    end
  else (Some fTrue, cbRecv, []).

End Read.

Section Write.

Variable cbWrite : Z.
Variable cbDevRxMax : Z.

(** [cbTrans = 2 + (cbWrite - cbSent); if ( cbDevRxMax < cbTrans )
    { cbTrans = cbDevRxMax; }]  [cbTrans] is a [BYTE], so both
    assignments narrow. *)
Definition write_cbTrans (cbSent : Z) : Z :=
  let cbTrans := to_BYTE (2 + (cbWrite - cbSent)) in
  if cbDevRxMax <? cbTrans then to_BYTE cbDevRxMax else cbTrans.

(** The body of the loop of [I2CHALWrite] in iteration [k]: stage
    the address and the data in [rgbSnd], then send [cbTrans] bytes
    of it.  Returns the transaction and the advanced [pbWrite].  A store
    past the end of [rgbSnd] is recorded in [tx_stores].  C leaves what
    follows such a store undefined, and builds differ in it; the step is
    the source's only as long as every store is [in_bounds], which a cap
    between 0 and 32 guarantees.  The theorems on the calls keep to such
    runs; past them it is the stores themselves that are looked at. *)
Definition write_step (k : nat) (addrWrite : Z) (pbWrite : list Z)
           (cbSent : Z) : txn * list Z :=
  let cbTrans := write_cbTrans cbSent in
  let '(data, pbWrite') :=
    stage_data (Z.to_nat (cbTrans - 2)) 2 pbWrite in
  let rgbSnd := stage_addr addrWrite ++ data in
  let sent := firstn (Z.to_nat cbTrans) (map snd rgbSnd) in
  let mk ok done :=
    {| tx_addr := addrWrite; tx_stores := map fst rgbSnd;
       tx_bytes := sent; tx_len := cbTrans;
       tx_ok := ok; tx_done := done |} in
  if send_failed p (bus_send b k sent) cbTrans then (mk false 0, pbWrite')
  else (mk true (cbTrans - 2), pbWrite').

(** [while ( cbSent < cbWrite ) { ... }] of [I2CHALWrite].  A
    successful iteration ends in [cbSent += (cbTrans-2);
    addrWrite += (cbTrans-2);]. *)
Fixpoint write_loop (fuel : nat) (k : nat) (addrWrite : Z)
         (pbWrite : list Z) (cbSent : Z)
  : option bool * Z * list txn :=
  if cbSent <? cbWrite then
    match fuel with
    | O => (None, cbSent, [])
    | S fuel' =>
        let '(t, pbWrite') := write_step k addrWrite pbWrite cbSent in
        if tx_ok t then
          let '(ret, cb', tr) :=
            write_loop fuel' (S k) (to_WORD (addrWrite + tx_done t))
                       pbWrite' (to_BYTE (cbSent + tx_done t)) in
          (ret, cb', t :: tr)
        else (Some fFalse, cbSent, [t])
    end
  else (Some fTrue, cbSent, []).

End Write.

End Engine.

(** [BOOL I2CHALRead(int fdI2cDev, BYTE slaveAddr, WORD addrRead,
    BYTE* pbRead, BYTE cbRead, WORD* pcbRead, UINT32 uWait)] on the
    transport [p].  The bus [b] stands for [fdI2cDev] and the device
    behind it; [pbRead] is left out with the bytes received; [pcbRead]
    is [None] for [NULL] and otherwise holds the old contents of the
    pointee. *)
Definition I2CHALRead (p : platform) (b : bus) (fuel : nat)
           (slaveAddr addrRead cbRead : Z) (pcbRead : option Z) (uWait : Z)
  : result :=
  if select_failed p b then
    {| res_ret := Some fFalse; res_pcb := report pcbRead 0;
       res_trace := [] |}
  else
    let '(ret, cbRecv, tr) := read_loop p b cbRead fuel 0 addrRead 0 in
    {| res_ret := ret;
       res_pcb := match ret with
                  | Some _ => report pcbRead cbRecv
                  | None => pcbRead
                  end;
       res_trace := tr |}.

(** [BOOL I2CHALWrite(int fdI2cDev, BYTE slaveAddr, WORD addrWrite,
    BYTE* pbWrite, BYTE cbWrite, INT32 cbDevRxMax, WORD* pcbWritten,
    INT32 uWait)] on the transport [p]; [pbWrite] is the caller's data. *)
Definition I2CHALWrite (p : platform) (b : bus) (fuel : nat)
           (slaveAddr addrWrite : Z) (pbWrite : list Z)
           (cbWrite cbDevRxMax : Z) (pcbWritten : option Z) (uWait : Z)
  : result :=
  if select_failed p b then
    {| res_ret := Some fFalse; res_pcb := report pcbWritten 0;
       res_trace := [] |}
  else
    let '(ret, cbSent, tr) :=
      write_loop p b cbWrite cbDevRxMax fuel 0 addrWrite pbWrite 0 in
    {| res_ret := ret;
       res_pcb := match ret with
                  | Some _ => report pcbWritten cbSent
                  | None => pcbWritten
                  end;
       res_trace := tr |}.

(** Sums and counts over a trace. *)
Definition bytes_done (tr : list txn) : Z :=
  fold_right (fun t acc => tx_done t + acc) 0 tr.

Definition count (tr : list txn) : Z := Z.of_nat (length tr).

(** [ceil(a / b)] for a positive [b]. *)
Definition ceil_div (a b : Z) : Z := (a + b - 1) / b.

(** *** What the bus may do

    [all_done p r n]: the primitive that returned [r] moved all [n]
    bytes it was given. *)
Definition all_done (p : platform) (r n : Z) : Prop :=
  match p with
  | Zynq => r = XST_SUCCESS
  | Linux | MicroBlaze => r = n
  end.

(** Every primitive succeeds in full. *)
Definition full (p : platform) (b : bus) : Prop :=
  select_failed p b = false /\
  (forall k bytes, all_done p (bus_send b k bytes) (Z.of_nat (length bytes))) /\
  (forall k n, all_done p (bus_recv b k n) n).

(** Transaction [k] of a read goes through: the address is accepted and
    the receive makes progress (on Linux [read] returns no more than it
    was asked for). *)
Definition read_ok_at (p : platform) (b : bus) (k : nat) : Prop :=
  (forall bytes, length bytes = 2%nat ->
                 addr_failed p (bus_send b k bytes) = false) /\
  (forall n, 0 < n ->
             recv_failed p (bus_recv b k n) = false /\
             (p = Linux -> bus_recv b k n <= n)).

(** Transaction [k] of a read fails: in the address phase, or by zero
    or negative progress of the receive. *)
Definition read_bad_at (p : platform) (b : bus) (k : nat) : Prop :=
  (forall bytes, addr_failed p (bus_send b k bytes) = true) \/
  (forall n, recv_failed p (bus_recv b k n) = true).

(** Transaction [k] of a write goes through, or fails. *)
Definition write_ok_at (p : platform) (b : bus) (k : nat) : Prop :=
  forall bytes,
    send_failed p (bus_send b k bytes) (Z.of_nat (length bytes)) = false.

Definition write_bad_at (p : platform) (b : bus) (k : nat) : Prop :=
  forall bytes,
    send_failed p (bus_send b k bytes) (Z.of_nat (length bytes)) = true.

(** A write transaction is framed within [cap] when it puts at most
    [cap] bytes on the bus: the two bytes of its memory address, high
    byte first, and then at least one byte of data; it adds no more
    than the data it carries to the count. *)
Definition framed (cap : Z) (t : txn) : Prop :=
  3 <= tx_len t <= cap /\
  Z.of_nat (length (tx_bytes t)) = tx_len t /\
  firstn 2 (tx_bytes t)
  = [to_BYTE (Z.shiftr (tx_addr t) 8); to_BYTE (Z.land (tx_addr t) 0xFF)] /\
  0 <= tx_done t <= tx_len t - 2.

(** *** Transactions that go through, and transactions that fail

    The same, said of what the primitives return.  [accepted p r n]: the
    send of [n] bytes that returned [r] was taken in full; [received p r]:
    the receive that returned [r] made progress. *)
Definition accepted (p : platform) (r n : Z) : Prop :=
  match p with
  | Zynq => r = 0
  | Linux | MicroBlaze => r = n
  end.

Definition received (p : platform) (r : Z) : Prop :=
  match p with
  | Zynq => r = 0
  | Linux | MicroBlaze => 0 < r
  end.

(** The slave address is selected: [ioctl] did not return a negative
    value (Linux; the other transports have no such call). *)
Definition selected (p : platform) (b : bus) : Prop :=
  p = Linux -> 0 <= bus_ioctl b.

(** Transaction [k] of a read goes through: its two address bytes are
    accepted and its receive makes progress, on Linux without returning
    more than it was asked for. *)
Definition read_succeeds_at (p : platform) (b : bus) (k : nat) : Prop :=
  (forall bytes, length bytes = 2%nat -> accepted p (bus_send b k bytes) 2) /\
  (forall n, 0 < n ->
             received p (bus_recv b k n) /\
             (p = Linux -> bus_recv b k n <= n)).

(** Transaction [k] of a read fails: its address is not accepted, or its
    receive returns zero, a negative value or an error status. *)
Definition read_fails_at (p : platform) (b : bus) (k : nat) : Prop :=
  (forall bytes, ~ accepted p (bus_send b k bytes) 2) \/
  (forall n, ~ received p (bus_recv b k n)).

(** Transaction [k] of a write goes through, or fails: what it sends is,
    or is not, taken in full. *)
Definition write_succeeds_at (p : platform) (b : bus) (k : nat) : Prop :=
  forall bytes, accepted p (bus_send b k bytes) (Z.of_nat (length bytes)).

Definition write_fails_at (p : platform) (b : bus) (k : nat) : Prop :=
  forall bytes, ~ accepted p (bus_send b k bytes) (Z.of_nat (length bytes)).

(** *** Outcomes

    [completed_within k r]: the call returned fTrue after at most [k]
    transactions, all of them successful. *)
Definition completed_within (k : nat) (r : result) : Prop :=
  res_ret r = Some fTrue /\
  (length (res_trace r) <= k)%nat /\
  Forall (fun t => tx_ok t = true) (res_trace r).

(** [counted pcb r n]: the call left the count [n] in the pointee of a
    pointer that is not [NULL], and nothing anywhere for [NULL]. *)
Definition counted (pcb : option Z) (r : result) (n : Z) : Prop :=
  match pcb with
  | Some _ => res_pcb r = Some n
  | None => res_pcb r = None
  end.

(** The size of transaction [j] of a read that began with [good]: it
    asks for what is left of [cbRead] after the transactions before it,
    at most 32 bytes, and is counted with what [read] returned on Linux
    and with all it asked for on the other two transports. *)
Definition read_sized (p : platform) (b : bus) (cbRead : Z)
           (good : list txn) (j : nat) (t : txn) : Prop :=
  tx_len t = Z.min 32 (cbRead - bytes_done (firstn j good)) /\
  0 < tx_done t <= tx_len t /\
  tx_done t = match p with
              | Linux => bus_recv b j (tx_len t)
              | Zynq | MicroBlaze => tx_len t
              end.

(** The size of transaction [j] of a write: the two address bytes and
    what is left of [cbWrite], at most [cap] bytes in all, every one of
    them staged inside [rgbSnd] and handed to the bus; it is counted
    with its data bytes. *)
Definition write_sized (cbWrite cap : Z)
           (good : list txn) (j : nat) (t : txn) : Prop :=
  tx_len t = Z.min cap (2 + (cbWrite - bytes_done (firstn j good))) /\
  Z.of_nat (length (tx_bytes t)) = tx_len t /\
  tx_done t = tx_len t - 2 /\
  in_bounds cbSndWrite t.

(** [aborted_after k pcb sized r]: [k] transactions succeeded, each of
    the size [sized] gives it; the next one failed, added nothing and
    was the last one issued; the call returned fFalse and left the sum
    of the sizes of the [k] successful transactions as its count. *)
Definition aborted_after (k : nat) (pcb : option Z)
           (sized : list txn -> nat -> txn -> Prop) (r : result) : Prop :=
  res_ret r = Some fFalse /\
  exists good bad,
    res_trace r = good ++ [bad] /\
    length good = k /\
    (forall j t, nth_error good j = Some t ->
                 tx_ok t = true /\ sized good j t) /\
    tx_ok bad = false /\ tx_done bad = 0 /\
    counted pcb r (bytes_done good).

End I2CHAL.

(** ** PlatformMCU.c: the Platform MCU wrappers *)

Module PlatformMCU.
Import I2CHAL.

Definition addrPlatformMcuI2c : Z := 0x60.

(** [#define cbPmcuRxMax 6] and [#define cbPmcuTxMax 32]. *)
Definition cbPmcuRxMax : Z := 6.
Definition cbPmcuTxMax : Z := 32.

Definition PmcuI2cRead (p : platform) (b : bus) (fuel : nat)
           (addrRead cbRead : Z) (pcbRead : option Z) : result :=
  I2CHALRead p b fuel addrPlatformMcuI2c addrRead (to_BYTE cbRead) pcbRead 50.

Definition PmcuI2cWrite (p : platform) (b : bus) (fuel : nat)
           (addrWrite : Z) (pbWrite : list Z) (cbWrite : Z)
           (pcbWritten : option Z) : result :=
  I2CHALWrite p b fuel addrPlatformMcuI2c addrWrite pbWrite (to_BYTE cbWrite)
              cbPmcuRxMax pcbWritten 0.

End PlatformMCU.

(** ** syzygy.c: the SYZYGY wrappers *)

Module SyzygyI2c.
Import I2CHAL.

(** [#define cbPmcuRxMax 34] and [#define cbPmcuTxMax 32]. *)
Definition cbPmcuRxMax : Z := 34.
Definition cbPmcuTxMax : Z := 32.

(** [cbRead] and [cbWrite] are [WORD]s here and [BYTE]s in the callee:
    the call converts them. *)
Definition SyzygyI2cRead (p : platform) (b : bus) (fuel : nat)
           (addrI2cSlave addrRead cbRead : Z) (pcbRead : option Z)
  : result :=
  I2CHALRead p b fuel addrI2cSlave addrRead (to_BYTE cbRead) pcbRead 0.

Definition SyzygyI2cWrite (p : platform) (b : bus) (fuel : nat)
           (addrI2cSlave addrWrite : Z) (pbWrite : list Z) (cbWrite : Z)
           (pcbWritten : option Z) : result :=
  I2CHALWrite p b fuel addrI2cSlave addrWrite pbWrite (to_BYTE cbWrite)
              cbPmcuRxMax pcbWritten 10000.

End SyzygyI2c.

(** ** Buses used in the examples *)

Module Buses.
Import I2CHAL.

(** A bus on which every primitive does all it is asked. *)
Definition ideal (p : platform) : bus :=
  {| bus_ioctl := 0;
     bus_send := fun _ bytes =>
       match p with
       | Zynq => XST_SUCCESS
       | _ => Z.of_nat (length bytes)
       end;
     bus_recv := fun _ n =>
       match p with
       | Zynq => XST_SUCCESS
       | _ => n
       end |}.

(** The ideal bus until transaction [k], whose receive makes no
    progress. *)
Definition dead_at (p : platform) (k : nat) : bus :=
  {| bus_ioctl := 0;
     bus_send := bus_send (ideal p);
     bus_recv := fun j n =>
       if (j =? k)%nat then -1 else bus_recv (ideal p) j n |}.

(** The ideal bus until transaction [k], whose send is refused: the
    address phase of a read, the whole transaction of a write. *)
Definition nack_at (p : platform) (k : nat) : bus :=
  {| bus_ioctl := 0;
     bus_send := fun j bytes =>
       if (j =? k)%nat then -1 else bus_send (ideal p) j bytes;
     bus_recv := bus_recv (ideal p) |}.

(** A caller buffer of [n] bytes 1, 2, 3, ... *)
Definition ramp (n : nat) : list Z := map Z.of_nat (seq 1 n).

End Buses.

(** ** ZmodDigitizer.c and dpmutil.c: the other product-ID decoders *)

Module DigitizerId.

(** The two enumerators [FGetZmodDigitizerVariant] names; the
    declaration of the enum is not among the sources at hand. *)
Inductive ZMOD_DIGITIZER_VARIANT : Set :=
| ZMOD_DIGITIZER_VARIANT_1430_125
| ZMOD_DIGITIZER_VARIANT_UNSUPPORTED.

(** [ZmodDigitizer.c]: [switch ((Pdid >> 8) & 0xfff)]; both cases store
    the variant through [pVariant]. *)
Definition FGetZmodDigitizerVariant (Pdid : Z)
  : bool * ZMOD_DIGITIZER_VARIANT :=
  match Z.land (Z.shiftr Pdid 8) 0xfff with
  | 0x061 => (fTrue, ZMOD_DIGITIZER_VARIANT_1430_125)
  | _ => (fFalse, ZMOD_DIGITIZER_VARIANT_UNSUPPORTED)
  end.

(** [ZmodDigitizer.c]: the [default] case returns without writing
    [*pResolution], so the old contents [res0] are kept. *)
Definition FGetZmodDigitizerResolution (variant : ZMOD_DIGITIZER_VARIANT)
           (res0 : Z) : bool * Z :=
  match variant with
  | ZMOD_DIGITIZER_VARIANT_1430_125 => (fTrue, 14)
  | _ => (fFalse, res0)
  end.

(** [dpmutil.c]: [#define ProductFromPdid(pdid) ((pdid >> 20) & 0xFFF)],
    the selector of the [switch] in [dpmutilFEnum]. *)
Definition ProductFromPdid (pdid : Z) : Z := Z.land (Z.shiftr pdid 20) 0xFFF.

End DigitizerId.

(** ** I2CHAL.c: where the data and the addresses go *)

Module Layout.
Import I2CHAL.

(** The data bytes of a write transaction: what follows the two address
    bytes. *)
Definition payload (t : txn) : list Z := skipn 2 (tx_bytes t).

(** The data bytes of the transactions that went through, in bus order. *)
Definition delivered (tr : list txn) : list Z :=
  flat_map (fun t => if tx_ok t then payload t else []) tr.

(** Every transaction is addressed [addr0] plus what the transactions
    before it were credited with, as a [WORD]. *)
Definition addresses_follow (addr0 : Z) (tr : list txn) : Prop :=
  forall i t, nth_error tr i = Some t ->
              tx_addr t = to_WORD (addr0 + bytes_done (firstn i tr)).

(** The same, one transaction after the other: [addrRead += n;] and
    [addrWrite += (cbTrans-2);] on a [WORD]. *)
Fixpoint chained (addr : Z) (tr : list txn) : Prop :=
  match tr with
  | [] => True
  | t :: tr' => tx_addr t = addr /\ chained (to_WORD (addr + tx_done t)) tr'
  end.

End Layout.

(** ** I2CHAL.c: the receive buffer *)

Module I2CData.
Import I2CHAL.

(** What a receive puts in its buffer, which [bus] leaves out:
    [rx k sent i] is byte [i] of what the receive of transaction [k]
    delivers after the address phase sent the bytes [sent]. *)
Definition rxdata : Type := nat -> list Z -> Z -> Z.

(** The number of bytes the receive primitive stored at
    [&(pbRead[cbRecv])]: the count that [read] or [XIic_Recv] returned,
    all [cbTrans] of a successful [XIicPs_MasterRecvPolled]. *)
Definition recv_stored (p : platform) (r cbTrans : Z) : Z :=
  match p with
  | Linux | MicroBlaze => r
  | Zynq => cbTrans
  end.

(** A buffer is a function from index to byte; [store buf off n src] is
    [buf] after the [n] bytes [src 0 .. src (n-1)] were stored from
    index [off] on. *)
Definition store (buf : Z -> Z) (off n : Z) (src : Z -> Z) : Z -> Z :=
  fun i => if (off <=? i) && (i <? off + n) then src (i - off) else buf i.

Section ReadData.

Variable p : platform.
Variable b : bus.
Variable rx : rxdata.
Variable cbRead : Z.

(** The loop of [I2CHALRead] once more, now for what it leaves in
    [pbRead]: the same iterations as [read_loop], each successful one
    storing what its receive delivered at [&(pbRead[cbRecv])].  A
    failed iteration is taken to store nothing. *)
Fixpoint read_loop_pbRead (fuel : nat) (k : nat) (addrRead cbRecv : Z)
         (pbRead : Z -> Z) : Z -> Z :=
  if cbRecv <? cbRead then
    match fuel with
    | O => pbRead
    | S fuel' =>
        let t := read_step p b cbRead k addrRead cbRecv in
        if tx_ok t then
          read_loop_pbRead fuel' (S k) (to_WORD (addrRead + tx_done t))
            (to_BYTE (cbRecv + tx_done t))
            (store pbRead cbRecv
                   (recv_stored p (bus_recv b k (tx_len t)) (tx_len t))
                   (rx k (tx_bytes t)))
        else pbRead
    end
  else pbRead.

End ReadData.

(** [pbRead] after [I2CHALRead(fdI2cDev, slaveAddr, addrRead, pbRead,
    cbRead, pcbRead, uWait)] on a device that delivers [rx]. *)
Definition I2CHALRead_pbRead (p : platform) (b : bus) (rx : rxdata)
           (fuel : nat) (slaveAddr addrRead : Z) (pbRead : Z -> Z)
           (cbRead : Z) : Z -> Z :=
  if select_failed p b then pbRead
  else read_loop_pbRead p b rx cbRead fuel 0 addrRead 0 pbRead.

(** *** A memory behind the bus

    The device the engine is written for: after the two address bytes
    [hi], [lo] it delivers the bytes it holds from address
    [256 * hi + lo] on, the address counting modulo [2^16]. *)
Definition memory (mem : Z -> Z) : rxdata :=
  fun _ sent i => mem (to_WORD (256 * nth 0 sent 0 + nth 1 sent 0 + i)).

(** The same device at the receiving end of a write: the bytes after
    the two address bytes go to consecutive addresses.  A transaction
    that failed is taken to leave the memory as it was. *)
Fixpoint mem_store (mem : Z -> Z) (addr : Z) (bytes : list Z) : Z -> Z :=
  match bytes with
  | [] => mem
  | x :: rest =>
      mem_store (fun a => if a =? to_WORD addr then x else mem a)
                (addr + 1) rest
  end.

Definition mem_write (mem : Z -> Z) (t : txn) : Z -> Z :=
  if tx_ok t then
    mem_store mem (256 * nth 0 (tx_bytes t) 0 + nth 1 (tx_bytes t) 0)
              (skipn 2 (tx_bytes t))
  else mem.

(** The memory after the transactions [tr]. *)
Definition written (tr : list txn) (mem : Z -> Z) : Z -> Z :=
  fold_left mem_write tr mem.

(** A MicroBlaze bus whose receive returns one byte, whatever it is
    asked for. *)
Definition one_byte : bus :=
  {| bus_ioctl := 0;
     bus_send := fun _ bytes => Z.of_nat (length bytes);
     bus_recv := fun _ _ => 1 |}.

End I2CData.

(** ** syzygy.c: the DNA header and the firmware registers *)

Module SyzygyDna.
Import Syzygy I2CHAL I2CData SyzygyI2c.

(** [pbRead] after [SyzygyI2cRead]. *)
Definition SyzygyI2cRead_pbRead (p : platform) (b : bus) (rx : rxdata)
           (fuel : nat) (addrI2cSlave addrRead : Z) (pbRead : Z -> Z)
           (cbRead : Z) : Z -> Z :=
  I2CHALRead_pbRead p b rx fuel addrI2cSlave addrRead pbRead (to_BYTE cbRead).

(** The first [n] bytes of a buffer. *)
Definition bytes_of (buf : Z -> Z) (n : Z) : list Z :=
  map buf (Zseq 0 (Z.to_nat n)).

(** [#define addrDnaStart 0x8000] (syzygy.h); the functions write the
    literal. *)
Definition addrDnaStart : Z := 0x8000.

(** [BOOL SyzygyReadDNAHeader(int fdI2cDev, BYTE addrI2cSlave,
    SzgDnaHeader* pszgdnahdr, BOOL fCheckCrc)].  [rgbDnaBuf] is the
    local array, whose contents are indeterminate at first;
    [*pszgdnahdr] is the header as the [sizeof(SzgDnaHeader)] = 40
    bytes that [memcpy] stores, [None] for a [NULL] pointer.  The result
    is the return value ([None]: the read did not return) and
    [*pszgdnahdr]. *)
Definition SyzygyReadDNAHeader (p : platform) (b : bus) (rx : rxdata)
           (fuel : nat) (addrI2cSlave : Z) (rgbDnaBuf : Z -> Z)
           (pszgdnahdr : option (list Z)) (fCheckCrc : bool)
  : option bool * option (list Z) :=
  let r := SyzygyI2cRead p b fuel addrI2cSlave 0x8000 cbSyzygyDnaHeader
                         None in
  let rgbDnaBuf :=
    bytes_of (SyzygyI2cRead_pbRead p b rx fuel addrI2cSlave 0x8000 rgbDnaBuf
                                   cbSyzygyDnaHeader)
             cbSyzygyDnaHeader in
  match res_ret r with
  | None => (None, pszgdnahdr)
  | Some false => (Some fFalse, pszgdnahdr)
  | Some true =>
      if fCheckCrc
         && negb (0 =? SyzygyComputeCRC rgbDnaBuf cbSyzygyDnaHeader)
      then (Some fFalse, pszgdnahdr)
      else (Some fTrue,
            match pszgdnahdr with
            | None => None
            | Some _ => Some rgbDnaBuf
            end)
  end.

(** [SzgStdFwRegs] (syzygy.h). *)
Record SzgStdFwRegs : Type := {
  fwverMjr : Z;
  fwverMin : Z;
  dnaverMjr : Z;
  dnaverMin : Z;
  cbEeprom : Z
}.

(** [BOOL SyzygyReadStdFwRegisters(int fdI2cDev, BYTE addrI2cSlave,
    SzgStdFwRegs* pszgfwregs)]: six bytes from address 0, then the
    fields; [cbEeprom] is a [WORD]. *)
Definition SyzygyReadStdFwRegisters (p : platform) (b : bus) (rx : rxdata)
           (fuel : nat) (addrI2cSlave : Z) (rgbFwReg : Z -> Z)
           (pszgfwregs : option SzgStdFwRegs)
  : option bool * option SzgStdFwRegs :=
  let r := SyzygyI2cRead p b fuel addrI2cSlave 0x0000 6 None in
  let rgbFwReg :=
    SyzygyI2cRead_pbRead p b rx fuel addrI2cSlave 0x0000 rgbFwReg 6 in
  match res_ret r with
  | None => (None, pszgfwregs)
  | Some false => (Some fFalse, pszgfwregs)
  | Some true =>
      (Some fTrue,
       match pszgfwregs with
       | None => None
       | Some _ =>
           Some {| fwverMjr := rgbFwReg 0;
                   fwverMin := rgbFwReg 1;
                   dnaverMjr := rgbFwReg 2;
                   dnaverMin := rgbFwReg 3;
                   cbEeprom :=
                     to_WORD (Z.shiftl (rgbFwReg 4) 8 + rgbFwReg 5) |}
       end)
  end.

End SyzygyDna.

(** ** syzygy.c: the DNA strings *)

Module DnaStrings.
Import I2CHAL I2CData SyzygyI2c SyzygyDna.

(** The fields of [SzgDnaHeader] (syzygy.h) that [SyzygyReadDNAStrings]
    reads: a [WORD] and five [BYTE]s. *)
Record SzgDnaHeader : Type := {
  cbDnaHeader : Z;
  cbManufacturerName : Z;
  cbProductName : Z;
  cbProductModel : Z;
  cbProductVersion : Z;
  cbSerialNumber : Z
}.

(** [SzgDnaStrings] (syzygy.h).  A [char*] field is [None] for [NULL]
    and otherwise the block it points to, as the list of the bytes of
    the block. *)
Record SzgDnaStrings : Type := {
  szManufacturerName : option (list Z);
  szProductName : option (list Z);
  szProductModel : option (list Z);
  szProductVersion : option (list Z);
  szSerialNumber : option (list Z)
}.

(** The calls to the allocator, in the order they are made. *)
Inductive alloc_event : Set :=
| ev_malloc (size : Z)
| ev_free.

(** [if ( NULL != psz ) { free(psz); psz = NULL; }] *)
Definition free_field (psz : option (list Z)) : list alloc_event :=
  match psz with
  | None => []
  | Some _ => [ev_free]
  end.

(** [void SyzygyFreeDNAStrings(SzgDnaStrings* pszgdnastrings)]: the
    structure afterwards and the calls to [free]. *)
Definition SyzygyFreeDNAStrings (pszgdnastrings : option SzgDnaStrings)
  : option SzgDnaStrings * list alloc_event :=
  match pszgdnastrings with
  | None => (None, [])
  | Some s =>
      (Some {| szManufacturerName := None; szProductName := None;
               szProductModel := None; szProductVersion := None;
               szSerialNumber := None |},
       free_field (szManufacturerName s) ++ free_field (szProductName s)
       ++ free_field (szProductModel s) ++ free_field (szProductVersion s)
       ++ free_field (szSerialNumber s))
  end.

(** The number of blocks a structure points to. *)
Definition owned (s : SzgDnaStrings) : nat :=
  length (free_field (szManufacturerName s) ++ free_field (szProductName s)
          ++ free_field (szProductModel s) ++ free_field (szProductVersion s)
          ++ free_field (szSerialNumber s)).

(** [psz = (char* )malloc(cb + 1); psz[0] = '\0';]: a block of [cb + 1]
    bytes, the first one zero and the others whatever [malloc] left
    there ([junk]).  [malloc] is taken to succeed: the source does not
    test its result. *)
Definition new_string (junk : Z -> Z) (cb : Z) : list Z :=
  0 :: map junk (Zseq 1 (Z.to_nat cb)).

(** [psz[cb] = '\0';] *)
Definition terminate (sz : list Z) (cb : Z) : list Z :=
  firstn (Z.to_nat cb) sz ++ 0 :: skipn (S (Z.to_nat cb)) sz.

(** The bus and the device as a later call of the same run finds them,
    [n] transactions on. *)
Definition after (n : nat) (b : bus) : bus :=
  {| bus_ioctl := bus_ioctl b;
     bus_send := fun k => bus_send b (n + k)%nat;
     bus_recv := fun k => bus_recv b (n + k)%nat |}.

Definition rx_after (n : nat) (rx : rxdata) : rxdata :=
  fun k => rx (n + k)%nat.

(** What the five reads of [SyzygyReadDNAStrings] thread through:
    [addrRead], and the transactions issued so far. *)
Record progress : Type := {
  pr_addrRead : Z;
  pr_trace : list txn
}.

Section ReadStrings.

Variable p : platform.
Variable b : bus.
Variable rx : rxdata.
Variable fuel : nat.
Variable addrI2cSlave : Z.

(** [SyzygyI2cRead(fdI2cDev, addrI2cSlave, addrRead, (BYTE* )psz, cb,
    NULL)] and, when it succeeds, [psz[cb] = '\0'].  A store past the
    end of the block is not modelled. *)
Definition read_string (pr : progress) (cb : Z) (sz : list Z)
  : option bool * list Z * progress :=
  let n := length (pr_trace pr) in
  let r := SyzygyI2cRead p (after n b) fuel addrI2cSlave (pr_addrRead pr) cb
                         None in
  let buf :=
    SyzygyI2cRead_pbRead p (after n b) (rx_after n rx) fuel addrI2cSlave
                         (pr_addrRead pr)
                         (fun i => nth (Z.to_nat i) sz 0) cb in
  let sz' := map buf (Zseq 0 (length sz)) in
  let pr' := {| pr_addrRead := pr_addrRead pr;
                pr_trace := pr_trace pr ++ res_trace r |} in
  match res_ret r with
  | Some true => (Some fTrue, terminate sz' cb, pr')
  | Some false => (Some fFalse, sz', pr')
  | None => (None, sz', pr')
  end.

(** [addrRead += cb;] ([addrRead] is a [WORD]). *)
Definition advance (pr : progress) (cb : Z) : progress :=
  {| pr_addrRead := to_WORD (pr_addrRead pr + cb);
     pr_trace := pr_trace pr |}.

(** [BOOL SyzygyReadDNAStrings(int fdI2cDev, BYTE addrI2cSlave,
    SzgDnaHeader* pszgdnahdr, SzgDnaStrings* pszgdnastrings)]: the
    return value ([None]: a read did not return), the structure
    afterwards, the calls to the allocator and the bus transactions.
    The five reads are written out as in the source, each one leaving
    through [return fFalse] when it fails. *)
Definition SyzygyReadDNAStrings (junk : Z -> Z)
           (pszgdnahdr : option SzgDnaHeader)
           (pszgdnastrings : option SzgDnaStrings)
  : option bool * option SzgDnaStrings * list alloc_event * list txn :=
  match pszgdnahdr, pszgdnastrings with
  | Some hdr, Some strs =>
      let events :=
        snd (SyzygyFreeDNAStrings (Some strs))
        ++ [ev_malloc (cbManufacturerName hdr + 1);
            ev_malloc (cbProductName hdr + 1);
            ev_malloc (cbProductModel hdr + 1);
            ev_malloc (cbProductVersion hdr + 1);
            ev_malloc (cbSerialNumber hdr + 1)] in
      let man := new_string junk (cbManufacturerName hdr) in
      let name := new_string junk (cbProductName hdr) in
      let model := new_string junk (cbProductModel hdr) in
      let version := new_string junk (cbProductVersion hdr) in
      let serial := new_string junk (cbSerialNumber hdr) in
      let leave ret man name model version serial pr :=
        (ret,
         Some {| szManufacturerName := Some man; szProductName := Some name;
                 szProductModel := Some model;
                 szProductVersion := Some version;
                 szSerialNumber := Some serial |},
         events, pr_trace pr) in
      let pr := {| pr_addrRead := to_WORD (0x8000 + cbDnaHeader hdr);
                   pr_trace := [] |} in
      let '(ret, man, pr) := read_string pr (cbManufacturerName hdr) man in
      match ret with
      | Some true =>
          let pr := advance pr (cbManufacturerName hdr) in
          let '(ret, name, pr) := read_string pr (cbProductName hdr) name in
          match ret with
          | Some true =>
              let pr := advance pr (cbProductName hdr) in
              let '(ret, model, pr) :=
                read_string pr (cbProductModel hdr) model in
              match ret with
              | Some true =>
                  let pr := advance pr (cbProductModel hdr) in
                  let '(ret, version, pr) :=
                    read_string pr (cbProductVersion hdr) version in
                  match ret with
                  | Some true =>
                      let pr := advance pr (cbProductVersion hdr) in
                      let '(ret, serial, pr) :=
                        read_string pr (cbSerialNumber hdr) serial in
                      leave ret man name model version serial pr
                  | _ => leave ret man name model version serial pr
                  end
              | _ => leave ret man name model version serial pr
              end
          | _ => leave ret man name model version serial pr
          end
      | _ => leave ret man name model version serial pr
      end
  | _, _ => (Some fFalse, pszgdnastrings, [], [])
  end.

End ReadStrings.

(** The [n] bytes a memory device holds from address [addr] on. *)
Definition mem_slice (mem : Z -> Z) (addr : Z) (n : Z) : list Z :=
  map (fun i => mem (to_WORD (addr + i))) (Zseq 0 (Z.to_nat n)).

End DnaStrings.

(** ** I2CHAL.c: finding the I2C controller (Linux) *)

Module OpenController.

(** [#define cchDeviceNameMax 64] (I2CHAL.h); [szDevName] has
    [cchDeviceNameMax+1] elements, [szFilePath] 512. *)
Definition cchDeviceNameMax : Z := 64.
Definition cchDevName : Z := cchDeviceNameMax + 1.
Definition cchFilePath : Z := 512.

(** Characters are their codes: ['\n'] and ['.']. *)
Definition chNewline : Z := 10.
Definition chDot : Z := 46.

(** ["pmcu-i2c"], ["/dev/i2c-0"], ["/dev/"],
    ["/sys/bus/i2c/devices/"] and ["/of_node/device-name"]. *)
Definition szI2cDeviceName : list Z := [112; 109; 99; 117; 45; 105; 50; 99].
Definition szI2cDeviceNameDefault : list Z :=
  [47; 100; 101; 118; 47; 105; 50; 99; 45; 48].
Definition szDev : list Z := [47; 100; 101; 118; 47].
Definition szSysDevices : list Z :=
  [47; 115; 121; 115; 47; 98; 117; 115; 47; 105; 50; 99; 47;
   100; 101; 118; 105; 99; 101; 115; 47].
Definition szDeviceNameFile : list Z :=
  [47; 111; 102; 95; 110; 111; 100; 101; 47;
   100; 101; 118; 105; 99; 101; 45; 110; 97; 109; 101].

(** The loop that reads the device name, as the stores to [szDevName]
    it makes, each an index and a character.  [pfile] is what the file
    still holds: [fgetc] returns its next byte, and [EOF] at the end.
    [cchRead] is a [WORD].
<<
    cchRead = 0;
    ch = fgetc(pfile);
    while (( EOF != ch ) && ( '\n' != ch ) &&
           ( cchDeviceNameMax > cchRead )) {
        szDevName[cchRead] = (char)ch;
        cchRead++;
        ch = fgetc(pfile);
    }
    szDevName[cchRead] = '\0';
>> *)
Fixpoint read_device_name (pfile : list Z) (cchRead : Z) : list (Z * Z) :=
  match pfile with
  | [] => [(cchRead, 0)]
  | ch :: rest =>
      if negb (chNewline =? ch) && (cchRead <? cchDeviceNameMax) then
        (cchRead, ch) :: read_device_name rest (to_WORD (cchRead + 1))
      else [(cchRead, 0)]
  end.

(** A C string: the characters before the first zero. *)
Fixpoint c_str (sz : list Z) : list Z :=
  match sz with
  | [] => []
  | ch :: rest => if ch =? 0 then [] else ch :: c_str rest
  end.

(** [szDevName] as a C string after the loop. *)
Definition szDevName (pfile : list Z) : list Z :=
  c_str (map snd (read_device_name pfile 0)).

(** [0 == strcmp(sz1, sz2)] *)
Definition strcmp_is_0 (sz1 sz2 : list Z) : bool :=
  if list_eq_dec Z.eq_dec (c_str sz1) (c_str sz2) then true else false.

(** A directory entry as the function uses it: its name, and the
    contents of its [of_node/device-name] file ([None] when [fopen]
    fails). *)
Record dirent : Type := {
  d_name : list Z;
  device_name : option (list Z)
}.

(** The [while ( NULL != pdirent )] loop over what [readdir] returns:
    the entry on which it breaks, [None] when [readdir] runs out. *)
Fixpoint find_controller (pdir : list dirent) : option dirent :=
  match pdir with
  | [] => None
  | pdirent :: rest =>
      if strcmp_is_0 (d_name pdirent) [chDot]
         || strcmp_is_0 (d_name pdirent) [chDot; chDot]
      then find_controller rest
      else
        match device_name pdirent with
        | None => find_controller rest
        | Some pfile =>
            if strcmp_is_0 szI2cDeviceName (szDevName pfile)
            then Some pdirent
            else find_controller rest
        end
  end.

(** The two paths the function prints into [szFilePath]. *)
Definition device_name_path (pdirent : dirent) : list Z :=
  szSysDevices ++ c_str (d_name pdirent) ++ szDeviceNameFile.

Definition dev_path (pdirent : dirent) : list Z :=
  szDev ++ c_str (d_name pdirent).

(** [int I2CHALOpenI2cController()]: [pdir] is what [opendir] returns
    ([None] for [NULL]) and [open] is [open(szFilePath, O_RDWR)]. *)
Definition I2CHALOpenI2cController (pdir : option (list dirent))
           (open : list Z -> Z) : Z :=
  match pdir with
  | None => -1
  | Some entries =>
      open (match find_controller entries with
            | Some pdirent => dev_path pdirent
            | None => szI2cDeviceNameDefault
            end)
  end.

(** The first line of a file, without its newline. *)
Fixpoint first_line (pfile : list Z) : list Z :=
  match pfile with
  | [] => []
  | ch :: rest => if chNewline =? ch then [] else ch :: first_line rest
  end.

(** What makes the loop break on an entry: it is neither ["."] nor
    [".."], its device-name file opens, and the name read from it
    compares equal to [szI2cDeviceName]. *)
Definition is_controller (pdirent : dirent) : bool :=
  negb (strcmp_is_0 (d_name pdirent) [chDot]
        || strcmp_is_0 (d_name pdirent) [chDot; chDot])
  && match device_name pdirent with
     | None => false
     | Some pfile => strcmp_is_0 szI2cDeviceName (szDevName pfile)
     end.

End OpenController.

Import ZmodId Digitizer Syzygy I2CHAL.
Import ZmodDAC DigitizerId Layout I2CData SyzygyDna DnaStrings OpenController.

(* ================================================================= *)
(** * Part II: properties *)
(* ================================================================= *)

(** ** Arithmetic of the C integer types *)

(** Linear arithmetic with [/] and [mod] by constants, and the ranges of
    the C types. *)
Ltac zlia := Z.div_mod_to_equations; lia.

Ltac byte_range := unfold is_BYTE; change (2 ^ 8) with 256; lia.

Ltac unfold_types :=
  unfold to_BYTE, to_WORD, is_BYTE, is_WORD in *;
  change (2 ^ 8) with 256 in *; change (2 ^ 16) with 65536 in *.

Lemma to_BYTE_range z : is_BYTE (to_BYTE z).
Proof. unfold is_BYTE, to_BYTE. apply Z.mod_pos_bound. reflexivity. Qed.

Lemma to_WORD_range z : is_WORD (to_WORD z).
Proof. unfold is_WORD, to_WORD. apply Z.mod_pos_bound. reflexivity. Qed.

Lemma to_BYTE_id z : is_BYTE z -> to_BYTE z = z.
Proof. unfold is_BYTE, to_BYTE. intros H. now apply Z.mod_small. Qed.

Lemma to_WORD_id z : is_WORD z -> to_WORD z = z.
Proof. unfold is_WORD, to_WORD. intros H. now apply Z.mod_small. Qed.

Lemma to_WORD_land z : to_WORD z = Z.land z (Z.ones 16).
Proof. unfold to_WORD. symmetry. now apply Z.land_ones. Qed.

Lemma to_WORD_lxor x y : to_WORD (Z.lxor x y) = Z.lxor (to_WORD x) (to_WORD y).
Proof.
  rewrite !to_WORD_land. apply Z.bits_inj'. intros n _.
  rewrite !Z.lxor_spec, !Z.land_spec, Z.lxor_spec.
  now destruct (Z.testbit x n), (Z.testbit y n), (Z.testbit (Z.ones 16) n).
Qed.

Lemma In_Zseq n : forall lo v, In v (Zseq lo n) <-> lo <= v < lo + Z.of_nat n.
Proof.
  induction n as [|n IH]; intros lo v; simpl Zseq.
  - simpl. lia.
  - simpl In. rewrite IH. lia.
Qed.

(** A property of all 16-bit values that a boolean test decides can be
    settled by running the test on the 65536 of them. *)
Lemma forall_word (f : Z -> bool) :
  forallb f all_WORDs = true ->
  forall v, is_WORD v -> f v = true.
Proof.
  intros H v Hv.
  rewrite forallb_forall in H. apply H.
  apply In_Zseq. unfold is_WORD in Hv. rewrite Z2Nat.id; lia.
Qed.

(** ** Product-ID decoding *)

(** C7: the PDID 0x80100200 carries the ADC product code in bits 31:20
    and the selector 0x002 in bits 19:8; it decodes to the ADC family,
    to the variant 1410_105 and to a resolution of 14 bits. *)
Theorem pdid_80100200_decodes :
  Z.land (Z.shiftr 0x80100200 20) 0xfff = prodZmodADC /\
  FZmodIsADC 0x80100200 = fTrue /\
  (forall FZmodIsDAC,
      FGetZmodFamily FZmodIsDAC 0x80100200 = (fTrue, ZMOD_FAMILY_ADC)) /\
  Z.land (Z.shiftr 0x80100200 8) 0xfff = 0x002 /\
  FGetZmodADCVariant 0x80100200 = (fTrue, ZMOD_ADC_VARIANT_1410_105) /\
  (forall res0,
      FGetZmodADCResolution (snd (FGetZmodADCVariant 0x80100200)) res0
      = (fTrue, 14)).
Proof. repeat split. Qed.

Lemma FZmodIsADC_is_FZmodIsDigitizer Pdid :
  FZmodIsADC Pdid = FZmodIsDigitizer Pdid.
Proof. reflexivity. Qed.

(** C10: both product codes are 0x801, so the ADC and the Digitizer test
    agree on every PDID; [FGetZmodFamily] therefore never answers
    DIGITIZER (a PDID the Digitizer test accepts is reported as ADC), and
    it returns fTrue on every input, the unsupported ones included. *)
Theorem family_never_digitizer :
  prodZmodADC = 0x801 /\ prodZmodDigitizer = 0x801 /\
  (forall Pdid, FZmodIsADC Pdid = FZmodIsDigitizer Pdid) /\
  (forall FZmodIsDAC Pdid,
      snd (FGetZmodFamily FZmodIsDAC Pdid) <> ZMOD_FAMILY_DIGITIZER) /\
  (forall FZmodIsDAC Pdid,
      FGetZmodFamily FZmodIsDAC Pdid =
      (fTrue,
       if FZmodIsDigitizer Pdid then ZMOD_FAMILY_ADC
       else if FZmodIsDAC Pdid then ZMOD_FAMILY_DAC
       else ZMOD_FAMILY_UNSUPPORTED)) /\
  (forall FZmodIsDAC Pdid, fst (FGetZmodFamily FZmodIsDAC Pdid) = fTrue).
Proof.
  split; [reflexivity|]. split; [reflexivity|].
  split; [exact FZmodIsADC_is_FZmodIsDigitizer|].
  repeat split; intros isDAC Pdid; unfold FGetZmodFamily;
    rewrite FZmodIsADC_is_FZmodIsDigitizer;
    destruct (FZmodIsDigitizer Pdid), (isDAC Pdid); simpl; congruence.
Qed.

(** ** The frequency-step table *)

Lemma step_default hz :
  ~ In hz known_steps ->
  FZmodDigitizerGetFrequencyStepMHz hz = float32_lit 0 1.
Proof.
  intros H. unfold FZmodDigitizerGetFrequencyStepMHz.
  repeat (match goal with
          | |- context [match ?z with _ => _ end] => destruct z
          end; try reflexivity);
    exfalso; apply H; simpl; tauto.
Qed.

(** C6: the bytes 0, 50, 80, 100, 110, 120, 125 map to the constants
    122.88, 50.0, 80.0, 100.0, 110.0, 120.0, 125.0 as the C type float
    holds them (50 to 125 exactly; 122.88f is the binary32 number
    16106127 / 2^17, within 2^-18 of 122.88), and every other value maps
    to 0.0; the function has no error path. *)
Theorem frequency_step_table (hz : Z) (Hother : ~ In hz known_steps) :
  map FZmodDigitizerGetFrequencyStepMHz known_steps =
    [float32_lit 12288 2; float32_lit 500 1; float32_lit 800 1;
     float32_lit 1000 1; float32_lit 1100 1; float32_lit 1200 1;
     float32_lit 1250 1] /\
  FZmodDigitizerGetFrequencyStepMHz hz = float32_lit 0 1 /\
  FZmodDigitizerGetFrequencyStepMHz 99 = float32_lit 0 1 /\
  float32_lit 0 1 = S754_zero false /\
  Forall (fun s => float32_is (FZmodDigitizerGetFrequencyStepMHz s) s 1)
         [50; 80; 100; 110; 120; 125] /\
  float32_is (FZmodDigitizerGetFrequencyStepMHz hz) 0 1 /\
  FZmodDigitizerGetFrequencyStepMHz 0 = S754_finite false 16106127 (-17) /\
  float32_within 18 (FZmodDigitizerGetFrequencyStepMHz 0) 12288 100.
Proof.
  split; [vm_compute; reflexivity|].
  split; [now apply step_default|].
  split; [vm_compute; reflexivity|].
  split; [vm_compute; reflexivity|].
  split; [repeat (apply Forall_cons; [vm_compute; reflexivity|]);
          apply Forall_nil|].
  split; [rewrite step_default by assumption; vm_compute; reflexivity|].
  split; [vm_compute; reflexivity|].
  vm_compute. discriminate.
Qed.

Lemma frequency_step_table_witness :
  FZmodDigitizerGetFrequencyStepMHz 200 = float32_lit 0 1.
Proof.
  refine (proj1 (proj2 (frequency_step_table 200 _))).
  simpl. intros H. repeat destruct H as [H|H]; try discriminate H; exact H.
Defined.

(** ** The additive coefficient of the Zmod DAC *)

Lemma int32_of_double_spec y :
  int32_of_double y
  = match double_ratio y with
    | Some (n, d) => integer_part n d
    | None => None
    end.
Proof.
  destruct y as [s|s| |s m e]; try reflexivity.
  unfold int32_of_double, double_ratio, float32_ratio, integer_part.
  destruct (0 <=? e) eqn:E.
  - apply Z.leb_le in E. rewrite Z.shiftl_mul_pow2 by exact E.
    rewrite Z.quot_1_r.
    replace ((if s then Z.neg m else Z.pos m) * 2 ^ e)
      with (if s then - (Z.pos m * 2 ^ e) else Z.pos m * 2 ^ e)
      by (destruct s; [rewrite <- Pos2Z.opp_pos; ring | reflexivity]).
    reflexivity.
  - apply Z.leb_gt in E. rewrite Z.shiftr_div_pow2 by lia.
    assert (Hd : 0 < 2 ^ (- e)) by (apply Z.pow_pos_nonneg; lia).
    replace (Z.quot (if s then Z.neg m else Z.pos m) (2 ^ (- e)))
      with (if s then - (Z.pos m / 2 ^ (- e)) else Z.pos m / 2 ^ (- e)).
    + reflexivity.
    + destruct s.
      * rewrite <- Pos2Z.opp_pos, Z.quot_opp_l by lia.
        now rewrite Z.quot_div_nonneg by lia.
      * now rewrite Z.quot_div_nonneg by lia.
Qed.

Lemma land_low_18 i : Z.land i (Z.shiftl 1 18 - 1) = i mod 2 ^ 18.
Proof. change (Z.shiftl 1 18 - 1) with (Z.ones 18). now apply Z.land_ones. Qed.

Lemma ComputeAddCoefDAC1411_unfold ca cg fHighGain :
  ComputeAddCoefDAC1411 ca cg fHighGain
  = match double_ratio
            (SFadd prec64 emax64
               (double_of_float
                  (claimed_intermediate
                     ca cg (if fHighGain then double_lit 532 2
                            else double_lit 133 2)))
               (double_lit 5 1)) with
    | Some (n, d) =>
        match integer_part n d with
        | Some i => Some (i mod 2 ^ 18)
        | None => None
        end
    | None => None
    end.
Proof.
  unfold ComputeAddCoefDAC1411. cbv zeta.
  change (float_of_uint32 (Z.shiftl 1 17)) with (float32_of_Z (2 ^ 17)).
  change DAC1411_REAL_RANGE_DAC_HIGH with (double_lit 532 2).
  change DAC1411_REAL_RANGE_DAC_LOW with (double_lit 133 2).
  fold (claimed_intermediate ca cg (if fHighGain then double_lit 532 2
                                    else double_lit 133 2)).
  rewrite int32_of_double_spec.
  destruct (double_ratio _) as [[n d]|]; [|reflexivity].
  destruct (integer_part n d) as [i|]; [|reflexivity].
  now rewrite land_low_18.
Qed.

(** With [cg = -1] the denominator is zero whatever the offset. *)
Lemma add_coef_gain_minus_one ca fHighGain :
  ComputeAddCoefDAC1411 ca (float32_of_Z (-1)) fHighGain = None.
Proof.
  unfold ComputeAddCoefDAC1411. cbv zeta.
  replace (SFmul prec64 emax64
             (if fHighGain then DAC1411_REAL_RANGE_DAC_HIGH
              else DAC1411_REAL_RANGE_DAC_LOW)
             (double_of_float
                (SFadd prec32 emax32 (float32_of_Z 1) (float32_of_Z (-1)))))
    with (S754_zero false)
    by (destruct fHighGain; vm_compute; reflexivity).
  destruct (double_of_float
              (SFmul prec32 emax32 (SFopp ca)
                     (float_of_uint32 (Z.shiftl 1 17))))
    as [s|s| |s m e]; reflexivity.
Qed.

(** A NaN in, no result out. *)
Lemma add_coef_nan c fHighGain :
  ComputeAddCoefDAC1411 S754_nan c fHighGain = None /\
  ComputeAddCoefDAC1411 c S754_nan fHighGain = None.
Proof.
  split.
  - reflexivity.
  - unfold ComputeAddCoefDAC1411. cbv zeta.
    replace (SFmul prec64 emax64
               (if fHighGain then DAC1411_REAL_RANGE_DAC_HIGH
                else DAC1411_REAL_RANGE_DAC_LOW)
               (double_of_float
                  (SFadd prec32 emax32 (float32_of_Z 1) S754_nan)))
      with S754_nan
      by (destruct fHighGain; vm_compute; reflexivity).
    destruct (double_of_float
                (SFmul prec32 emax32 (SFopp c)
                       (float_of_uint32 (Z.shiftl 1 17))))
      as [s|s| |s m e]; reflexivity.
Qed.

(** C5, as the code has it.  [ComputeAddCoefDAC1411] forms the float
    intermediate [-ca * 2^17 / (real * (1 + cg))], with [real] the
    [double] nearest to 5.32 for the high gain and to 1.33 for the low
    one, adds the [double] 0.5 and converts to [int32_t].  When that sum
    is finite and its integer part, taken towards zero, fits an
    [int32_t], the function returns the integer part modulo [2^18], a
    value from 0 to [2^18 - 1]; when the sum is an infinity or a NaN, or
    the integer part does not fit, the conversion is undefined and
    there is no result.  There is none for [cg = -1], whatever the
    offset, and none when [ca] or [cg] is a NaN.  For [ca = 0.01f],
    [cg = 0.05f] the results are 0x3FF16 (-234) at high gain and
    0x3FC56 (-938) at low gain, and 235 for [ca = -0.01f] at high gain:
    the quotients -234.64 and 234.64 become -234 and 235.  The
    intermediate is a [float]: for [ca = 9335144 * 2^-33] and
    [cg = 0.05f] the [double] quotient -25.49999993 is rounded to
    -25.5f, and the result is -25, not -24. *)
Theorem add_coef_is_rounded_quotient
        (ca cg : spec_float) (fHighGain : bool) :
  let real := if fHighGain then double_lit 532 2 else double_lit 133 2 in
  let fval := claimed_intermediate ca cg real in
  let y := SFadd prec64 emax64 (double_of_float fval) (double_lit 5 1) in
  let r := ComputeAddCoefDAC1411 ca cg fHighGain in
  (forall n d,
      double_ratio y = Some (n, d) ->
      - 2 ^ 31 <= Z.quot n d < 2 ^ 31 ->
      r = Some (Z.quot n d mod 2 ^ 18)) /\
  (forall n d,
      double_ratio y = Some (n, d) ->
      ~ - 2 ^ 31 <= Z.quot n d < 2 ^ 31 ->
      r = None) /\
  (double_ratio y = None -> r = None) /\
  (forall v, r = Some v -> 0 <= v < 2 ^ 18) /\
  (forall ca', ComputeAddCoefDAC1411 ca' (float32_of_Z (-1)) fHighGain
               = None) /\
  ComputeAddCoefDAC1411 S754_nan cg fHighGain = None /\
  ComputeAddCoefDAC1411 ca S754_nan fHighGain = None /\
  float32_is (float32_of_Z (2 ^ 17)) 131072 1 /\
  float32_is (float32_of_Z 1) 1 1 /\
  double_is (double_lit 5 1) 1 2 /\
  double_within 51 (double_lit 532 2) 532 100 /\
  double_within 53 (double_lit 133 2) 133 100 /\
  ComputeAddCoefDAC1411 (float32_lit 1 2) (float32_lit 5 2) fTrue
  = Some 0x3FF16 /\
  ComputeAddCoefDAC1411 (float32_lit 1 2) (float32_lit 5 2) fFalse
  = Some 0x3FC56 /\
  ComputeAddCoefDAC1411 (SFopp (float32_lit 1 2)) (float32_lit 5 2) fTrue
  = Some 235 /\
  ComputeAddCoefDAC1411 (S754_finite false 9335144 (-33)) (float32_lit 5 2)
                        fTrue
  = Some (-25 mod 2 ^ 18).
Proof.
  cbv zeta. rewrite (ComputeAddCoefDAC1411_unfold ca cg).
  set (y := SFadd prec64 emax64 _ _).
  split; [|split; [|split; [|split; [|split; [|split; [|split]]]]]].
  - intros n d -> Hr. unfold integer_part. cbv zeta.
    replace ((- 2 ^ 31 <=? Z.quot n d) && (Z.quot n d <? 2 ^ 31)) with true;
      [reflexivity|].
    symmetry. apply andb_true_iff. split; [apply Z.leb_le | apply Z.ltb_lt]; lia.
  - intros n d -> Hr. unfold integer_part. cbv zeta.
    destruct ((- 2 ^ 31 <=? Z.quot n d) && (Z.quot n d <? 2 ^ 31)) eqn:E;
      [|reflexivity].
    apply andb_true_iff in E. destruct E as [E1 E2].
    apply Z.leb_le in E1. apply Z.ltb_lt in E2. contradiction Hr. lia.
  - intros ->. reflexivity.
  - intros v. destruct (double_ratio y) as [[n d]|]; [|discriminate].
    destruct (integer_part n d) as [i|]; [|discriminate].
    intros [= <-]. apply Z.mod_pos_bound. reflexivity.
  - intros ca'. apply add_coef_gain_minus_one.
  - apply add_coef_nan.
  - apply add_coef_nan.
  - repeat split; vm_compute; first [reflexivity | discriminate].
Qed.

Lemma add_coef_is_rounded_quotient_witness :
  ComputeAddCoefDAC1411 (float32_lit 1 2) (float32_lit 5 2) fTrue
  = Some (-234 mod 2 ^ 18).
Proof.
  exact (proj1 (add_coef_is_rounded_quotient
                  (float32_lit 1 2) (float32_lit 5 2) fTrue)
               (-8238200929648640) (2 ^ 45) eq_refl
               ltac:(vm_compute; split; [discriminate | reflexivity])).
Defined.

(** C5 as it is written fails: not every [ca] and [cg] has a result.
    With [cg = -1] the denominator is zero, the intermediate is an
    infinity, and the conversion to [int32_t] is undefined; with
    [ca = -100000] and [cg = 0] at low gain the intermediate is finite,
    about 9.86e9, but its integer part does not fit an [int32_t]. *)
Lemma add_coef_is_not_defined_for_every_input :
  let minus_one := float32_of_Z (-1) in
  let zero := S754_zero false in
  SFadd prec32 emax32 (float32_of_Z 1) minus_one = S754_zero false /\
  claimed_intermediate (float32_lit 1 2) minus_one (double_lit 532 2)
  = S754_infinity true /\
  ComputeAddCoefDAC1411 (float32_lit 1 2) minus_one fTrue = None /\
  (exists n d,
      float32_ratio
        (claimed_intermediate (float32_of_Z (-100000)) zero
                              (double_lit 133 2)) = Some (n, d) /\
      0 < d /\ 2 ^ 31 * d <= n) /\
  ComputeAddCoefDAC1411 (float32_of_Z (-100000)) zero fFalse = None.
Proof.
  cbv zeta. split; [vm_compute; reflexivity|].
  split; [vm_compute; reflexivity|]. split; [vm_compute; reflexivity|].
  split; [|vm_compute; reflexivity].
  eexists. eexists. split; [vm_compute; reflexivity|].
  split; vm_compute; first [reflexivity | discriminate].
Qed.

(** ** CRC-16 of the DNA header *)

Lemma crc_update_range crc b : is_WORD (crc_update crc b).
Proof.
  unfold crc_update. cbv zeta.
  change 0xFFFF with (Z.ones 16). rewrite <- to_WORD_land.
  apply to_WORD_range.
Qed.

Lemma to_WORD_shiftl_16 b : to_WORD (Z.shiftl b 16) = 0.
Proof.
  unfold to_WORD. rewrite Z.shiftl_mul_pow2 by lia. apply Z_mod_mult.
Qed.

(** The byte enters the update only through the high half of the
    register: updating with [b] is updating the register [crc ^ (b << 8)]
    with a zero byte. *)
Lemma crc_update_absorb crc b :
  0 <= b -> crc_update crc b = crc_update (Z.lxor crc (Z.shiftl b 8)) 0.
Proof.
  intros Hb. unfold crc_update. cbv zeta.
  rewrite Z.shiftr_lxor, Z.shiftr_shiftl_l, Z.sub_diag, Z.shiftl_0_r by lia.
  rewrite Z.lxor_0_r.
  set (x := to_WORD (Z.lxor _ (Z.shiftr _ 4))).
  f_equal.
  rewrite Z.shiftl_lxor, Z.shiftl_shiftl by lia. simpl (8 + 8).
  rewrite !to_WORD_lxor, to_WORD_shiftl_16, Z.lxor_0_r.
  reflexivity.
Qed.

(** The table-free update of the source is eight steps of the bitwise
    division, checked on every value of the register. *)
Lemma crc_update_zero_is_8_shifts v :
  is_WORD v -> crc_update v 0 = Nat.iter 8 crc16_shift v.
Proof.
  intros Hv. apply Z.eqb_eq.
  apply (forall_word (fun v => crc_update v 0 =? Nat.iter 8 crc16_shift v));
    [vm_compute; reflexivity | exact Hv].
Qed.

Lemma lxor_shiftl_8_WORD crc b :
  is_WORD crc -> is_BYTE b -> is_WORD (Z.lxor crc (Z.shiftl b 8)).
Proof.
  unfold is_WORD, is_BYTE. intros Hc Hb.
  assert (H0 : 0 <= Z.lxor crc (Z.shiftl b 8)).
  { apply Z.lxor_nonneg. rewrite Z.shiftl_nonneg. lia. }
  split; [exact H0|].
  destruct (Z.eq_dec (Z.lxor crc (Z.shiftl b 8)) 0) as [->|Hnz]; [lia|].
  apply Z.log2_lt_pow2; [lia|].
  eapply Z.le_lt_trans; [apply Z.log2_lxor; [lia|]|].
  - apply Z.shiftl_nonneg. lia.
  - apply Z.max_lub_lt.
    + destruct (Z.eq_dec crc 0) as [->|]; [simpl; lia|].
      apply Z.log2_lt_pow2; lia.
    + destruct (Z.eq_dec b 0) as [->|]; [simpl; lia|].
      rewrite Z.log2_shiftl by lia.
      assert (Z.log2 b < 8) by (apply Z.log2_lt_pow2; lia). lia.
Qed.

Lemma crc_update_is_crc16_byte crc b :
  is_WORD crc -> is_BYTE b -> crc_update crc b = crc16_byte crc b.
Proof.
  intros Hc Hb. unfold crc16_byte.
  rewrite crc_update_absorb by (unfold is_BYTE in Hb; lia).
  apply crc_update_zero_is_8_shifts. now apply lxor_shiftl_8_WORD.
Qed.

Lemma crc_loop_is_fold buf :
  forall crc, Z.of_nat (length buf) <= 255 ->
  crc_loop buf (Z.of_nat (length buf)) crc = fold_left crc_update buf crc.
Proof.
  induction buf as [|b rest IH]; intros crc Hlen; [reflexivity|].
  cbn [crc_loop fold_left]. cbn [length] in *.
  replace (0 <? Z.of_nat (S (length rest))) with true
    by (symmetry; apply Z.ltb_lt; lia).
  rewrite to_BYTE_id by (unfold is_BYTE; lia).
  replace (Z.of_nat (S (length rest)) - 1) with (Z.of_nat (length rest)) by lia.
  apply IH. lia.
Qed.

Lemma crc_loop_app l1 l2 :
  forall crc n2, 0 <= n2 -> Z.of_nat (length l1) + n2 <= 255 ->
  crc_loop (l1 ++ l2) (Z.of_nat (length l1) + n2) crc
  = crc_loop l2 n2 (fold_left crc_update l1 crc).
Proof.
  induction l1 as [|b rest IH]; intros crc n2 Hn Hlen; [reflexivity|].
  cbn [app crc_loop fold_left]. cbn [length] in *.
  replace (0 <? Z.of_nat (S (length rest)) + n2) with true
    by (symmetry; apply Z.ltb_lt; lia).
  rewrite to_BYTE_id by (unfold is_BYTE; lia).
  replace (Z.of_nat (S (length rest)) + n2 - 1)
    with (Z.of_nat (length rest) + n2) by lia.
  apply IH; lia.
Qed.

Lemma fold_crc_update_range buf :
  forall crc, is_WORD crc -> is_WORD (fold_left crc_update buf crc).
Proof.
  induction buf as [|b rest IH]; intros crc Hc; [exact Hc|].
  cbn [fold_left]. apply IH, crc_update_range.
Qed.

Lemma fold_crc_update_is_crc16 buf :
  Forall is_BYTE buf ->
  forall crc, is_WORD crc ->
  fold_left crc_update buf crc = fold_left crc16_byte buf crc.
Proof.
  induction 1 as [|b rest Hb _ IH]; intros crc Hc; [reflexivity|].
  cbn [fold_left]. rewrite <- crc_update_is_crc16_byte by assumption.
  apply IH, crc_update_range.
Qed.

(** Feeding a register its own two bytes, high byte first, clears it. *)
Lemma crc_update_own_bytes c :
  is_WORD c ->
  crc_update (crc_update c (Z.shiftr c 8)) (Z.land c 0xFF) = 0.
Proof.
  intros Hc. apply Z.eqb_eq.
  apply (forall_word
           (fun c => crc_update (crc_update c (Z.shiftr c 8)) (Z.land c 0xFF)
                     =? 0));
    [vm_compute; reflexivity | exact Hc].
Qed.

Lemma is_WORD_FFFF : is_WORD 0xFFFF.
Proof. unfold is_WORD. lia. Qed.

Lemma crc_of_buffer_with_own_crc hdr :
  Z.of_nat (length hdr) + 2 <= 255 ->
  SyzygyComputeCRC
    (hdr ++ crc_bytes (SyzygyComputeCRC hdr (Z.of_nat (length hdr))))
    (Z.of_nat (length hdr) + 2) = 0.
Proof.
  intros Hlen. unfold SyzygyComputeCRC.
  rewrite crc_loop_app by lia.
  rewrite (crc_loop_is_fold hdr) by lia.
  set (c := fold_left crc_update hdr 0xFFFF).
  assert (Hc : is_WORD c) by apply fold_crc_update_range, is_WORD_FFFF.
  unfold crc_bytes. cbn [crc_loop]. simpl (0 <? 2).
  change (to_BYTE (2 - 1)) with 1. simpl (0 <? 1).
  now apply crc_update_own_bytes.
Qed.

(** The test of [SyzygyReadDNAHeader]: a header of [cbSyzygyDnaHeader]
    bytes whose last two bytes are the CRC of the 38 before them passes
    [0 != SyzygyComputeCRC(rgbDnaBuf, cbSyzygyDnaHeader)]. *)
Lemma dna_header_crc_is_zero body :
  length body = 38%nat ->
  SyzygyComputeCRC (body ++ crc_bytes (SyzygyComputeCRC body 38))
                   cbSyzygyDnaHeader = 0.
Proof.
  intros Hlen.
  pose proof (crc_of_buffer_with_own_crc body) as H.
  rewrite Hlen in H. apply H. simpl. lia.
Qed.

(** C4: [SyzygyComputeCRC] is the CRC-16 with polynomial 0x1021, initial
    value 0xFFFF and no final XOR: its update of the register by one byte
    is eight steps of the bitwise polynomial division, so it agrees with
    the bitwise definition on every buffer a BYTE count can describe; and
    a buffer followed by the two bytes of its own CRC, high byte first,
    has CRC zero. *)
Theorem syzygy_crc_is_ccitt (hdr : list Z)
        (Hbytes : Forall is_BYTE hdr)
        (Hlen : Z.of_nat (length hdr) + 2 <= 255) :
  crc16_poly = 0x1021 /\
  SyzygyComputeCRC [] 0 = 0xFFFF /\
  (forall crc b, is_WORD crc -> is_BYTE b ->
                 crc_update crc b = crc16_byte crc b) /\
  SyzygyComputeCRC hdr (Z.of_nat (length hdr)) = crc16_ccitt hdr /\
  SyzygyComputeCRC
    (hdr ++ crc_bytes (SyzygyComputeCRC hdr (Z.of_nat (length hdr))))
    (Z.of_nat (length hdr) + 2) = 0 /\
  SyzygyComputeCRC check_input 9 = 0x29B1.
Proof.
  split; [reflexivity|]. split; [reflexivity|].
  split; [exact crc_update_is_crc16_byte|].
  split.
  - unfold SyzygyComputeCRC, crc16_ccitt.
    rewrite crc_loop_is_fold by lia.
    apply fold_crc_update_is_crc16; [exact Hbytes | exact is_WORD_FFFF].
  - split; [now apply crc_of_buffer_with_own_crc | vm_compute; reflexivity].
Qed.

Lemma syzygy_crc_is_ccitt_witness :
  SyzygyComputeCRC check_input 9 = crc16_ccitt check_input /\
  SyzygyComputeCRC (check_input ++ crc_bytes (SyzygyComputeCRC check_input 9))
                   11 = 0.
Proof.
  assert (Hb : Forall is_BYTE check_input)
    by (repeat constructor; unfold is_BYTE; simpl; lia).
  assert (Hl : Z.of_nat (length check_input) + 2 <= 255) by (simpl; lia).
  destruct (syzygy_crc_is_ccitt check_input Hb Hl) as (_ & _ & _ & H1 & H2 & _).
  split; [exact H1 | exact H2].
Defined.

(** ** The fragmentation engine *)

(** *** Ceilings *)

Lemma ceil_div_0 c : 0 < c -> ceil_div 0 c = 0.
Proof. intros H. unfold ceil_div. apply Z.div_small. lia. Qed.

Lemma ceil_div_le a c : 0 < a <= c -> ceil_div a c = 1.
Proof.
  intros H. unfold ceil_div.
  replace (a + c - 1) with ((a - 1) + 1 * c) by lia.
  rewrite Z.div_add by lia. rewrite Z.div_small; lia.
Qed.

Lemma ceil_div_step a c : 0 < c -> ceil_div (a + c) c = ceil_div a c + 1.
Proof.
  intros H. unfold ceil_div.
  replace (a + c + c - 1) with ((a + c - 1) + 1 * c) by lia.
  now rewrite Z.div_add by lia.
Qed.

Lemma ceil_div_pos a c : 0 < c -> 0 < a -> 0 < ceil_div a c.
Proof.
  intros Hc Ha. unfold ceil_div.
  apply Z.div_str_pos. lia.
Qed.

(** *** Traces *)

Lemma bytes_done_cons t tr : bytes_done (t :: tr) = tx_done t + bytes_done tr.
Proof. reflexivity. Qed.

Lemma count_cons t tr : count (t :: tr) = 1 + count tr.
Proof. unfold count. cbn [length]. lia. Qed.

(** *** Staging *)

Lemma stage_data_stores n :
  forall ib pb, map fst (fst (stage_data n ib pb)) = Zseq ib n.
Proof.
  induction n as [|n IH]; intros ib pb; [reflexivity|].
  cbn [stage_data Zseq]. specialize (IH (ib + 1) (tl pb)).
  destruct (stage_data n (ib + 1) (tl pb)) as [st rest].
  cbn [fst map] in *. now rewrite IH.
Qed.

Lemma stage_data_length n :
  forall ib pb, length (fst (stage_data n ib pb)) = n.
Proof.
  intros ib pb. rewrite <- (length_map fst), stage_data_stores.
  clear pb. revert ib. induction n as [|n IH]; intros ib; [reflexivity|].
  cbn [Zseq length]. now rewrite IH.
Qed.

Section WriteStep.

Variables (p : platform) (b : bus) (cbWrite cbDevRxMax : Z).

Let step := write_step p b cbWrite cbDevRxMax.
Let cbTrans := write_cbTrans cbWrite cbDevRxMax.

Lemma write_step_len k addr pb cbSent :
  tx_len (fst (step k addr pb cbSent)) = cbTrans cbSent.
Proof.
  unfold step, write_step.
  destruct (stage_data _ 2 pb) as [data pb'].
  destruct (send_failed _ _ _); reflexivity.
Qed.

Lemma write_step_addr k addr pb cbSent :
  tx_addr (fst (step k addr pb cbSent)) = addr.
Proof.
  unfold step, write_step.
  destruct (stage_data _ 2 pb) as [data pb'].
  destruct (send_failed _ _ _); reflexivity.
Qed.

Lemma write_step_stores k addr pb cbSent :
  tx_stores (fst (step k addr pb cbSent))
  = 0 :: 1 :: Zseq 2 (Z.to_nat (cbTrans cbSent - 2)).
Proof.
  unfold step, write_step.
  pose proof (stage_data_stores (Z.to_nat (cbTrans cbSent - 2)) 2 pb) as H.
  fold cbTrans. destruct (stage_data _ 2 pb) as [data pb'].
  cbn [fst] in H.
  destruct (send_failed _ _ _); cbn [fst tx_stores];
    rewrite map_app, H; reflexivity.
Qed.

Lemma write_step_bytes k addr pb cbSent :
  0 <= cbTrans cbSent ->
  Z.of_nat (length (tx_bytes (fst (step k addr pb cbSent)))) = cbTrans cbSent.
Proof.
  intros Hnn. unfold step, write_step.
  pose proof (stage_data_length (Z.to_nat (cbTrans cbSent - 2)) 2 pb) as H.
  fold cbTrans. destruct (stage_data _ 2 pb) as [data pb'].
  cbn [fst] in H.
  assert (Hl : length (firstn (Z.to_nat (cbTrans cbSent))
                         (map snd (stage_addr addr ++ data)))
               = Z.to_nat (cbTrans cbSent)).
  { apply firstn_length_le.
    rewrite length_map, length_app, H. cbn [stage_addr length]. lia. }
  destruct (send_failed _ _ _); cbn [fst tx_bytes]; rewrite Hl; lia.
Qed.

Lemma write_step_address_bytes k addr pb cbSent :
  2 <= cbTrans cbSent ->
  firstn 2 (tx_bytes (fst (step k addr pb cbSent)))
  = [to_BYTE (Z.shiftr addr 8); to_BYTE (Z.land addr 0xFF)].
Proof.
  intros Hnn. unfold step, write_step. fold cbTrans.
  destruct (stage_data _ 2 pb) as [data pb'].
  assert (Hl : firstn 2 (firstn (Z.to_nat (cbTrans cbSent))
                           (map snd (stage_addr addr ++ data)))
               = [to_BYTE (Z.shiftr addr 8); to_BYTE (Z.land addr 0xFF)]).
  { rewrite firstn_firstn.
    replace (Init.Nat.min 2 (Z.to_nat (cbTrans cbSent))) with 2%nat by lia.
    reflexivity. }
  destruct (send_failed _ _ _); cbn [fst tx_bytes]; exact Hl.
Qed.

(** The outcome of a step is the answer of the bus to the bytes sent. *)
Lemma write_step_ok k addr pb cbSent :
  0 <= cbTrans cbSent ->
  let t := fst (step k addr pb cbSent) in
  tx_ok t = negb (send_failed p (bus_send b k (tx_bytes t))
                              (Z.of_nat (length (tx_bytes t)))) /\
  tx_done t = if tx_ok t then cbTrans cbSent - 2 else 0.
Proof.
  intros Hnn t.
  pose proof (write_step_bytes k addr pb cbSent Hnn) as Hlen.
  subst t. revert Hlen. unfold step, cbTrans, write_step.
  destruct (stage_data _ 2 pb) as [data pb'].
  destruct (send_failed _ _ _) eqn:E; cbn [fst tx_ok tx_done tx_bytes];
    intros Hlen; rewrite Hlen, E; split; reflexivity.
Qed.

End WriteStep.

(** *** The size of a write transaction *)

Section WriteSize.

Variables (cbWrite cbDevRxMax : Z).

Let cbTrans := write_cbTrans cbWrite cbDevRxMax.

Lemma write_cbTrans_BYTE cbSent : is_BYTE (cbTrans cbSent).
Proof.
  unfold cbTrans, write_cbTrans. cbv zeta.
  destruct (_ <? _); apply to_BYTE_range.
Qed.

(** A cap between 0 and 32 bounds every transaction, whatever the
    state of the loop. *)
Lemma write_cbTrans_le_cap cbSent :
  0 <= cbDevRxMax <= 255 -> cbTrans cbSent <= cbDevRxMax.
Proof.
  intros Hcap. unfold cbTrans, write_cbTrans. cbv zeta.
  destruct (_ <? _) eqn:E.
  - unfold_types. zlia.
  - apply Z.ltb_ge in E. exact E.
Qed.

(** While at most 253 bytes remain, the transaction is the two address
    bytes and the remaining data, cut at the cap. *)
Lemma write_cbTrans_regular cbSent :
  2 <= cbDevRxMax -> 0 <= cbWrite - cbSent <= 253 ->
  cbTrans cbSent = Z.min cbDevRxMax (2 + (cbWrite - cbSent)).
Proof.
  intros Hcap Hrem. unfold cbTrans, write_cbTrans. cbv zeta.
  rewrite (to_BYTE_id (2 + _)) by byte_range.
  destruct (_ <? _) eqn:E.
  - apply Z.ltb_lt in E. rewrite to_BYTE_id by byte_range.
    lia.
  - apply Z.ltb_ge in E. lia.
Qed.

(** With 254 or 255 bytes remaining, [2 + (cbWrite - cbSent)] does not
    fit the [BYTE] it is assigned to. *)
Lemma write_cbTrans_wrapped cbSent :
  2 <= cbDevRxMax -> 254 <= cbWrite - cbSent <= 255 ->
  cbTrans cbSent = cbWrite - cbSent - 254.
Proof.
  intros Hcap Hrem. unfold cbTrans, write_cbTrans. cbv zeta.
  assert (H : to_BYTE (2 + (cbWrite - cbSent)) = cbWrite - cbSent - 254)
    by (unfold_types; zlia).
  rewrite H. destruct (_ <? _) eqn:E; [apply Z.ltb_lt in E; lia | reflexivity].
Qed.

End WriteSize.

(** *** Loops that have nothing left to do *)

Lemma write_loop_done p b cbWrite cap fuel k addr pb cbSent :
  cbWrite <= cbSent ->
  write_loop p b cbWrite cap fuel k addr pb cbSent = (Some fTrue, cbSent, []).
Proof.
  intros H. destruct fuel; cbn [write_loop];
    (replace (cbSent <? cbWrite) with false by (symmetry; apply Z.ltb_ge; lia));
    reflexivity.
Qed.

Lemma read_loop_done p b cbRead fuel k addr cbRecv :
  cbRead <= cbRecv ->
  read_loop p b cbRead fuel k addr cbRecv = (Some fTrue, cbRecv, []).
Proof.
  intros H. destruct fuel; cbn [read_loop];
    (replace (cbRecv <? cbRead) with false by (symmetry; apply Z.ltb_ge; lia));
    reflexivity.
Qed.

(** *** Properties of every transaction of a run

    A property [P] of transactions holds along a whole run when each step
    taken from a state satisfying [I] has it and leads to such a state. *)
Lemma write_loop_Forall p b cbWrite cap (I : Z -> Prop) (P : txn -> Prop) :
  (forall k addr pb cbSent,
      I cbSent -> cbSent < cbWrite ->
      let t := fst (write_step p b cbWrite cap k addr pb cbSent) in
      P t /\ (tx_ok t = true -> I (to_BYTE (cbSent + tx_done t)))) ->
  forall fuel k addr pb cbSent,
    I cbSent ->
    Forall P (snd (write_loop p b cbWrite cap fuel k addr pb cbSent)).
Proof.
  intros Hstep fuel.
  induction fuel as [|fuel IH]; intros k addr pb cbSent HI; cbn [write_loop].
  - destruct (cbSent <? cbWrite); constructor.
  - destruct (cbSent <? cbWrite) eqn:E; [|constructor].
    apply Z.ltb_lt in E.
    specialize (Hstep k addr pb cbSent HI E). cbv zeta in Hstep.
    destruct (write_step p b cbWrite cap k addr pb cbSent) as [t pb'].
    cbn [fst] in Hstep. destruct Hstep as [HP Hnext].
    destruct (tx_ok t).
    + specialize (IH (S k) (to_WORD (addr + tx_done t)) pb'
                     (to_BYTE (cbSent + tx_done t)) (Hnext eq_refl)).
      destruct (write_loop p b cbWrite cap fuel _ _ _ _) as [[ret cb'] tr].
      cbn [snd] in *. now constructor.
    + cbn [snd]. now repeat constructor.
Qed.

Lemma write_step_stores_Zseq p b cbWrite cap k addr pb cbSent :
  2 <= write_cbTrans cbWrite cap cbSent ->
  tx_stores (fst (write_step p b cbWrite cap k addr pb cbSent))
  = Zseq 0 (Z.to_nat (write_cbTrans cbWrite cap cbSent)).
Proof.
  intros H. rewrite write_step_stores.
  replace (Z.to_nat (write_cbTrans cbWrite cap cbSent))
    with (S (S (Z.to_nat (write_cbTrans cbWrite cap cbSent - 2)))) by lia.
  reflexivity.
Qed.

(** With a cap of at most 32 no store leaves [rgbSnd]. *)
Lemma write_step_in_bounds p b cbWrite cap k addr pb cbSent :
  0 <= cap <= 32 ->
  in_bounds cbSndWrite (fst (write_step p b cbWrite cap k addr pb cbSent)).
Proof.
  intros Hcap. unfold in_bounds. rewrite write_step_stores.
  pose proof (write_cbTrans_le_cap cbWrite cap cbSent ltac:(lia)) as Hle.
  pose proof (write_cbTrans_BYTE cbWrite cap cbSent) as [H0 _].
  unfold cbSndWrite.
  constructor; [lia|]. constructor; [lia|].
  apply Forall_forall. intros i Hi. apply In_Zseq in Hi. lia.
Qed.

Lemma write_loop_in_bounds p b cbWrite cap fuel k addr pb cbSent :
  0 <= cap <= 32 ->
  Forall (fun t => in_bounds cbSndWrite t /\ 0 <= tx_len t <= cbSndWrite)
         (snd (write_loop p b cbWrite cap fuel k addr pb cbSent)).
Proof.
  intros Hcap.
  apply (write_loop_Forall p b cbWrite cap (fun _ => True)); [|exact I].
  intros k' addr' pb' cbSent' _ _. cbv zeta. split; [|trivial].
  split; [now apply write_step_in_bounds|].
  rewrite write_step_len.
  pose proof (write_cbTrans_le_cap cbWrite cap cbSent' ltac:(lia)).
  pose proof (write_cbTrans_BYTE cbWrite cap cbSent') as [H0 _].
  unfold cbSndWrite. lia.
Qed.

(** *** Writes on a bus that does all it is asked *)

Section WriteFull.

Variables (p : platform) (b : bus) (cbWrite cap : Z).
Hypothesis Hfull : full p b.
Hypothesis Hcap : 3 <= cap.
Hypothesis HcbWrite : cbWrite <= 253.

Lemma full_send_ok k bytes :
  send_failed p (bus_send b k bytes) (Z.of_nat (length bytes)) = false.
Proof.
  destruct Hfull as (_ & Hs & _). specialize (Hs k bytes).
  unfold send_failed, all_done in *.
  destruct p; rewrite Hs; now rewrite Z.eqb_refl.
Qed.

Lemma write_loop_full fuel :
  forall k addr pb cbSent,
    0 <= cbSent <= cbWrite ->
    ceil_div (cbWrite - cbSent) (cap - 2) <= Z.of_nat fuel ->
    exists tr,
      write_loop p b cbWrite cap fuel k addr pb cbSent
      = (Some fTrue, cbWrite, tr) /\
      count tr = ceil_div (cbWrite - cbSent) (cap - 2) /\
      bytes_done tr = cbWrite - cbSent /\
      Forall (fun t => tx_ok t = true) tr.
Proof.
  induction fuel as [|fuel IH]; intros k addr pb cbSent Hinv Hfuel.
  - (* no fuel: nothing may remain *)
    assert (cbSent = cbWrite) as ->.
    { destruct (Z.eq_dec cbSent cbWrite) as [|Hne]; [assumption|].
      pose proof (ceil_div_pos (cbWrite - cbSent) (cap - 2)). lia. }
    rewrite write_loop_done by lia. exists []. rewrite Z.sub_diag.
    rewrite ceil_div_0 by lia. repeat split. constructor.
  - destruct (Z.eq_dec cbSent cbWrite) as [->|Hne].
    { rewrite write_loop_done by lia. exists []. rewrite Z.sub_diag.
      rewrite ceil_div_0 by lia. repeat split. constructor. }
    cbn [write_loop].
    replace (cbSent <? cbWrite) with true by (symmetry; apply Z.ltb_lt; lia).
    pose proof (write_cbTrans_regular cbWrite cap cbSent
                  ltac:(lia) ltac:(lia)) as Hsize.
    pose proof (write_step_ok p b cbWrite cap k addr pb cbSent
                  ltac:(lia)) as Hok.
    cbv zeta in Hok.
    destruct (write_step p b cbWrite cap k addr pb cbSent) as [t pb'].
    cbn [fst] in Hok. destruct Hok as [Hok Hdone].
    rewrite full_send_ok in Hok. cbn [negb] in Hok.
    rewrite Hok in Hdone |- *. rewrite Hdone, Hsize.
    set (d := Z.min cap (2 + (cbWrite - cbSent)) - 2).
    assert (Hd : 0 < d <= cbWrite - cbSent) by (unfold d; lia).
    rewrite (to_BYTE_id (cbSent + d)) by byte_range.
    assert (Hceil : ceil_div (cbWrite - cbSent) (cap - 2)
                    = 1 + ceil_div (cbWrite - (cbSent + d)) (cap - 2)).
    { destruct (Z_le_gt_dec (cbWrite - cbSent) (cap - 2)) as [Hle|Hgt].
      - replace (cbWrite - (cbSent + d)) with 0 by (unfold d; lia).
        rewrite ceil_div_0, ceil_div_le by lia. reflexivity.
      - replace (cbWrite - cbSent)
          with ((cbWrite - (cbSent + d)) + (cap - 2)) at 1 by (unfold d; lia).
        rewrite ceil_div_step by lia. lia. }
    destruct (IH (S k) (to_WORD (addr + d)) pb' (cbSent + d)
                 ltac:(lia) ltac:(lia))
      as (tr & Hrun & Hcount & Hsum & Hall).
    rewrite Hrun. exists (t :: tr).
    split; [reflexivity|]. split; [rewrite count_cons; lia|].
    split; [rewrite bytes_done_cons, Hdone, Hsize; fold d; lia|].
    now constructor.
Qed.

End WriteFull.

(** *** Writes on any bus: failure at a given transaction *)

Lemma counted_report pcb ret cb tr n :
  cb = n ->
  counted pcb {| res_ret := Some ret; res_pcb := report pcb cb;
                 res_trace := tr |} n.
Proof. intros ->. destruct pcb; reflexivity. Qed.

Section WriteAbort.

Variables (p : platform) (b : bus) (cbWrite cap : Z).
Hypothesis Hcap : 2 <= cap <= 32.
Hypothesis HcbWrite : cbWrite <= 255.

Lemma write_loop_abort d :
  forall k fuel addr pb cbSent,
    0 <= cbSent <= cbWrite ->
    (forall j, (k <= j < k + d)%nat -> write_ok_at p b j) ->
    write_bad_at p b (k + d) ->
    (d < fuel)%nat ->
    let '(ret, cb, tr) := write_loop p b cbWrite cap fuel k addr pb cbSent in
    (ret = Some fTrue /\ (length tr <= d)%nat /\
     Forall (fun t => tx_ok t = true) tr /\
     (cbWrite <= 253 ->
      cbWrite - cbSent <= (cap - 2) * Z.of_nat (length tr))) \/
    (ret = Some fFalse /\
     exists good bad,
       tr = good ++ [bad] /\ length good = d /\
       (forall j t,
           nth_error good j = Some t ->
           tx_ok t = true /\
           tx_len t
           = Z.min cap
                   (2 + (cbWrite - (cbSent + bytes_done (firstn j good)))) /\
           Z.of_nat (length (tx_bytes t)) = tx_len t /\
           tx_done t = tx_len t - 2 /\
           in_bounds cbSndWrite t) /\
       tx_ok bad = false /\ tx_done bad = 0 /\
       cb = cbSent + bytes_done good /\
       (cbWrite <= 253 -> (cap - 2) * Z.of_nat d < cbWrite - cbSent ->
        bytes_done good = (cap - 2) * Z.of_nat d)).
Proof.
  induction d as [|d IH]; intros k fuel addr pb cbSent Hinv Hgood Hbad Hfuel.
  - (* the next transaction is the failing one *)
    destruct (Z_le_gt_dec cbWrite cbSent) as [Hdone|Hmore].
    { rewrite write_loop_done by lia. left. cbn [length Z.of_nat].
      split; [reflexivity|]. split; [lia|]. split; [constructor|lia]. }
    destruct fuel as [|fuel]; [lia|]. cbn [write_loop].
    replace (cbSent <? cbWrite) with true by (symmetry; apply Z.ltb_lt; lia).
    pose proof (write_cbTrans_BYTE cbWrite cap cbSent) as [Hnn _].
    pose proof (write_step_ok p b cbWrite cap k addr pb cbSent Hnn) as Hok.
    cbv zeta in Hok.
    destruct (write_step p b cbWrite cap k addr pb cbSent) as [t pb'].
    cbn [fst] in Hok. destruct Hok as [Hok Hdone].
    rewrite Nat.add_0_r in Hbad. rewrite (Hbad (tx_bytes t)) in Hok.
    cbn [negb] in Hok. rewrite Hok in Hdone |- *.
    right. split; [reflexivity|]. exists [], t.
    split; [reflexivity|]. split; [reflexivity|].
    split; [intros [|j] t' Hj; discriminate Hj|].
    split; [assumption|]. split; [assumption|].
    split; [cbn; lia|]. intros _ _. cbn. lia.
  - destruct (Z_le_gt_dec cbWrite cbSent) as [Hdone|Hmore].
    { rewrite write_loop_done by lia. left. cbn [length Z.of_nat].
      split; [reflexivity|]. split; [lia|]. split; [constructor|lia]. }
    destruct fuel as [|fuel]; [lia|]. cbn [write_loop].
    replace (cbSent <? cbWrite) with true by (symmetry; apply Z.ltb_lt; lia).
    pose proof (write_cbTrans_BYTE cbWrite cap cbSent) as [Hnn _].
    pose proof (write_step_ok p b cbWrite cap k addr pb cbSent Hnn) as Hok.
    pose proof (write_step_len p b cbWrite cap k addr pb cbSent) as Hlen.
    pose proof (write_step_bytes p b cbWrite cap k addr pb cbSent Hnn)
      as Hbytes.
    pose proof (write_step_in_bounds p b cbWrite cap k addr pb cbSent
                  ltac:(lia)) as Hin.
    cbv zeta in Hok.
    destruct (write_step p b cbWrite cap k addr pb cbSent) as [t pb'].
    cbn [fst] in Hok, Hlen, Hbytes, Hin. destruct Hok as [Hok Hdone].
    rewrite (Hgood k ltac:(lia) (tx_bytes t)) in Hok.
    cbn [negb] in Hok. rewrite Hok in Hdone |- *.
    destruct (Z_le_gt_dec (cbWrite - cbSent) 253) as [Hreg|Hwrap].
    + (* the transaction carries part of what remains *)
      pose proof (write_cbTrans_regular cbWrite cap cbSent
                    ltac:(lia) ltac:(lia)) as Hsize.
      assert (Hd : 0 <= tx_done t <= cbWrite - cbSent) by lia.
      assert (Hd' : tx_done t <= cap - 2) by lia.
      rewrite (to_BYTE_id (cbSent + tx_done t)) by byte_range.
      specialize (IH (S k) fuel (to_WORD (addr + tx_done t)) pb'
                     (cbSent + tx_done t) ltac:(lia)).
      destruct (write_loop p b cbWrite cap fuel _ _ _ _) as [[ret cb] tr].
      destruct IH as [(Hret & Hlen' & Hall & Hleft) | (Hret & good & bad & IH)].
      * intros j Hj. apply Hgood. lia.
      * now rewrite Nat.add_succ_comm.
      * lia.
      * left. split; [assumption|]. split; [cbn [length]; lia|].
        split; [now constructor|].
        intros H253. specialize (Hleft H253).
        cbn [length]. rewrite Nat2Z.inj_succ, Z.mul_succ_r. lia.
      * destruct IH as (Htr & Hlen' & Hall & Hb1 & Hb2 & Hcb & Hclosed).
        right. split; [assumption|]. exists (t :: good), bad.
        split; [now rewrite Htr|]. split; [cbn [length]; lia|].
        split; [|split; [assumption|split; [assumption|split]]].
        -- intros [|j] t' Hj.
           ++ cbn [nth_error] in Hj. injection Hj as <-.
              cbn [firstn bytes_done fold_right]. rewrite Z.add_0_r.
              split; [assumption|]. split; [lia|].
              split; [lia|]. split; [lia|assumption].
           ++ cbn [nth_error] in Hj. specialize (Hall j t' Hj).
              cbn [firstn]. rewrite bytes_done_cons.
              replace (cbSent + (tx_done t + bytes_done (firstn j good)))
                with (cbSent + tx_done t + bytes_done (firstn j good)) by lia.
              exact Hall.
        -- rewrite bytes_done_cons. lia.
        -- intros H253 Hrem. rewrite bytes_done_cons.
           assert (Hfull : tx_done t = cap - 2) by nia.
           rewrite Hclosed; [lia|assumption|nia].
    + (* the size wrapped: the count jumps to cbWrite and the loop ends *)
      pose proof (write_cbTrans_wrapped cbWrite cap cbSent
                    ltac:(lia) ltac:(lia)) as Hsize.
      assert (Hjump : to_BYTE (cbSent + tx_done t) = cbWrite).
      { rewrite Hdone, Hsize. unfold_types. zlia. }
      rewrite Hjump, write_loop_done by lia.
      left. split; [reflexivity|]. split; [cbn [length]; lia|].
      split; [now repeat constructor | lia].
Qed.

End WriteAbort.

(** *** Reads *)

Lemma read_cbTrans_min cbRead cbRecv :
  read_cbTrans cbRead cbRecv = Z.min 32 (cbRead - cbRecv).
Proof.
  unfold read_cbTrans. cbv zeta.
  destruct (_ <? _) eqn:E; [apply Z.ltb_lt in E | apply Z.ltb_ge in E]; lia.
Qed.

Section ReadStep.

Variables (p : platform) (b : bus) (cbRead : Z).

Lemma read_step_full k addr cbRecv :
  full p b -> cbRecv < cbRead ->
  let t := read_step p b cbRead k addr cbRecv in
  tx_ok t = true /\ tx_done t = Z.min 32 (cbRead - cbRecv).
Proof.
  intros (_ & Hs & Hr) Hlt. cbv zeta. unfold read_step. cbv zeta.
  specialize (Hs k (map snd (stage_addr addr))).
  specialize (Hr k (read_cbTrans cbRead cbRecv)).
  rewrite read_cbTrans_min in *.
  unfold addr_failed, recv_failed, recv_credit, all_done in *.
  destruct p; rewrite Hs, Hr; cbn [stage_addr map length Z.of_nat];
    try (replace (Z.min 32 (cbRead - cbRecv) <=? 0) with false
          by (symmetry; apply Z.leb_gt; lia));
    cbn; split; reflexivity.
Qed.

Lemma read_step_good k addr cbRecv :
  read_ok_at p b k -> cbRecv < cbRead ->
  let t := read_step p b cbRead k addr cbRecv in
  tx_ok t = true /\ 0 < tx_done t <= Z.min 32 (cbRead - cbRecv).
Proof.
  intros (Hs & Hr) Hlt. cbv zeta. unfold read_step. cbv zeta.
  rewrite Hs by reflexivity. rewrite read_cbTrans_min.
  destruct (Hr (Z.min 32 (cbRead - cbRecv)) ltac:(lia)) as [Hr1 Hr2].
  rewrite Hr1. cbn [tx_ok tx_done]. split; [reflexivity|].
  unfold recv_failed, recv_credit in *.
  destruct p; try lia.
  specialize (Hr2 eq_refl). apply Z.leb_gt in Hr1. lia.
Qed.

Lemma read_step_bad k addr cbRecv :
  read_bad_at p b k ->
  let t := read_step p b cbRead k addr cbRecv in
  tx_ok t = false /\ tx_done t = 0.
Proof.
  intros [Hs | Hr]; cbv zeta; unfold read_step; cbv zeta.
  - rewrite Hs. split; reflexivity.
  - rewrite Hr. destruct (addr_failed _ _); split; reflexivity.
Qed.

Lemma read_step_shape k addr cbRecv :
  let t := read_step p b cbRead k addr cbRecv in
  tx_addr t = addr /\ tx_len t = read_cbTrans cbRead cbRecv /\
  tx_stores t = [0; 1] /\
  tx_bytes t = [to_BYTE (Z.shiftr addr 8); to_BYTE (Z.land addr 0xFF)].
Proof.
  cbv zeta. unfold read_step. cbv zeta.
  destruct (addr_failed _ _); [|destruct (recv_failed _ _)];
    repeat split; reflexivity.
Qed.

End ReadStep.

Section ReadFull.

Variables (p : platform) (b : bus) (cbRead : Z).
Hypothesis Hfull : full p b.
Hypothesis HcbRead : cbRead <= 255.

Lemma read_loop_full fuel :
  forall k addr cbRecv,
    0 <= cbRecv <= cbRead ->
    ceil_div (cbRead - cbRecv) 32 <= Z.of_nat fuel ->
    exists tr,
      read_loop p b cbRead fuel k addr cbRecv = (Some fTrue, cbRead, tr) /\
      count tr = ceil_div (cbRead - cbRecv) 32 /\
      bytes_done tr = cbRead - cbRecv /\
      Forall (fun t => tx_ok t = true /\ tx_len t <= 32) tr.
Proof.
  induction fuel as [|fuel IH]; intros k addr cbRecv Hinv Hfuel.
  - assert (cbRecv = cbRead) as ->.
    { destruct (Z.eq_dec cbRecv cbRead) as [|Hne]; [assumption|].
      pose proof (ceil_div_pos (cbRead - cbRecv) 32). lia. }
    rewrite read_loop_done by lia. exists []. rewrite Z.sub_diag.
    rewrite ceil_div_0 by lia. repeat split. constructor.
  - destruct (Z.eq_dec cbRecv cbRead) as [->|Hne].
    { rewrite read_loop_done by lia. exists []. rewrite Z.sub_diag.
      rewrite ceil_div_0 by lia. repeat split. constructor. }
    cbn [read_loop].
    replace (cbRecv <? cbRead) with true by (symmetry; apply Z.ltb_lt; lia).
    pose proof (read_step_full p b cbRead k addr cbRecv Hfull ltac:(lia))
      as Hok.
    pose proof (read_step_shape p b cbRead k addr cbRecv) as Hshape.
    cbv zeta in Hok, Hshape.
    set (t := read_step p b cbRead k addr cbRecv) in *.
    destruct Hok as [Hok Hdone]. destruct Hshape as (_ & Hlen & _).
    rewrite Hok, Hdone.
    set (d := Z.min 32 (cbRead - cbRecv)) in *.
    assert (Hd : 0 < d <= cbRead - cbRecv) by (unfold d; lia).
    rewrite (to_BYTE_id (cbRecv + d)) by byte_range.
    assert (Hceil : ceil_div (cbRead - cbRecv) 32
                    = 1 + ceil_div (cbRead - (cbRecv + d)) 32).
    { destruct (Z_le_gt_dec (cbRead - cbRecv) 32) as [Hle|Hgt].
      - replace (cbRead - (cbRecv + d)) with 0 by (unfold d; lia).
        rewrite ceil_div_0, ceil_div_le by lia. reflexivity.
      - replace (cbRead - cbRecv)
          with ((cbRead - (cbRecv + d)) + 32) at 1 by (unfold d; lia).
        rewrite ceil_div_step by lia. lia. }
    destruct (IH (S k) (to_WORD (addr + d)) (cbRecv + d)
                 ltac:(lia) ltac:(lia))
      as (tr & Hrun & Hcount & Hsum & Hall).
    rewrite Hrun. exists (t :: tr).
    split; [reflexivity|]. split; [rewrite count_cons; lia|].
    split; [rewrite bytes_done_cons, Hdone; fold d; lia|].
    constructor; [|assumption].
    split; [assumption|]. rewrite Hlen, read_cbTrans_min. lia.
Qed.

End ReadFull.

Section ReadStepCredit.

Variables (p : platform) (b : bus) (cbRead : Z).

(** What a successful read transaction is counted with. *)
Lemma read_step_credit k addr cbRecv :
  read_ok_at p b k -> cbRecv < cbRead ->
  let t := read_step p b cbRead k addr cbRecv in
  tx_done t = match p with
              | Linux => bus_recv b k (tx_len t)
              | Zynq | MicroBlaze => tx_len t
              end.
Proof.
  intros (Hs & Hr) Hlt. cbv zeta. unfold read_step. cbv zeta.
  rewrite Hs by reflexivity. rewrite read_cbTrans_min.
  destruct (Hr (Z.min 32 (cbRead - cbRecv)) ltac:(lia)) as [Hr1 _].
  rewrite Hr1. cbn [tx_done tx_len]. unfold recv_credit.
  destruct p; reflexivity.
Qed.

End ReadStepCredit.

Section ReadAbort.

Variables (p : platform) (b : bus) (cbRead : Z).
Hypothesis HcbRead : cbRead <= 255.

Lemma read_loop_abort d :
  forall k fuel addr cbRecv,
    0 <= cbRecv <= cbRead ->
    (forall j, (k <= j < k + d)%nat -> read_ok_at p b j) ->
    read_bad_at p b (k + d) ->
    (d < fuel)%nat ->
    let '(ret, cb, tr) := read_loop p b cbRead fuel k addr cbRecv in
    (ret = Some fTrue /\ (length tr <= d)%nat /\
     Forall (fun t => tx_ok t = true) tr /\
     cbRead - cbRecv <= 32 * Z.of_nat (length tr)) \/
    (ret = Some fFalse /\
     exists good bad,
       tr = good ++ [bad] /\ length good = d /\
       (forall j t,
           nth_error good j = Some t ->
           tx_ok t = true /\
           tx_len t
           = Z.min 32 (cbRead - (cbRecv + bytes_done (firstn j good))) /\
           0 < tx_done t <= tx_len t /\
           tx_done t = match p with
                       | Linux => bus_recv b (k + j) (tx_len t)
                       | Zynq | MicroBlaze => tx_len t
                       end) /\
       tx_ok bad = false /\ tx_done bad = 0 /\
       cb = cbRecv + bytes_done good /\
       (p <> Linux -> 32 * Z.of_nat d < cbRead - cbRecv ->
        bytes_done good = 32 * Z.of_nat d)).
Proof.
  induction d as [|d IH]; intros k fuel addr cbRecv Hinv Hgood Hbad Hfuel.
  - destruct (Z_le_gt_dec cbRead cbRecv) as [Hdone|Hmore].
    { rewrite read_loop_done by lia. left. cbn [length Z.of_nat].
      split; [reflexivity|]. split; [lia|]. split; [constructor|lia]. }
    destruct fuel as [|fuel]; [lia|]. cbn [read_loop].
    replace (cbRecv <? cbRead) with true by (symmetry; apply Z.ltb_lt; lia).
    rewrite Nat.add_0_r in Hbad.
    destruct (read_step_bad p b cbRead k addr cbRecv Hbad) as [Hok Hdone].
    rewrite Hok. right. split; [reflexivity|].
    exists [], (read_step p b cbRead k addr cbRecv).
    split; [reflexivity|]. split; [reflexivity|].
    split; [intros [|j] t Hj; discriminate Hj|].
    split; [assumption|]. split; [assumption|].
    split; [cbn; lia|]. intros _ _. reflexivity.
  - destruct (Z_le_gt_dec cbRead cbRecv) as [Hdone|Hmore].
    { rewrite read_loop_done by lia. left. cbn [length Z.of_nat].
      split; [reflexivity|]. split; [lia|]. split; [constructor|lia]. }
    destruct fuel as [|fuel]; [lia|]. cbn [read_loop].
    replace (cbRecv <? cbRead) with true by (symmetry; apply Z.ltb_lt; lia).
    destruct (read_step_good p b cbRead k addr cbRecv
                (Hgood k ltac:(lia)) ltac:(lia)) as [Hok Hdone].
    pose proof (read_step_credit p b cbRead k addr cbRecv
                  (Hgood k ltac:(lia)) ltac:(lia)) as Hcredit.
    destruct (read_step_shape p b cbRead k addr cbRecv) as (_ & Hlen & _).
    cbv zeta in Hcredit. rewrite read_cbTrans_min in Hlen.
    set (t := read_step p b cbRead k addr cbRecv) in *.
    rewrite Hok.
    rewrite (to_BYTE_id (cbRecv + tx_done t)) by byte_range.
    specialize (IH (S k) fuel (to_WORD (addr + tx_done t))
                   (cbRecv + tx_done t) ltac:(lia)).
    destruct (read_loop p b cbRead fuel _ _ _) as [[ret cb] tr].
    destruct IH as [(Hret & Hlen' & Hall & Hleft) | (Hret & good & bad & IH)].
    + intros j Hj. apply Hgood. lia.
    + now rewrite Nat.add_succ_comm.
    + lia.
    + left. split; [assumption|]. split; [cbn [length]; lia|].
      split; [now constructor|]. cbn [length]. lia.
    + destruct IH as (Htr & Hlen' & Hall & Hb1 & Hb2 & Hcb & Hclosed).
      right. split; [assumption|]. exists (t :: good), bad.
      split; [now rewrite Htr|]. split; [cbn [length]; lia|].
      split; [|split; [assumption|split; [assumption|split]]].
      * intros [|j] t' Hj.
        -- cbn [nth_error] in Hj. injection Hj as <-.
           cbn [firstn bytes_done fold_right]. rewrite Nat.add_0_r, Z.add_0_r.
           split; [assumption|]. split; [assumption|].
           split; [lia|assumption].
        -- cbn [nth_error] in Hj. specialize (Hall j t' Hj).
           cbn [firstn]. rewrite bytes_done_cons.
           replace (k + S j)%nat with (S k + j)%nat by lia.
           replace (cbRecv + (tx_done t + bytes_done (firstn j good)))
             with (cbRecv + tx_done t + bytes_done (firstn j good)) by lia.
           exact Hall.
      * rewrite bytes_done_cons. lia.
      * intros Hp Hrem. rewrite bytes_done_cons.
        assert (Hfull : tx_done t = 32).
        { rewrite Hcredit. destruct p; [contradiction Hp; reflexivity|lia|lia]. }
        rewrite Hclosed; [lia|assumption|lia].
Qed.

End ReadAbort.

(** *** The frame of a write transaction *)

Section WriteFrame.

Variables (p : platform) (b : bus) (cbWrite cap : Z).
Hypothesis Hcap : 3 <= cap.
Hypothesis HcbWrite : cbWrite <= 253.

Lemma write_step_framed k addr pb cbSent :
  0 <= cbSent < cbWrite ->
  let t := fst (write_step p b cbWrite cap k addr pb cbSent) in
  framed cap t /\
  (tx_ok t = true ->
   tx_done t = Z.min (cap - 2) (cbWrite - cbSent)).
Proof.
  intros Hinv. cbv zeta.
  pose proof (write_cbTrans_regular cbWrite cap cbSent
                ltac:(lia) ltac:(lia)) as Hsize.
  pose proof (write_step_ok p b cbWrite cap k addr pb cbSent ltac:(lia))
    as [_ Hdone].
  pose proof (write_step_bytes p b cbWrite cap k addr pb cbSent ltac:(lia))
    as Hbytes.
  pose proof (write_step_address_bytes p b cbWrite cap k addr pb cbSent
                ltac:(lia)) as Haddr.
  pose proof (write_step_len p b cbWrite cap k addr pb cbSent) as Hlen.
  pose proof (write_step_addr p b cbWrite cap k addr pb cbSent) as Ha.
  set (t := fst (write_step p b cbWrite cap k addr pb cbSent)) in *.
  unfold framed. rewrite Ha, Hlen, Hbytes, Haddr.
  split.
  - repeat split; try lia; destruct (tx_ok t); lia.
  - intros Hok. rewrite Hok in Hdone. lia.
Qed.

Lemma write_loop_framed fuel k addr pb cbSent :
  0 <= cbSent <= cbWrite ->
  Forall (framed cap)
         (snd (write_loop p b cbWrite cap fuel k addr pb cbSent)).
Proof.
  intros Hinv.
  apply (write_loop_Forall p b cbWrite cap
           (fun cbSent => 0 <= cbSent <= cbWrite)); [|exact Hinv].
  intros k' addr' pb' cbSent' Hinv' Hlt. cbv zeta.
  destruct (write_step_framed k' addr' pb' cbSent' ltac:(lia))
    as [Hframed Hdone].
  split; [exact Hframed|].
  intros Hok. rewrite (Hdone Hok).
  rewrite to_BYTE_id by byte_range. lia.
Qed.

(** Every successful transaction moves at least one byte, so the loop
    returns within [cbWrite - cbSent] iterations whatever the bus
    does. *)
Lemma write_loop_returns fuel :
  forall k addr pb cbSent,
    0 <= cbSent <= cbWrite ->
    cbWrite - cbSent <= Z.of_nat fuel ->
    fst (fst (write_loop p b cbWrite cap fuel k addr pb cbSent)) <> None.
Proof.
  induction fuel as [|fuel IH]; intros k addr pb cbSent Hinv Hfuel.
  - rewrite write_loop_done by lia. discriminate.
  - destruct (Z_le_gt_dec cbWrite cbSent) as [Hdone|Hmore].
    { rewrite write_loop_done by lia. discriminate. }
    cbn [write_loop].
    replace (cbSent <? cbWrite) with true by (symmetry; apply Z.ltb_lt; lia).
    pose proof (write_step_framed k addr pb cbSent ltac:(lia)) as Hstep.
    cbv zeta in Hstep.
    destruct (write_step p b cbWrite cap k addr pb cbSent) as [t pb'].
    cbn [fst] in Hstep. destruct Hstep as [_ Hdone].
    destruct (tx_ok t); [|discriminate].
    rewrite (Hdone eq_refl).
    rewrite to_BYTE_id by byte_range.
    specialize (IH (S k)
                   (to_WORD (addr + Z.min (cap - 2) (cbWrite - cbSent))) pb'
                   (cbSent + Z.min (cap - 2) (cbWrite - cbSent))
                   ltac:(lia) ltac:(lia)).
    destruct (write_loop p b cbWrite cap fuel _ _ _ _) as [[ret cb] tr].
    exact IH.
Qed.

End WriteFrame.

(** *** From the loops to the calls *)

Lemma I2CHALRead_unfold p b cbRead fuel slaveAddr addr pcb uWait :
  select_failed p b = false ->
  I2CHALRead p b fuel slaveAddr addr cbRead pcb uWait
  = let '(ret, cbRecv, tr) := read_loop p b cbRead fuel 0 addr 0 in
    {| res_ret := ret;
       res_pcb := match ret with
                  | Some _ => report pcb cbRecv
                  | None => pcb
                  end;
       res_trace := tr |}.
Proof. intros H. unfold I2CHALRead. now rewrite H. Qed.

Lemma I2CHALWrite_unfold p b cbWrite cap fuel slaveAddr addr pb pcb uWait :
  select_failed p b = false ->
  I2CHALWrite p b fuel slaveAddr addr pb cbWrite cap pcb uWait
  = let '(ret, cbSent, tr) := write_loop p b cbWrite cap fuel 0 addr pb 0 in
    {| res_ret := ret;
       res_pcb := match ret with
                  | Some _ => report pcb cbSent
                  | None => pcb
                  end;
       res_trace := tr |}.
Proof. intros H. unfold I2CHALWrite. now rewrite H. Qed.

Lemma I2CHALWrite_trace p b cbWrite cap fuel slaveAddr addr pb pcb uWait :
  res_trace (I2CHALWrite p b fuel slaveAddr addr pb cbWrite cap pcb uWait)
  = if select_failed p b then []
    else snd (write_loop p b cbWrite cap fuel 0 addr pb 0).
Proof.
  unfold I2CHALWrite. destruct (select_failed p b); [reflexivity|].
  destruct (write_loop p b cbWrite cap fuel 0 addr pb 0) as [[ret cb] tr].
  reflexivity.
Qed.

Lemma I2CHALWrite_ret p b cbWrite cap fuel slaveAddr addr pb pcb uWait :
  res_ret (I2CHALWrite p b fuel slaveAddr addr pb cbWrite cap pcb uWait)
  = if select_failed p b then Some fFalse
    else fst (fst (write_loop p b cbWrite cap fuel 0 addr pb 0)).
Proof.
  unfold I2CHALWrite. destruct (select_failed p b); [reflexivity|].
  destruct (write_loop p b cbWrite cap fuel 0 addr pb 0) as [[ret cb] tr].
  reflexivity.
Qed.

Lemma ideal_full p : full p (Buses.ideal p).
Proof.
  unfold full, all_done, select_failed. cbn.
  repeat split; intros; destruct p; reflexivity.
Qed.

(** *** What the primitives return, and what the code makes of it *)

Lemma selected_select p b : selected p b -> select_failed p b = false.
Proof.
  unfold selected, select_failed. destruct p; intros H; try reflexivity.
  apply Z.ltb_ge. now apply H.
Qed.

Lemma read_succeeds_ok p b k : read_succeeds_at p b k -> read_ok_at p b k.
Proof.
  intros [Hs Hr]. split.
  - intros bytes Hlen. specialize (Hs bytes Hlen).
    unfold accepted, addr_failed, XST_SUCCESS in *.
    destruct p; rewrite Hs; reflexivity.
  - intros n Hn. destruct (Hr n Hn) as [H1 H2]. split; [|exact H2].
    unfold received, recv_failed, XST_SUCCESS in *.
    destruct p; try (apply Z.leb_gt; exact H1). now rewrite H1.
Qed.

Lemma read_fails_bad p b k : read_fails_at p b k -> read_bad_at p b k.
Proof.
  intros [Hs | Hr]; [left | right].
  - intros bytes. specialize (Hs bytes).
    unfold accepted, addr_failed, XST_SUCCESS in *.
    destruct p; apply negb_true_iff, Z.eqb_neq; exact Hs.
  - intros n. specialize (Hr n).
    unfold received, recv_failed, XST_SUCCESS in *.
    destruct p; try (apply Z.leb_le; lia).
    apply negb_true_iff, Z.eqb_neq. exact Hr.
Qed.

Lemma write_succeeds_ok p b k : write_succeeds_at p b k -> write_ok_at p b k.
Proof.
  intros H bytes. specialize (H bytes).
  unfold accepted, send_failed, XST_SUCCESS in *.
  destruct p; rewrite H; apply negb_false_iff, Z.eqb_refl.
Qed.

Lemma write_fails_bad p b k : write_fails_at p b k -> write_bad_at p b k.
Proof.
  intros H bytes. specialize (H bytes).
  unfold accepted, send_failed, XST_SUCCESS in *.
  destruct p; apply negb_true_iff, Z.eqb_neq; exact H.
Qed.

(** ** Fragmentation, failure and staging *)

(** C1, as the code has it.  On a bus where the slave is selected and
    every primitive moves all it is asked, [I2CHALRead] of [cbRead] bytes
    issues [ceil(cbRead / 32)] transactions; [I2CHALWrite] of up to 253
    bytes with a cap [cbDevRxMax] between 3 and 32, which counts the two
    address bytes of a transaction and keeps every store inside
    [rgbSnd], issues [ceil(cbWrite / (cbDevRxMax - 2))]
    transactions.  Both return fTrue, the bytes of the transactions add
    up to the length asked for, and that length is stored through the
    output-count pointer unless it is NULL.  A length of zero issues no
    transaction and returns fTrue with a count of zero. *)
Theorem fragmentation_counts
        (p : platform) (b : bus) (slaveAddr addr : Z) (pb : list Z)
        (pcb : option Z) (uWait : Z)
        (cbRead cbWrite cbDevRxMax : Z) (fuelR fuelW : nat)
        (Hfull : full p b)
        (HcbRead : is_BYTE cbRead)
        (HcbWrite : 0 <= cbWrite <= 253)
        (Hcap : 3 <= cbDevRxMax <= 32)
        (HfuelR : ceil_div cbRead 32 <= Z.of_nat fuelR)
        (HfuelW : ceil_div cbWrite (cbDevRxMax - 2) <= Z.of_nat fuelW) :
  let r := I2CHALRead p b fuelR slaveAddr addr cbRead pcb uWait in
  let w := I2CHALWrite p b fuelW slaveAddr addr pb cbWrite cbDevRxMax pcb
                       uWait in
  (res_ret r = Some fTrue /\
   count (res_trace r) = ceil_div cbRead 32 /\
   bytes_done (res_trace r) = cbRead /\
   res_pcb r = report pcb cbRead /\
   Forall (fun t => tx_ok t = true /\ tx_len t <= 32) (res_trace r)) /\
  (res_ret w = Some fTrue /\
   count (res_trace w) = ceil_div cbWrite (cbDevRxMax - 2) /\
   bytes_done (res_trace w) = cbWrite /\
   res_pcb w = report pcb cbWrite /\
   Forall (fun t => tx_ok t = true /\ in_bounds cbSndWrite t)
          (res_trace w)) /\
  (forall fuel,
      I2CHALRead p b fuel slaveAddr addr 0 pcb uWait
      = {| res_ret := Some fTrue; res_pcb := report pcb 0;
           res_trace := [] |}) /\
  (forall fuel,
      I2CHALWrite p b fuel slaveAddr addr pb 0 cbDevRxMax pcb uWait
      = {| res_ret := Some fTrue; res_pcb := report pcb 0;
           res_trace := [] |}) /\
  (forall cb, report None cb = None) /\
  (forall old cb, report (Some old) cb = Some cb).
Proof.
  cbv zeta. pose proof Hfull as (Hsel & _).
  split; [|split; [|split; [|split]]].
  - rewrite I2CHALRead_unfold by assumption.
    destruct (read_loop_full p b cbRead Hfull ltac:(unfold_types; lia)
                             fuelR 0%nat addr 0
                             ltac:(unfold_types; lia)
                             ltac:(now rewrite Z.sub_0_r))
      as (tr & Hrun & Hcount & Hsum & Hall).
    rewrite Z.sub_0_r in *. rewrite Hrun. cbn.
    repeat split; assumption.
  - pose proof (write_loop_in_bounds p b cbWrite cbDevRxMax fuelW 0 addr pb 0
                  ltac:(lia)) as Hin.
    rewrite I2CHALWrite_unfold by assumption.
    destruct (write_loop_full p b cbWrite cbDevRxMax Hfull (proj1 Hcap)
                              ltac:(lia) fuelW 0%nat addr pb 0 ltac:(lia)
                              ltac:(now rewrite Z.sub_0_r))
      as (tr & Hrun & Hcount & Hsum & Hall).
    rewrite Hrun in Hin. cbn [snd] in Hin.
    rewrite Z.sub_0_r in *. rewrite Hrun. cbn.
    split; [reflexivity|]. split; [assumption|]. split; [assumption|].
    split; [reflexivity|].
    apply Forall_forall. intros t Ht. rewrite Forall_forall in Hall, Hin.
    split; [now apply Hall | now apply (Hin t Ht)].
  - intros fuel. rewrite I2CHALRead_unfold by assumption.
    now rewrite read_loop_done by lia.
  - intros fuel. rewrite I2CHALWrite_unfold by assumption.
    now rewrite write_loop_done by lia.
  - split; reflexivity.
Qed.

Lemma fragmentation_counts_witness :
  let r := I2CHALRead Linux (Buses.ideal Linux) 4 0x30 0x8000 100 (Some 0) 0 in
  let w := I2CHALWrite Linux (Buses.ideal Linux) 25 0x30 0x8000
                       (Buses.ramp 100) 100 6 (Some 0) 0 in
  (count (res_trace r) = 4 /\ res_pcb r = Some 100) /\
  (count (res_trace w) = 25 /\ res_pcb w = Some 100).
Proof.
  assert (Hfull : full Linux (Buses.ideal Linux))
    by (repeat split; intros; reflexivity).
  destruct (fragmentation_counts
              Linux (Buses.ideal Linux) 0x30 0x8000 (Buses.ramp 100)
              (Some 0) 0 100 100 6 4 25
              Hfull
              ltac:(unfold is_BYTE; simpl; lia) ltac:(lia) ltac:(lia)
              ltac:(vm_compute; discriminate)
              ltac:(vm_compute; discriminate))
    as ((_ & Hr1 & _ & Hr2 & _) & (_ & Hw1 & _ & Hw2 & _) & _).
  split; split; assumption.
Defined.

(** For instance: 100 bytes are read in transactions of 32, 32, 32 and 4
    bytes from consecutive addresses. *)
Example read_100_bytes :
  map (fun t => (tx_addr t, tx_bytes t, tx_len t))
      (res_trace (I2CHALRead Linux (Buses.ideal Linux) 4 0x30 0x8000 100
                             None 0))
  = [(0x8000, [0x80; 0x00], 32); (0x8020, [0x80; 0x20], 32);
     (0x8040, [0x80; 0x40], 32); (0x8060, [0x80; 0x60], 4)].
Proof. vm_compute. reflexivity. Qed.

(** C1 as it is written fails on writes: with the caller-supplied cap
    [C = 6], six bytes go out in two transactions (of four and two bytes
    of data), not in [ceil(6 / 6) = 1]; and 254 bytes go out in a single
    transaction that carries nothing, which is neither [ceil(254 / 6)]
    nor [ceil(254 / 4)], while the count reported is 254. *)
Lemma write_count_is_not_ceil_L_over_C :
  let w := I2CHALWrite Linux (Buses.ideal Linux) 10 0x60 0x0010
                       (Buses.ramp 6) 6 6 (Some 0) 0 in
  let w' := I2CHALWrite Linux (Buses.ideal Linux) 100 0x60 0x0010
                        (Buses.ramp 254) 254 6 (Some 0) 0 in
  full Linux (Buses.ideal Linux) /\
  (res_ret w = Some fTrue /\ count (res_trace w) = 2 /\ ceil_div 6 6 = 1 /\
   count (res_trace w) <> ceil_div 6 6 /\
   map tx_done (res_trace w) = [4; 2]) /\
  (res_ret w' = Some fTrue /\ count (res_trace w') = 1 /\
   ceil_div 254 6 = 43 /\ ceil_div 254 (6 - 2) = 64 /\
   map tx_bytes (res_trace w') = [[]] /\
   bytes_done (res_trace w') <> 254 /\
   res_pcb w' = Some 254).
Proof.
  cbv zeta. split; [apply ideal_full|].
  split; repeat split; try (vm_compute; reflexivity); vm_compute; discriminate.
Qed.



(** For instance: on Linux too the read stops at its third transaction
    with 64 bytes counted, the write with 8. *)
Example abort_counts :
  res_pcb (I2CHALRead Linux (Buses.dead_at Linux 2) 8 0x30 0x8000 100
                      (Some 0) 0) = Some 64 /\
  res_pcb (I2CHALWrite Linux (Buses.nack_at Linux 2) 8 0x30 0x8000
                       (Buses.ramp 10) 10 6 (Some 0) 0) = Some 8.
Proof. split; vm_compute; reflexivity. Qed.

(** C2, as the code has it.  [cbPmcuRxMax] is 6 and bounds the whole
    transaction: a write to the Platform MCU of up to 253 bytes puts at
    most 6 bytes on the bus per transaction, the 2 address bytes and at
    most 4 bytes of data, and it returns whatever the bus does. *)
Theorem pmcu_write_frame
        (p : platform) (b : bus) (fuel : nat) (addrWrite : Z)
        (pbWrite : list Z) (cbWrite : Z) (pcbWritten : option Z)
        (HcbWrite : 0 <= cbWrite <= 253) :
  let r := PlatformMCU.PmcuI2cWrite p b fuel addrWrite pbWrite cbWrite
                                    pcbWritten in
  PlatformMCU.cbPmcuRxMax = 6 /\
  Forall (framed 6) (res_trace r) /\
  Forall (fun t => 1 <= tx_len t - 2 <= 4 /\ tx_done t <= 4) (res_trace r) /\
  (cbWrite <= Z.of_nat fuel -> res_ret r <> None).
Proof.
  cbv zeta. unfold PlatformMCU.PmcuI2cWrite.
  rewrite to_BYTE_id by byte_range.
  assert (Hframed : Forall (framed 6)
            (res_trace (I2CHALWrite p b fuel PlatformMCU.addrPlatformMcuI2c
                          addrWrite pbWrite cbWrite PlatformMCU.cbPmcuRxMax
                          pcbWritten 0))).
  { rewrite I2CHALWrite_trace. destruct (select_failed p b); [constructor|].
    apply write_loop_framed; unfold PlatformMCU.cbPmcuRxMax; lia. }
  split; [reflexivity|]. split; [exact Hframed|]. split.
  - eapply Forall_impl; [|exact Hframed].
    intros t (Hlen & _ & _ & Hdone). lia.
  - intros Hfuel. rewrite I2CHALWrite_ret.
    destruct (select_failed p b); [discriminate|].
    apply write_loop_returns; unfold PlatformMCU.cbPmcuRxMax; lia.
Qed.

Lemma pmcu_write_frame_witness :
  Forall (framed 6)
         (res_trace (PlatformMCU.PmcuI2cWrite Linux (Buses.ideal Linux) 10
                       0x0010 (Buses.ramp 6) 6 None)).
Proof.
  exact (proj1 (proj2 (pmcu_write_frame Linux (Buses.ideal Linux) 10 0x0010
                         (Buses.ramp 6) 6 None ltac:(lia)))).
Defined.

(** C2 as it is written fails: no transaction to the Platform MCU carries
    6 bytes of data after its address (a write of 6 bytes is split into
    transactions of 4 and 2 bytes of data, 6 and 4 bytes on the bus), and
    a write of 255 bytes is a single transaction of one byte, which does
    not even hold the 2 address bytes. *)
Lemma pmcu_write_is_not_six_after_two :
  let w := PlatformMCU.PmcuI2cWrite Linux (Buses.ideal Linux) 10 0x1234
                                    (Buses.ramp 6) 6 (Some 0) in
  let w' := PlatformMCU.PmcuI2cWrite Linux (Buses.ideal Linux) 10 0x1234
                                     (Buses.ramp 255) 255 (Some 0) in
  (res_ret w = Some fTrue /\ count (res_trace w) = 2 /\
   map tx_bytes (res_trace w)
   = [[0x12; 0x34; 1; 2; 3; 4]; [0x12; 0x38; 5; 6]]) /\
  (res_ret w' = Some fTrue /\ res_pcb w' = Some 255 /\
   map tx_bytes (res_trace w') = [[0x12]] /\
   ~ Forall (fun t => (2 <= length (tx_bytes t))%nat) (res_trace w')).
Proof.
  cbv zeta. split; [repeat split; vm_compute; reflexivity|].
  split; [vm_compute; reflexivity|]. split; [vm_compute; reflexivity|].
  split; [vm_compute; reflexivity|].
  intros H. inversion H as [|t tr Hlen _ Heq]. subst. vm_compute in Hlen. lia.
Qed.

(** *** The staging buffer *)

Lemma not_in_bounds_of_In size t i :
  In i (tx_stores t) -> size <= i -> ~ in_bounds size t.
Proof.
  intros Hin Hle Hb. unfold in_bounds in Hb.
  rewrite Forall_forall in Hb. specialize (Hb i Hin). lia.
Qed.

(** With the cap of 34 and between 32 and 253 bytes remaining, a step
    stores to indices 0 to 33. *)
Lemma syzygy_step_stores_34 p b cbWrite k addr pb cbSent :
  32 <= cbWrite - cbSent <= 253 ->
  tx_stores
    (fst (write_step p b cbWrite SyzygyI2c.cbPmcuRxMax k addr pb cbSent))
  = Zseq 0 34.
Proof.
  intros Hrem.
  pose proof (write_cbTrans_regular cbWrite SyzygyI2c.cbPmcuRxMax cbSent
                ltac:(unfold SyzygyI2c.cbPmcuRxMax; lia) ltac:(lia)) as Hsize.
  unfold SyzygyI2c.cbPmcuRxMax in *.
  rewrite write_step_stores_Zseq by lia.
  rewrite Hsize. now replace (Z.min 34 (2 + (cbWrite - cbSent))) with 34 by lia.
Qed.

(** With exactly 31 bytes remaining it stores to indices 0 to 32. *)
Lemma syzygy_step_stores_33 p b cbWrite k addr pb cbSent :
  cbWrite - cbSent = 31 ->
  tx_stores
    (fst (write_step p b cbWrite SyzygyI2c.cbPmcuRxMax k addr pb cbSent))
  = Zseq 0 33.
Proof.
  intros Hrem.
  pose proof (write_cbTrans_regular cbWrite SyzygyI2c.cbPmcuRxMax cbSent
                ltac:(unfold SyzygyI2c.cbPmcuRxMax; lia) ltac:(lia)) as Hsize.
  unfold SyzygyI2c.cbPmcuRxMax in *.
  rewrite write_step_stores_Zseq by lia.
  rewrite Hsize. now replace (Z.min 34 (2 + (cbWrite - cbSent))) with 33 by lia.
Qed.




(** *** Lengths of 256 and more

    What the wrappers of [syzygy.c] do with a 16-bit length on a bus that
    does all it is asked: the callee sees the length modulo 256, moves
    that many bytes and reports them, for reads and for writes whose
    reduced length is at most 30, which the cap of 34 lets through in
    one transaction inside [rgbSnd]. *)
Lemma syzygy_length_is_reduced
      (p : platform) (b : bus) (addrI2cSlave addr : Z) (pb : list Z)
      (pcb : option Z) (cbRead cbWrite : Z) (fuel : nat) :
  full p b ->
  to_BYTE cbWrite <= 30 ->
  (8 <= fuel)%nat ->
  let r := SyzygyI2c.SyzygyI2cRead p b fuel addrI2cSlave addr cbRead pcb in
  let w := SyzygyI2c.SyzygyI2cWrite p b fuel addrI2cSlave addr pb cbWrite
                                    pcb in
  (res_ret r = Some fTrue /\ bytes_done (res_trace r) = cbRead mod 256 /\
   res_pcb r = report pcb (cbRead mod 256)) /\
  (res_ret w = Some fTrue /\ bytes_done (res_trace w) = cbWrite mod 256 /\
   res_pcb w = report pcb (cbWrite mod 256)) /\
  (256 <= cbRead -> bytes_done (res_trace r) < cbRead) /\
  (256 <= cbWrite -> bytes_done (res_trace w) < cbWrite).
Proof.
  intros Hfull Hres Hfuel. cbv zeta.
  pose proof Hfull as (Hsel & _).
  pose proof (to_BYTE_range cbRead) as HR.
  pose proof (to_BYTE_range cbWrite) as HW.
  unfold SyzygyI2c.SyzygyI2cRead, SyzygyI2c.SyzygyI2cWrite.
  rewrite I2CHALRead_unfold, I2CHALWrite_unfold by assumption.
  change (cbRead mod 256) with (to_BYTE cbRead).
  change (cbWrite mod 256) with (to_BYTE cbWrite).
  destruct (read_loop_full p b (to_BYTE cbRead) Hfull
              ltac:(unfold_types; lia) fuel 0%nat addr 0
              ltac:(unfold_types; lia))
    as (tr & Hrun & _ & Hsum & _).
  { rewrite Z.sub_0_r. unfold ceil_div. unfold_types. zlia. }
  destruct (write_loop_full p b (to_BYTE cbWrite) SyzygyI2c.cbPmcuRxMax Hfull
              ltac:(unfold SyzygyI2c.cbPmcuRxMax; lia) ltac:(lia)
              fuel 0%nat addr pb 0 ltac:(unfold_types; lia))
    as (tw & Hrunw & _ & Hsumw & _).
  { rewrite Z.sub_0_r. unfold ceil_div, SyzygyI2c.cbPmcuRxMax.
    unfold_types. zlia. }
  rewrite Hrun, Hrunw. cbn [res_ret res_pcb res_trace].
  rewrite Z.sub_0_r in Hsum, Hsumw.
  repeat split; try assumption; intros; unfold_types; lia.
Qed.

(** C8: [SyzygyI2cWrite] of 510 bytes on a bus that takes everything.  The
    length narrows to 254, [2 + 254] narrows to 0, and the only
    transaction sends nothing; the call returns fTrue with a count of
    254. *)
Theorem syzygy_write_510_sends_nothing :
  let r := SyzygyI2c.SyzygyI2cWrite Linux (Buses.ideal Linux) 8 0x30 0x8000
                                    (Buses.ramp 510) 510 (Some 0) in
  to_BYTE 510 = 254 /\
  write_cbTrans 254 SyzygyI2c.cbPmcuRxMax 0 = 0 /\
  res_ret r = Some fTrue /\
  res_pcb r = Some 254 /\
  map tx_bytes (res_trace r) = [[]] /\
  map tx_done (res_trace r) = [-2].
Proof. cbv zeta. repeat split; vm_compute; reflexivity. Qed.
(* ================================================================= *)
(** * Part III: further properties of the code *)
(* ================================================================= *)

(** ** The fragmentation engine on any bus *)

(** *** The address of each transaction *)

Lemma to_WORD_add_l a d : to_WORD (to_WORD a + d) = to_WORD (a + d).
Proof. unfold to_WORD. now rewrite Zplus_mod_idemp_l. Qed.

Lemma chained_addresses tr :
  forall addr, is_WORD addr -> chained addr tr -> addresses_follow addr tr.
Proof.
  induction tr as [|t tr IH]; intros addr Hw Hc i u Hi.
  - destruct i; discriminate Hi.
  - destruct Hc as [Ha Hc]. destruct i as [|i]; cbn in Hi.
    + injection Hi as <-. cbn. rewrite Z.add_0_r, to_WORD_id; assumption.
    + cbn [firstn]. rewrite bytes_done_cons.
      rewrite (IH _ (to_WORD_range _) Hc i u Hi).
      rewrite to_WORD_add_l. f_equal. lia.
Qed.

Lemma read_loop_chained p b cbRead fuel :
  forall k addr cbRecv,
    chained addr (snd (read_loop p b cbRead fuel k addr cbRecv)).
Proof.
  induction fuel as [|fuel IH]; intros k addr cbRecv; cbn [read_loop].
  - destruct (cbRecv <? cbRead); exact I.
  - destruct (cbRecv <? cbRead); [|exact I].
    pose proof (read_step_shape p b cbRead k addr cbRecv) as Hs.
    cbv zeta in Hs. destruct Hs as (Ha & _).
    set (t := read_step p b cbRead k addr cbRecv) in *.
    destruct (tx_ok t).
    + specialize (IH (S k) (to_WORD (addr + tx_done t))
                     (to_BYTE (cbRecv + tx_done t))).
      destruct (read_loop p b cbRead fuel _ _ _) as [[ret cb] tr].
      cbn [snd] in *. split; assumption.
    + cbn. split; [assumption|exact I].
Qed.

Lemma write_loop_chained p b cbWrite cap fuel :
  forall k addr pb cbSent,
    chained addr (snd (write_loop p b cbWrite cap fuel k addr pb cbSent)).
Proof.
  induction fuel as [|fuel IH]; intros k addr pb cbSent; cbn [write_loop].
  - destruct (cbSent <? cbWrite); exact I.
  - destruct (cbSent <? cbWrite); [|exact I].
    pose proof (write_step_addr p b cbWrite cap k addr pb cbSent) as Ha.
    destruct (write_step p b cbWrite cap k addr pb cbSent) as [t pb'].
    cbn [fst] in Ha.
    destruct (tx_ok t).
    + specialize (IH (S k) (to_WORD (addr + tx_done t)) pb'
                     (to_BYTE (cbSent + tx_done t))).
      destruct (write_loop p b cbWrite cap fuel _ _ _ _) as [[ret cb] tr].
      cbn [snd] in *. split; assumption.
    + cbn. split; [assumption|exact I].
Qed.

Lemma I2CHALRead_trace p b cbRead fuel slaveAddr addr pcb uWait :
  res_trace (I2CHALRead p b fuel slaveAddr addr cbRead pcb uWait)
  = if select_failed p b then []
    else snd (read_loop p b cbRead fuel 0 addr 0).
Proof.
  unfold I2CHALRead. destruct (select_failed p b); [reflexivity|].
  destruct (read_loop p b cbRead fuel 0 addr 0) as [[ret cb] tr].
  reflexivity.
Qed.

(** *** Reads: progress and the count *)

(** reads: every step makes progress within what remains *)
Lemma read_step_progress p b cbRead k addr cbRecv :
  (p = Linux -> forall k n, 0 < n -> bus_recv b k n <= n) ->
  cbRecv < cbRead ->
  let t := read_step p b cbRead k addr cbRecv in
  tx_ok t = true -> 0 < tx_done t <= Z.min 32 (cbRead - cbRecv).
Proof.
  intros Hposix Hlt. cbv zeta. unfold read_step. cbv zeta.
  rewrite read_cbTrans_min.
  destruct (addr_failed _ _); [discriminate|].
  destruct (recv_failed _ _) eqn:E; [discriminate|].
  cbn [tx_ok tx_done]. intros _.
  unfold recv_failed, recv_credit in *.
  destruct p; try lia.
  apply Z.leb_gt in E.
  specialize (Hposix eq_refl k (Z.min 32 (cbRead - cbRecv)) ltac:(lia)).
  lia.
Qed.

Lemma read_step_failed p b cbRead k addr cbRecv :
  let t := read_step p b cbRead k addr cbRecv in
  tx_ok t = false -> tx_done t = 0.
Proof.
  cbv zeta. unfold read_step. cbv zeta.
  destruct (addr_failed _ _); [reflexivity|].
  destruct (recv_failed _ _); [reflexivity|discriminate].
Qed.

Section ReadAny.

Variables (p : platform) (b : bus) (cbRead : Z).
Hypothesis Hposix : p = Linux -> forall k n, 0 < n -> bus_recv b k n <= n.
Hypothesis HcbRead : cbRead <= 255.

Lemma read_loop_any fuel :
  forall k addr cbRecv,
    0 <= cbRecv <= cbRead ->
    cbRead - cbRecv <= Z.of_nat fuel ->
    exists ret tr,
      read_loop p b cbRead fuel k addr cbRecv
      = (Some ret, cbRecv + bytes_done tr, tr) /\
      cbRecv + bytes_done tr <= cbRead /\
      (ret = fTrue <-> cbRecv + bytes_done tr = cbRead) /\
      (ret = fTrue <-> Forall (fun t => tx_ok t = true) tr) /\
      count tr <= cbRead - cbRecv /\
      Forall (fun t => 0 < tx_len t <= 32 /\ 0 <= tx_done t <= tx_len t) tr.
Proof.
  induction fuel as [|fuel IH]; intros k addr cbRecv Hinv Hfuel.
  - rewrite read_loop_done by lia. exists fTrue, [].
    cbn. rewrite Z.add_0_r. repeat split; try lia; constructor.
  - destruct (Z_le_gt_dec cbRead cbRecv) as [Hdone|Hmore].
    { rewrite read_loop_done by lia. exists fTrue, [].
      cbn. rewrite Z.add_0_r. repeat split; try lia; constructor. }
    cbn [read_loop].
    replace (cbRecv <? cbRead) with true by (symmetry; apply Z.ltb_lt; lia).
    pose proof (read_step_progress p b cbRead k addr cbRecv Hposix
                  ltac:(lia)) as Hprog.
    pose proof (read_step_failed p b cbRead k addr cbRecv) as Hfail.
    pose proof (read_step_shape p b cbRead k addr cbRecv) as Hshape.
    cbv zeta in Hprog, Hfail, Hshape. destruct Hshape as (_ & Hlen & _).
    rewrite read_cbTrans_min in Hlen.
    set (t := read_step p b cbRead k addr cbRecv) in *.
    destruct (tx_ok t) eqn:Hok.
    + specialize (Hprog eq_refl).
      rewrite (to_BYTE_id (cbRecv + tx_done t)) by byte_range.
      destruct (IH (S k) (to_WORD (addr + tx_done t)) (cbRecv + tx_done t)
                   ltac:(lia) ltac:(lia))
        as (ret & tr & Hrun & Hle & Hiff & Hall & Hcount & Hshape).
      rewrite Hrun. exists ret, (t :: tr).
      rewrite bytes_done_cons, count_cons.
      split; [f_equal; f_equal; lia|].
      split; [lia|]. split; [rewrite Hiff; lia|].
      split; [rewrite Hall; split; intros H;
              [now constructor | now inversion H]|].
      split; [lia|]. constructor; [lia|assumption].
    + specialize (Hfail eq_refl). exists fFalse, [t].
      rewrite bytes_done_cons, count_cons. cbn [bytes_done fold_right count length Z.of_nat].
      rewrite Hfail.
      split; [f_equal; f_equal; lia|].
      split; [lia|].
      split; [split; [discriminate|lia]|].
      split; [split; [discriminate|]|].
      * intros H. inversion H; subst. congruence.
      * split; [lia|]. repeat constructor; lia.
Qed.

End ReadAny.

(** *** Writes: the data on the bus *)

Lemma stage_data_values n :
  forall ib pb,
    (n <= length pb)%nat ->
    map snd (fst (stage_data n ib pb)) = firstn n pb /\
    snd (stage_data n ib pb) = skipn n pb.
Proof.
  induction n as [|n IH]; intros ib pb Hlen; [split; reflexivity|].
  destruct pb as [|x pb]; [cbn in Hlen; lia|].
  cbn [stage_data tl hd]. cbn [length] in Hlen.
  destruct (IH (ib + 1) pb ltac:(lia)) as [H1 H2].
  destruct (stage_data n (ib + 1) pb) as [st rest].
  cbn [fst snd map firstn skipn] in *. now rewrite H1, H2.
Qed.

Lemma firstn_plus {A} (n m : nat) (l : list A) :
  firstn (n + m) l = firstn n l ++ firstn m (skipn n l).
Proof.
  revert l. induction n as [|n IH]; intros l; [reflexivity|].
  destruct l as [|x l]; [now rewrite !firstn_nil|].
  cbn. now rewrite IH.
Qed.

Section WriteData.

Variables (p : platform) (b : bus) (cbWrite cap : Z).
Hypothesis Hcap : 3 <= cap.
Hypothesis HcbWrite : cbWrite <= 253.

Lemma write_step_payload k addr pb cbSent :
  0 <= cbSent < cbWrite ->
  cbWrite - cbSent <= Z.of_nat (length pb) ->
  let d := Z.min (cap - 2) (cbWrite - cbSent) in
  let '(t, pb') := write_step p b cbWrite cap k addr pb cbSent in
  payload t = firstn (Z.to_nat d) pb /\
  pb' = skipn (Z.to_nat d) pb /\
  tx_done t = (if tx_ok t then d else 0).
Proof.
  intros Hinv Hlen. cbv zeta.
  pose proof (write_cbTrans_regular cbWrite cap cbSent
                ltac:(lia) ltac:(lia)) as Hsize.
  unfold write_step. rewrite Hsize.
  set (d := Z.min (cap - 2) (cbWrite - cbSent)).
  replace (Z.min cap (2 + (cbWrite - cbSent)) - 2) with d by (unfold d; lia).
  replace (Z.min cap (2 + (cbWrite - cbSent))) with (2 + d) by (unfold d; lia).
  destruct (stage_data_values (Z.to_nat d) 2 pb ltac:(unfold d; lia))
    as [Hv Hr].
  pose proof (stage_data_length (Z.to_nat d) 2 pb) as Hl.
  destruct (stage_data (Z.to_nat d) 2 pb) as [data pb'].
  cbn [fst snd] in Hv, Hr, Hl.
  assert (Hsent : skipn 2 (firstn (Z.to_nat (2 + d))
                             (map snd (stage_addr addr ++ data)))
                  = firstn (Z.to_nat d) pb).
  { rewrite map_app, Hv. cbn [stage_addr map app].
    replace (Z.to_nat (2 + d)) with (S (S (Z.to_nat d))) by (unfold d; lia).
    cbn [firstn skipn]. apply firstn_all2. rewrite length_firstn. lia. }
  destruct (send_failed _ _ _); unfold payload; cbn [tx_bytes tx_ok tx_done];
    (split; [exact Hsent|]); (split; [exact Hr|]); unfold d; lia.
Qed.

Lemma write_loop_delivered fuel :
  forall k addr pb cbSent,
    0 <= cbSent <= cbWrite ->
    cbWrite - cbSent <= Z.of_nat (length pb) ->
    let '(ret, cb, tr) := write_loop p b cbWrite cap fuel k addr pb cbSent in
    delivered tr = firstn (Z.to_nat (bytes_done tr)) pb /\
    0 <= bytes_done tr /\
    cb = cbSent + bytes_done tr /\ cb <= cbWrite /\
    (ret = Some fTrue <-> cb = cbWrite) /\
    (ret = Some fTrue -> Forall (fun t => tx_ok t = true) tr) /\
    Forall (fun t => 0 < Z.of_nat (length (payload t)) <= cap - 2) tr.
Proof.
  induction fuel as [|fuel IH]; intros k addr pb cbSent Hinv Hlen.
  - cbn [write_loop]. destruct (cbSent <? cbWrite) eqn:E.
    + apply Z.ltb_lt in E. cbn.
      repeat split; try lia; try discriminate; constructor.
    + apply Z.ltb_ge in E. cbn.
      repeat split; try lia; constructor.
  - cbn [write_loop]. destruct (cbSent <? cbWrite) eqn:E.
    2:{ apply Z.ltb_ge in E. cbn. repeat split; try lia; constructor. }
    apply Z.ltb_lt in E.
    pose proof (write_step_payload k addr pb cbSent ltac:(lia) Hlen) as Hstep.
    cbv zeta in Hstep.
    destruct (write_step p b cbWrite cap k addr pb cbSent) as [t pb'].
    destruct Hstep as (Hpay & Hpb & Hdone).
    set (d := Z.min (cap - 2) (cbWrite - cbSent)) in *.
    assert (Hd : 0 < d <= cbWrite - cbSent) by (unfold d; lia).
    assert (Hd' : d <= cap - 2) by (unfold d; lia).
    assert (Hpl : Z.of_nat (length (payload t)) = d).
    { rewrite Hpay, length_firstn. lia. }
    destruct (tx_ok t) eqn:Hok.
    + rewrite Hdone. rewrite (to_BYTE_id (cbSent + d)) by byte_range.
      specialize (IH (S k) (to_WORD (addr + d)) pb' (cbSent + d) ltac:(lia)).
      rewrite Hpb in IH. rewrite length_skipn in IH.
      specialize (IH ltac:(lia)). rewrite <- Hpb in IH.
      destruct (write_loop p b cbWrite cap fuel _ _ _ _) as [[ret cb] tr].
      destruct IH as (Hdel & Hnn & Hcb & Hle & Hiff & Hall & Hshape).
      rewrite bytes_done_cons, Hdone.
      unfold delivered in *. cbn [flat_map]. rewrite Hok, Hpay, Hdel, Hpb.
      replace (Z.to_nat (d + bytes_done tr))
        with (Z.to_nat d + Z.to_nat (bytes_done tr))%nat by lia.
      rewrite firstn_plus.
      split; [reflexivity|]. split; [lia|]. split; [lia|]. split; [lia|].
      split; [exact Hiff|].
      split; [intros H; constructor; [exact Hok | now apply Hall]|].
      constructor; [lia | exact Hshape].
    + rewrite bytes_done_cons, Hdone. unfold delivered. cbn [flat_map].
      rewrite Hok. cbn [bytes_done fold_right app Z.add Z.to_nat firstn].
      split; [reflexivity|]. split; [lia|]. split; [lia|]. split; [lia|].
      split; [split; [discriminate|lia]|].
      split; [discriminate|].
      constructor; [lia | constructor].
Qed.

End WriteData.

(** *** Reads: the buffer *)

Lemma address_bytes addr :
  is_WORD addr ->
  256 * to_BYTE (Z.shiftr addr 8) + to_BYTE (Z.land addr 0xFF) = addr.
Proof.
  intros Hw. change 0xFF with (Z.ones 8). rewrite Z.land_ones by lia.
  rewrite Z.shiftr_div_pow2 by lia. unfold_types.
  change (2 ^ 8) with 256. zlia.
Qed.

Lemma to_WORD_add_r a d : to_WORD (a + to_WORD d) = to_WORD (a + d).
Proof. unfold to_WORD. now rewrite Zplus_mod_idemp_r. Qed.

Lemma memory_at mem k addr i :
  is_WORD addr ->
  memory mem k [to_BYTE (Z.shiftr addr 8); to_BYTE (Z.land addr 0xFF)] i
  = mem (to_WORD (addr + i)).
Proof.
  intros Hw. unfold memory. cbn [nth]. now rewrite address_bytes.
Qed.

Section ReadMemory.

Variables (p : platform) (b : bus) (mem : Z -> Z) (cbRead : Z).
Hypothesis Hok : forall k, read_ok_at p b k.
Hypothesis Hmb : p = MicroBlaze -> forall k n, 0 < n -> bus_recv b k n = n.
Hypothesis HcbRead : cbRead <= 255.

Lemma read_step_stored k addr cbRecv :
  cbRecv < cbRead ->
  let t := read_step p b cbRead k addr cbRecv in
  tx_ok t = true /\
  0 < tx_done t <= Z.min 32 (cbRead - cbRecv) /\
  recv_stored p (bus_recv b k (tx_len t)) (tx_len t) = tx_done t.
Proof.
  intros Hlt. cbv zeta.
  destruct (read_step_good p b cbRead k addr cbRecv (Hok k) Hlt) as [H1 H2].
  split; [exact H1|]. split; [exact H2|].
  revert H1 H2. unfold read_step. cbv zeta.
  rewrite read_cbTrans_min.
  destruct (addr_failed _ _); [discriminate|].
  destruct (recv_failed _ _); [discriminate|].
  cbn [tx_ok tx_done tx_len]. intros _ H2.
  unfold recv_stored, recv_credit in *.
  destruct p; try reflexivity. apply Hmb; [reflexivity|lia].
Qed.

Lemma read_loop_pbRead_memory fuel :
  forall k addr cbRecv buf,
    is_WORD addr ->
    0 <= cbRecv <= cbRead ->
    cbRead - cbRecv <= Z.of_nat fuel ->
    forall i,
      read_loop_pbRead p b (memory mem) cbRead fuel k addr cbRecv buf i
      = if (cbRecv <=? i) && (i <? cbRead)
        then mem (to_WORD (addr + (i - cbRecv)))
        else buf i.
Proof.
  induction fuel as [|fuel IH]; intros k addr cbRecv buf Hw Hinv Hfuel i.
  - cbn [read_loop_pbRead].
    replace (cbRecv <? cbRead) with false by (symmetry; apply Z.ltb_ge; lia).
    replace ((cbRecv <=? i) && (i <? cbRead)) with false; [reflexivity|].
    symmetry. apply andb_false_iff.
    destruct (Z_le_gt_dec cbRecv i); [right; apply Z.ltb_ge | left; apply Z.leb_gt];
      lia.
  - cbn [read_loop_pbRead].
    destruct (cbRecv <? cbRead) eqn:E.
    2:{ apply Z.ltb_ge in E.
        replace ((cbRecv <=? i) && (i <? cbRead)) with false; [reflexivity|].
        symmetry. apply andb_false_iff.
        destruct (Z_le_gt_dec cbRecv i);
          [right; apply Z.ltb_ge | left; apply Z.leb_gt]; lia. }
    apply Z.ltb_lt in E.
    destruct (read_step_stored k addr cbRecv E) as (H1 & H2 & H3).
    pose proof (read_step_shape p b cbRead k addr cbRecv) as Hs.
    cbv zeta in Hs. destruct Hs as (_ & _ & _ & Hbytes).
    set (t := read_step p b cbRead k addr cbRecv) in *.
    rewrite H1, H3, Hbytes.
    rewrite (to_BYTE_id (cbRecv + tx_done t)) by byte_range.
    rewrite IH; [|apply to_WORD_range|lia|lia].
    unfold store. rewrite memory_at by exact Hw.
    rewrite to_WORD_add_l.
    destruct (cbRecv <=? i) eqn:E1, (i <? cbRead) eqn:E2,
             (cbRecv + tx_done t <=? i) eqn:E3,
             (i <? cbRecv + tx_done t) eqn:E4; cbn [andb];
      try reflexivity;
      try (f_equal; f_equal; lia);
      exfalso;
      repeat match goal with
             | H : (_ <=? _) = true |- _ => apply Z.leb_le in H
             | H : (_ <=? _) = false |- _ => apply Z.leb_gt in H
             | H : (_ <? _) = true |- _ => apply Z.ltb_lt in H
             | H : (_ <? _) = false |- _ => apply Z.ltb_ge in H
             end; lia.
Qed.

End ReadMemory.

(** *** Writes: the memory behind the bus *)

Lemma mem_store_spec bytes :
  forall mem addr,
    Z.of_nat (length bytes) <= 2 ^ 16 ->
    (forall j, 0 <= j < Z.of_nat (length bytes) ->
               mem_store mem addr bytes (to_WORD (addr + j))
               = nth (Z.to_nat j) bytes 0) /\
    (forall a, (forall j, 0 <= j < Z.of_nat (length bytes) ->
                          a <> to_WORD (addr + j)) ->
               mem_store mem addr bytes a = mem a).
Proof.
  induction bytes as [|x rest IH]; intros mem addr Hlen.
  - split; [cbn; intros; lia | reflexivity].
  - cbn [mem_store]. cbn [length] in Hlen.
    destruct (IH (fun a => if a =? to_WORD addr then x else mem a)
                 (addr + 1) ltac:(lia)) as [IH1 IH2].
    split.
    + intros j Hj. cbn [length] in Hj.
      destruct (Z.eq_dec j 0) as [->|Hnz].
      * rewrite Z.add_0_r. rewrite IH2.
        -- now rewrite Z.eqb_refl.
        -- intros j' Hj' E. unfold to_WORD in E.
           change (2 ^ 16) with 65536 in *. revert E. zlia.
      * replace (addr + j) with (addr + 1 + (j - 1)) by lia.
        rewrite IH1 by lia.
        replace (Z.to_nat j) with (S (Z.to_nat (j - 1))) by lia.
        reflexivity.
    + intros a Ha. rewrite IH2.
      * specialize (Ha 0 ltac:(cbn [length]; lia)).
        rewrite Z.add_0_r in Ha.
        destruct (a =? to_WORD addr) eqn:E; [apply Z.eqb_eq in E; contradiction|].
        reflexivity.
      * intros j Hj. specialize (Ha (j + 1) ltac:(cbn [length]; lia)).
        now replace (addr + 1 + j) with (addr + (j + 1)) by lia.
Qed.

Section WriteMemory.

Variables (p : platform) (b : bus) (cbWrite cap : Z).
Hypothesis Hcap : 3 <= cap.
Hypothesis HcbWrite : cbWrite <= 253.

Lemma write_step_decoded k addr pb cbSent :
  0 <= cbSent < cbWrite ->
  is_WORD addr ->
  let t := fst (write_step p b cbWrite cap k addr pb cbSent) in
  256 * nth 0 (tx_bytes t) 0 + nth 1 (tx_bytes t) 0 = addr.
Proof.
  intros Hinv Hw. cbv zeta.
  pose proof (write_cbTrans_regular cbWrite cap cbSent
                ltac:(lia) ltac:(lia)) as Hsize.
  pose proof (write_step_address_bytes p b cbWrite cap k addr pb cbSent
                ltac:(lia)) as Ha.
  pose proof (write_step_bytes p b cbWrite cap k addr pb cbSent ltac:(lia))
    as Hl.
  destruct (tx_bytes (fst (write_step p b cbWrite cap k addr pb cbSent)))
    as [|x [|y l]]; cbn [length] in Hl; try lia.
  cbn [firstn] in Ha. injection Ha as -> ->. cbn [nth].
  now apply address_bytes.
Qed.

Lemma write_loop_written fuel :
  forall k addr pb cbSent mem,
    is_WORD addr ->
    0 <= cbSent <= cbWrite ->
    cbWrite - cbSent <= Z.of_nat (length pb) ->
    let tr := snd (write_loop p b cbWrite cap fuel k addr pb cbSent) in
    (forall j, 0 <= j < bytes_done tr ->
               written tr mem (to_WORD (addr + j)) = nth (Z.to_nat j) pb 0) /\
    (forall a, (forall j, 0 <= j < bytes_done tr -> a <> to_WORD (addr + j)) ->
               written tr mem a = mem a).
Proof.
  induction fuel as [|fuel IH]; intros k addr pb cbSent mem Hw Hinv Hlen;
    cbv zeta; cbn [write_loop].
  - destruct (cbSent <? cbWrite); cbn; split; (intros; lia || reflexivity).
  - destruct (cbSent <? cbWrite) eqn:E;
      [|cbn; split; (intros; lia || reflexivity)].
    apply Z.ltb_lt in E.
    pose proof (write_step_payload p b cbWrite cap Hcap HcbWrite
                  k addr pb cbSent ltac:(lia) Hlen) as Hstep.
    pose proof (write_step_decoded k addr pb cbSent ltac:(lia) Hw) as Hdec.
    cbv zeta in Hstep, Hdec.
    destruct (write_step p b cbWrite cap k addr pb cbSent) as [t pb'].
    cbn [fst] in Hdec. destruct Hstep as (Hpay & Hpb & Hdone).
    set (d := Z.min (cap - 2) (cbWrite - cbSent)) in *.
    assert (Hd : 0 < d <= cbWrite - cbSent) by (unfold d; lia).
    destruct (tx_ok t) eqn:Hok.
    + rewrite Hdone. rewrite (to_BYTE_id (cbSent + d)) by byte_range.
      assert (Hlen' : cbWrite - (cbSent + d) <= Z.of_nat (length pb')).
      { rewrite Hpb, length_skipn. lia. }
      pose proof (write_loop_delivered p b cbWrite cap Hcap HcbWrite fuel
                    (S k) (to_WORD (addr + d)) pb' (cbSent + d)
                    ltac:(lia) Hlen') as Hbound.
      specialize (IH (S k) (to_WORD (addr + d)) pb' (cbSent + d)
                     (mem_write mem t) (to_WORD_range _) ltac:(lia) Hlen').
      cbv zeta in IH.
      destruct (write_loop p b cbWrite cap fuel _ _ _ _) as [[ret cb] tr].
      cbn [snd] in *. destruct IH as [IH1 IH2].
      destruct Hbound as (_ & Hnn & Hcb & Hle & _).
      rewrite bytes_done_cons, Hdone.
      unfold written in *. cbn [fold_left].
      assert (Hm : mem_write mem t
                   = mem_store mem addr (firstn (Z.to_nat d) pb)).
      { unfold mem_write. rewrite Hok, Hdec. now rewrite <- Hpay. }
      assert (Hfl : Z.of_nat (length (firstn (Z.to_nat d) pb)) = d).
      { rewrite length_firstn. lia. }
      destruct (mem_store_spec (firstn (Z.to_nat d) pb) mem addr
                  ltac:(rewrite Hfl; lia)) as [S1 S2].
      rewrite Hfl in S1, S2.
      split.
      * intros j Hj. destruct (Z_lt_ge_dec j d) as [Hlt|Hge].
        -- rewrite IH2.
           ++ rewrite Hm, S1 by lia. rewrite nth_firstn.
              replace (Z.to_nat j <? Z.to_nat d)%nat with true; [reflexivity|].
              symmetry. apply Nat.ltb_lt. lia.
           ++ intros j' Hj' E'. rewrite to_WORD_add_l in E'.
              unfold to_WORD in E'. change (2 ^ 16) with 65536 in E'.
              revert E'. zlia.
        -- replace (to_WORD (addr + j))
             with (to_WORD (to_WORD (addr + d) + (j - d)))
             by (rewrite to_WORD_add_l; f_equal; lia).
           rewrite IH1 by lia. rewrite Hpb, nth_skipn. f_equal. lia.
      * intros a Ha. rewrite IH2.
        -- rewrite Hm. apply S2. intros j Hj. apply Ha. lia.
        -- intros j Hj. rewrite to_WORD_add_l.
           replace (addr + d + j) with (addr + (d + j)) by lia.
           apply Ha. lia.
    + cbn [snd]. rewrite bytes_done_cons, Hdone. cbn [bytes_done fold_right].
      unfold written. cbn [fold_left]. unfold mem_write. rewrite Hok.
      split; [intros; lia | reflexivity].
Qed.

End WriteMemory.

Lemma I2CHALRead_pbRead_unfold p b rx fuel slaveAddr addr buf cbRead :
  select_failed p b = false ->
  I2CHALRead_pbRead p b rx fuel slaveAddr addr buf cbRead
  = read_loop_pbRead p b rx cbRead fuel 0 addr 0 buf.
Proof. intros H. unfold I2CHALRead_pbRead. now rewrite H. Qed.

Lemma ideal_read_ok p k : read_ok_at p (Buses.ideal p) k.
Proof.
  split.
  - intros bytes Hlen. unfold addr_failed, Buses.ideal. cbn [bus_send].
    destruct p; rewrite ?Hlen; reflexivity.
  - intros n Hn. unfold recv_failed, Buses.ideal. cbn [bus_recv].
    destruct p; (split; [|intros; try discriminate; lia]);
      try reflexivity; apply Z.leb_gt; lia.
Qed.

Lemma ideal_write_ok p k : write_ok_at p (Buses.ideal p) k.
Proof.
  intros bytes. unfold send_failed, Buses.ideal. cbn [bus_send].
  destruct p; try reflexivity; now rewrite Z.eqb_refl.
Qed.

(** *** Short receives on MicroBlaze *)

Section ShortReceive.

Variables (b : bus) (rx : rxdata) (cbRead : Z).
Hypothesis Hsend : forall k bytes, length bytes = 2%nat -> bus_send b k bytes = 2.
Hypothesis Hone : forall k n, bus_recv b k n = 1.
Hypothesis HcbRead : cbRead <= 255.

Lemma read_step_short k addr cbRecv :
  let t := read_step MicroBlaze b cbRead k addr cbRecv in
  tx_ok t = true /\ tx_done t = Z.min 32 (cbRead - cbRecv) /\
  recv_stored MicroBlaze (bus_recv b k (tx_len t)) (tx_len t) = 1.
Proof.
  cbv zeta. unfold read_step. cbv zeta. rewrite read_cbTrans_min.
  unfold addr_failed, recv_failed, recv_credit, recv_stored.
  rewrite Hsend by reflexivity. rewrite Hone. cbn.
  rewrite Hone. repeat split.
Qed.

Lemma read_loop_short fuel :
  forall k addr cbRecv buf,
    0 <= cbRecv <= cbRead ->
    cbRecv mod 32 = 0 \/ cbRecv = cbRead ->
    ceil_div (cbRead - cbRecv) 32 <= Z.of_nat fuel ->
    (exists tr,
        read_loop MicroBlaze b cbRead fuel k addr cbRecv
        = (Some fTrue, cbRead, tr) /\
        count tr = ceil_div (cbRead - cbRecv) 32) /\
    (forall i, i mod 32 <> 0 ->
               read_loop_pbRead MicroBlaze b rx cbRead fuel k addr cbRecv buf i
               = buf i).
Proof.
  induction fuel as [|fuel IH]; intros k addr cbRecv buf Hinv Hal Hfuel.
  - assert (cbRecv = cbRead) as ->.
    { destruct (Z.eq_dec cbRecv cbRead) as [|Hne]; [assumption|].
      pose proof (ceil_div_pos (cbRead - cbRecv) 32). lia. }
    rewrite read_loop_done by lia. cbn [read_loop_pbRead].
    rewrite Z.ltb_irrefl. split; [|reflexivity].
    exists []. rewrite Z.sub_diag, ceil_div_0 by lia. split; reflexivity.
  - destruct (Z.eq_dec cbRecv cbRead) as [->|Hne].
    { rewrite read_loop_done by lia. cbn [read_loop_pbRead].
      rewrite Z.ltb_irrefl. split; [|reflexivity].
      exists []. rewrite Z.sub_diag, ceil_div_0 by lia. split; reflexivity. }
    cbn [read_loop read_loop_pbRead].
    replace (cbRecv <? cbRead) with true by (symmetry; apply Z.ltb_lt; lia).
    destruct (read_step_short k addr cbRecv) as (Hok & Hdone & Hst).
    set (t := read_step MicroBlaze b cbRead k addr cbRecv) in *.
    rewrite Hok, Hdone, Hst.
    set (d := Z.min 32 (cbRead - cbRecv)) in *.
    assert (Hd : 0 < d <= cbRead - cbRecv) by (unfold d; lia).
    rewrite (to_BYTE_id (cbRecv + d)) by byte_range.
    assert (Hal0 : cbRecv mod 32 = 0) by (destruct Hal; [assumption|lia]).
    assert (Hal' : (cbRecv + d) mod 32 = 0 \/ cbRecv + d = cbRead).
    { destruct (Z_le_gt_dec (cbRead - cbRecv) 32); [right|left]; unfold d.
      - lia.
      - rewrite Z.min_l by lia. revert Hal0. zlia. }
    assert (Hceil : ceil_div (cbRead - cbRecv) 32
                    = 1 + ceil_div (cbRead - (cbRecv + d)) 32).
    { destruct (Z_le_gt_dec (cbRead - cbRecv) 32) as [Hle|Hgt].
      - replace (cbRead - (cbRecv + d)) with 0 by (unfold d; lia).
        rewrite ceil_div_0, ceil_div_le by lia. reflexivity.
      - replace (cbRead - cbRecv)
          with ((cbRead - (cbRecv + d)) + 32) at 1 by (unfold d; lia).
        rewrite ceil_div_step by lia. lia. }
    destruct (IH (S k) (to_WORD (addr + d)) (cbRecv + d)
                 (store buf cbRecv 1 (rx k (tx_bytes t)))
                 ltac:(lia) Hal' ltac:(lia))
      as ((tr & Hrun & Hcount) & Hbuf).
    split.
    + rewrite Hrun. exists (t :: tr). split; [reflexivity|].
      rewrite count_cons. lia.
    + intros i Hi. rewrite Hbuf by exact Hi. unfold store.
      destruct (cbRecv <=? i) eqn:E1, (i <? cbRecv + 1) eqn:E2; cbn [andb];
        try reflexivity.
      apply Z.leb_le in E1. apply Z.ltb_lt in E2.
      assert (i = cbRecv) by lia. subst i. contradiction.
Qed.

End ShortReceive.

(** *** Caps that leave no room for data *)

Lemma payload_of_two t :
  Z.of_nat (length (tx_bytes t)) = 2 -> payload t = [].
Proof.
  intros H. unfold payload.
  destruct (tx_bytes t) as [|x [|y [|z l]]]; cbn [length] in H; try lia.
  reflexivity.
Qed.

Section CapTwo.

Variables (p : platform) (b : bus) (cbWrite : Z).
Hypothesis Hok : forall k, write_ok_at p b k.
Hypothesis HcbWrite : cbWrite <= 253.

Lemma write_loop_cap_2 fuel :
  forall k addr pb cbSent,
    0 <= cbSent < cbWrite ->
    exists tr,
      write_loop p b cbWrite 2 fuel k addr pb cbSent = (None, cbSent, tr) /\
      length tr = fuel /\
      Forall (fun t => tx_ok t = true /\ tx_len t = 2 /\ tx_done t = 0 /\
                       payload t = []) tr.
Proof.
  induction fuel as [|fuel IH]; intros k addr pb cbSent Hinv.
  - cbn [write_loop].
    replace (cbSent <? cbWrite) with true by (symmetry; apply Z.ltb_lt; lia).
    exists []. repeat split. constructor.
  - cbn [write_loop].
    replace (cbSent <? cbWrite) with true by (symmetry; apply Z.ltb_lt; lia).
    pose proof (write_cbTrans_regular cbWrite 2 cbSent
                  ltac:(lia) ltac:(lia)) as Hsize.
    rewrite Z.min_l in Hsize by lia.
    pose proof (write_step_ok p b cbWrite 2 k addr pb cbSent ltac:(lia))
      as Hstep.
    pose proof (write_step_bytes p b cbWrite 2 k addr pb cbSent ltac:(lia))
      as Hbytes.
    pose proof (write_step_len p b cbWrite 2 k addr pb cbSent) as Hlen.
    cbv zeta in Hstep.
    destruct (write_step p b cbWrite 2 k addr pb cbSent) as [t pb'].
    cbn [fst] in *. destruct Hstep as [Hgo Hdone].
    rewrite (Hok k (tx_bytes t)) in Hgo. cbn [negb] in Hgo.
    rewrite Hgo in Hdone |- *. rewrite Hsize in *.
    rewrite Hdone. change (2 - 2) with 0 in *.
    rewrite (Z.add_0_r cbSent). rewrite (to_BYTE_id cbSent) by byte_range.
    destruct (IH (S k) (to_WORD (addr + 0)) pb' cbSent Hinv)
      as (tr & Hrun & Hl & Hall).
    rewrite Hrun. exists (t :: tr).
    split; [reflexivity|]. split; [cbn [length]; lia|].
    constructor; [|exact Hall].
    repeat split; try assumption. apply payload_of_two. exact Hbytes.
Qed.

End CapTwo.

(** *** The calls *)

Lemma read_loop_all_ok p b cbRead fuel :
  (forall k, read_ok_at p b k) -> cbRead <= 255 ->
  forall k addr cbRecv,
    0 <= cbRecv <= cbRead ->
    cbRead - cbRecv <= Z.of_nat fuel ->
    fst (fst (read_loop p b cbRead fuel k addr cbRecv)) = Some fTrue.
Proof.
  intros Hok HcbRead.
  induction fuel as [|fuel IH]; intros k addr cbRecv Hinv Hfuel.
  - now rewrite read_loop_done by lia.
  - destruct (Z_le_gt_dec cbRead cbRecv) as [Hdone|Hmore].
    { now rewrite read_loop_done by lia. }
    cbn [read_loop].
    replace (cbRecv <? cbRead) with true by (symmetry; apply Z.ltb_lt; lia).
    destruct (read_step_good p b cbRead k addr cbRecv (Hok k) ltac:(lia))
      as [H1 H2].
    set (t := read_step p b cbRead k addr cbRecv) in *.
    rewrite H1. rewrite (to_BYTE_id (cbRecv + tx_done t)) by byte_range.
    specialize (IH (S k) (to_WORD (addr + tx_done t)) (cbRecv + tx_done t)
                   ltac:(lia) ltac:(lia)).
    destruct (read_loop p b cbRead fuel _ _ _) as [[ret cb] tr].
    exact IH.
Qed.

Lemma I2CHALRead_ret p b cbRead fuel slaveAddr addr pcb uWait :
  res_ret (I2CHALRead p b fuel slaveAddr addr cbRead pcb uWait)
  = if select_failed p b then Some fFalse
    else fst (fst (read_loop p b cbRead fuel 0 addr 0)).
Proof.
  unfold I2CHALRead. destruct (select_failed p b); [reflexivity|].
  destruct (read_loop p b cbRead fuel 0 addr 0) as [[ret cb] tr].
  reflexivity.
Qed.





(** X3: [I2CHALWrite] puts the caller's data on the bus whole and in
    order.  For a cap between 3 and 32 (room for data, and every store
    inside [rgbSnd]) and at most 253 bytes of data, on every bus: the
    call returns; the payloads of the transactions that went through,
    one after the other, are the first bytes of [pbWrite], as many as
    the count that a [pcbWritten] other than NULL is left holding; every
    transaction carries between 1 and [cbDevRxMax - 2] data bytes; and
    when the call returns fTrue the count is [cbWrite] and the payloads
    are all of the data. *)
Theorem write_delivers_data_in_order
        (p : platform) (b : bus) (fuel : nat)
        (slaveAddr addrWrite : Z) (pbWrite : list Z) (cbWrite cbDevRxMax : Z)
        (pcbWritten : option Z) (uWait : Z)
        (Hcap : 3 <= cbDevRxMax <= 32)
        (HcbWrite : 0 <= cbWrite <= 253)
        (Hdata : cbWrite <= Z.of_nat (length pbWrite))
        (Hfuel : cbWrite <= Z.of_nat fuel) :
  let r := I2CHALWrite p b fuel slaveAddr addrWrite pbWrite cbWrite
                       cbDevRxMax pcbWritten uWait in
  exists ret,
    res_ret r = Some ret /\
    counted pcbWritten r (bytes_done (res_trace r)) /\
    delivered (res_trace r)
    = firstn (Z.to_nat (bytes_done (res_trace r))) pbWrite /\
    0 <= bytes_done (res_trace r) <= cbWrite /\
    (ret = fTrue ->
     bytes_done (res_trace r) = cbWrite /\
     delivered (res_trace r) = firstn (Z.to_nat cbWrite) pbWrite) /\
    Forall (fun t => 0 < Z.of_nat (length (payload t)) <= cbDevRxMax - 2 /\
                     in_bounds cbSndWrite t)
           (res_trace r).
Proof.
  cbv zeta. unfold I2CHALWrite. destruct (select_failed p b).
  { exists fFalse. cbn [res_ret res_pcb res_trace].
    split; [reflexivity|]. split; [destruct pcbWritten; reflexivity|].
    cbn. repeat split; try lia; try discriminate. constructor. }
  pose proof (write_loop_delivered p b cbWrite cbDevRxMax (proj1 Hcap)
                ltac:(lia) fuel 0 addrWrite pbWrite 0 ltac:(lia) ltac:(lia))
    as H.
  pose proof (write_loop_returns p b cbWrite cbDevRxMax (proj1 Hcap)
                ltac:(lia) fuel 0 addrWrite pbWrite 0 ltac:(lia) ltac:(lia))
    as Hret.
  pose proof (write_loop_in_bounds p b cbWrite cbDevRxMax fuel 0 addrWrite
                pbWrite 0 ltac:(lia)) as Hin.
  destruct (write_loop p b cbWrite cbDevRxMax fuel 0 addrWrite pbWrite 0)
    as [[ret cb] tr].
  cbn [fst] in Hret. cbn [snd] in Hin.
  destruct H as (Hdel & Hnn & Hcb & Hle & Hiff & Hall & Hshape).
  destruct ret as [ret|]; [|contradiction]. exists ret.
  cbn [res_ret res_pcb res_trace]. rewrite Z.add_0_l in Hcb. subst cb.
  split; [reflexivity|]. split; [destruct pcbWritten; reflexivity|].
  split; [exact Hdel|]. split; [lia|]. split.
  - intros ->. assert (E : bytes_done tr = cbWrite) by now apply Hiff.
    split; [exact E|]. now rewrite <- E.
  - apply Forall_forall. intros t Ht. rewrite Forall_forall in Hshape, Hin.
    split; [now apply Hshape | now apply (Hin t Ht)].
Qed.

Lemma write_delivers_data_in_order_witness :
  delivered
    (res_trace (I2CHALWrite Zynq (Buses.ideal Zynq) 10 0x60 0x8000
                            (Buses.ramp 10) 10 6 None 0))
  = firstn 10 (Buses.ramp 10).
Proof.
  destruct (write_delivers_data_in_order
              Zynq (Buses.ideal Zynq) 10 0x60 0x8000 (Buses.ramp 10) 10 6
              None 0 ltac:(lia) ltac:(lia) ltac:(simpl; lia)
              ltac:(simpl; lia))
    as (ret & Hret & _ & _ & _ & Hfull & _).
  refine (proj2 (Hfull _)).
  vm_compute in Hret. now injection Hret as <-.
Defined.

(** X4: a cap of 2 leaves no room for data.  While the bus accepts what
    it is sent, [I2CHALWrite] with [cbDevRxMax = 2] and 1 to 253 bytes
    to write never leaves its loop: whatever the fuel, it is used up by
    transactions of the two address bytes alone, the count stays 0 and
    nothing is stored through [pcbWritten]. *)
Theorem write_with_cap_2_never_returns
        (p : platform) (b : bus) (fuel : nat)
        (slaveAddr addrWrite : Z) (pbWrite : list Z) (cbWrite : Z)
        (pcbWritten : option Z) (uWait : Z)
        (Hselect : select_failed p b = false)
        (Hok : forall k, write_ok_at p b k)
        (HcbWrite : 0 < cbWrite <= 253) :
  let r := I2CHALWrite p b fuel slaveAddr addrWrite pbWrite cbWrite 2
                       pcbWritten uWait in
  res_ret r = None /\ res_pcb r = pcbWritten /\
  length (res_trace r) = fuel /\
  Forall (fun t => tx_ok t = true /\ tx_len t = 2 /\ tx_done t = 0 /\
                   payload t = [])
         (res_trace r).
Proof.
  cbv zeta. rewrite I2CHALWrite_unfold by exact Hselect.
  destruct (write_loop_cap_2 p b cbWrite Hok ltac:(lia) fuel 0 addrWrite
              pbWrite 0 ltac:(lia)) as (tr & Hrun & Hlen & Hall).
  rewrite Hrun. cbn [res_ret res_pcb res_trace]. repeat split; assumption.
Qed.

Lemma write_with_cap_2_never_returns_witness :
  res_ret (I2CHALWrite Linux (Buses.ideal Linux) 1000 0x60 0x8000
                       (Buses.ramp 4) 4 2 None 0) = None.
Proof.
  refine (proj1 (write_with_cap_2_never_returns
                   Linux (Buses.ideal Linux) 1000 0x60 0x8000 (Buses.ramp 4)
                   4 None 0 _ _ _)).
  - reflexivity.
  - intros k. apply ideal_write_ok.
  - lia.
Defined.

Lemma I2CHALRead_pbRead_memory p b mem fuel slaveAddr addr buf cbRead :
  select_failed p b = false ->
  (forall k, read_ok_at p b k) ->
  (p = MicroBlaze -> forall k n, 0 < n -> bus_recv b k n = n) ->
  is_WORD addr -> is_BYTE cbRead -> cbRead <= Z.of_nat fuel ->
  forall i,
    I2CHALRead_pbRead p b (memory mem) fuel slaveAddr addr buf cbRead i
    = if (0 <=? i) && (i <? cbRead) then mem (to_WORD (addr + i))
      else buf i.
Proof.
  intros Hselect Hok Hmb Haddr HcbRead Hfuel i.
  unfold is_BYTE in HcbRead. change (2 ^ 8) with 256 in HcbRead.
  rewrite I2CHALRead_pbRead_unfold by exact Hselect.
  rewrite (read_loop_pbRead_memory p b mem cbRead Hok Hmb ltac:(lia)
             fuel 0 addr 0 buf Haddr ltac:(lia) ltac:(lia)).
  now rewrite Z.sub_0_r.
Qed.

(** X5: on a device that is a memory, [I2CHALRead] leaves in
    [pbRead[0 .. cbRead-1]] the bytes the device holds at [addrRead],
    [addrRead + 1], ... (modulo [2^16]) and touches nothing else of the
    buffer, however the transfers are cut: Linux [read] may return fewer
    bytes than it was asked for at every transaction. *)
Theorem read_fills_buffer_from_memory
        (p : platform) (b : bus) (mem : Z -> Z) (fuel : nat)
        (slaveAddr addrRead : Z) (pbRead : Z -> Z) (cbRead : Z)
        (pcbRead : option Z) (uWait : Z)
        (Hselect : select_failed p b = false)
        (Hok : forall k, read_ok_at p b k)
        (Hmb : p = MicroBlaze -> forall k n, 0 < n -> bus_recv b k n = n)
        (Haddr : is_WORD addrRead)
        (HcbRead : is_BYTE cbRead)
        (Hfuel : cbRead <= Z.of_nat fuel) :
  res_ret (I2CHALRead p b fuel slaveAddr addrRead cbRead pcbRead uWait)
  = Some fTrue /\
  forall i,
    I2CHALRead_pbRead p b (memory mem) fuel slaveAddr addrRead pbRead cbRead i
    = if (0 <=? i) && (i <? cbRead) then mem (to_WORD (addrRead + i))
      else pbRead i.
Proof.
  unfold is_BYTE in HcbRead. change (2 ^ 8) with 256 in HcbRead.
  split.
  - rewrite I2CHALRead_ret, Hselect.
    apply read_loop_all_ok; try assumption; lia.
  - apply I2CHALRead_pbRead_memory; assumption.
Qed.

Lemma read_fills_buffer_from_memory_witness :
  map (I2CHALRead_pbRead Linux (Buses.ideal Linux)
                         (memory (fun a => a mod 7)) 40 0x30 0xFFFE
                         (fun _ => 0) 40)
      [0; 1; 2; 39; 40]
  = [0xFFFE mod 7; 0xFFFF mod 7; 0 mod 7; 37 mod 7; 0].
Proof.
  pose proof (proj2 (read_fills_buffer_from_memory
                       Linux (Buses.ideal Linux) (fun a => a mod 7) 40 0x30
                       0xFFFE (fun _ => 0) 40 None 0
                       eq_refl (ideal_read_ok Linux)
                       ltac:(discriminate)
                       ltac:(unfold is_WORD; simpl; lia)
                       ltac:(unfold is_BYTE; simpl; lia)
                       ltac:(simpl; lia))) as H.
  cbn [map]. rewrite !H. reflexivity.
Defined.

(** X6: on MicroBlaze a short receive is counted as a full one.  After
    [XIic_Recv] the code tests only [0 >= cb] and then adds [cbTrans],
    not [cb]: on a bus whose receive returns one byte each time, the
    call returns fTrue with the count [cbRead] after ceil(cbRead/32)
    transactions, while every byte of [pbRead] whose index is not a
    multiple of 32 is left as it was. *)
Theorem microblaze_short_receive_counts_in_full
        (b : bus) (rx : rxdata) (fuel : nat)
        (slaveAddr addrRead : Z) (pbRead : Z -> Z) (cbRead : Z)
        (pcbRead : option Z) (uWait : Z)
        (Hsend : forall k bytes, length bytes = 2%nat -> bus_send b k bytes = 2)
        (Hone : forall k n, bus_recv b k n = 1)
        (HcbRead : is_BYTE cbRead)
        (Hfuel : ceil_div cbRead 32 <= Z.of_nat fuel) :
  let r := I2CHALRead MicroBlaze b fuel slaveAddr addrRead cbRead pcbRead
                      uWait in
  res_ret r = Some fTrue /\
  res_pcb r = report pcbRead cbRead /\
  count (res_trace r) = ceil_div cbRead 32 /\
  forall i, i mod 32 <> 0 ->
            I2CHALRead_pbRead MicroBlaze b rx fuel slaveAddr addrRead pbRead
                              cbRead i
            = pbRead i.
Proof.
  cbv zeta. unfold is_BYTE in HcbRead. change (2 ^ 8) with 256 in HcbRead.
  rewrite I2CHALRead_unfold by reflexivity.
  destruct (read_loop_short b rx cbRead Hsend Hone ltac:(lia) fuel 0
              addrRead 0 pbRead ltac:(lia) ltac:(left; reflexivity)
              ltac:(now rewrite Z.sub_0_r))
    as ((tr & Hrun & Hcount) & Hbuf).
  rewrite Hrun. cbn [res_ret res_pcb res_trace].
  rewrite Z.sub_0_r in Hcount.
  split; [reflexivity|]. split; [reflexivity|]. split; [assumption|].
  exact Hbuf.
Qed.

Lemma microblaze_short_receive_counts_in_full_witness :
  res_ret (I2CHALRead MicroBlaze one_byte 3 0x30 0x8000 70 (Some 0) 0)
  = Some fTrue /\
  res_pcb (I2CHALRead MicroBlaze one_byte 3 0x30 0x8000 70 (Some 0) 0)
  = Some 70.
Proof.
  destruct (microblaze_short_receive_counts_in_full
              one_byte (fun _ _ _ => 1) 3 0x30 0x8000 (fun _ => 0) 70
              (Some 0) 0) as (H1 & H2 & _).
  - intros k bytes Hlen. cbn. now rewrite Hlen.
  - reflexivity.
  - unfold is_BYTE. simpl. lia.
  - vm_compute. discriminate.
  - split; [exact H1 | exact H2].
Defined.

(** X7: what [I2CHALWrite] writes, [I2CHALRead] reads back.  On a
    memory device, with a cap between 3 (room for data) and 32 (the size
    of [rgbSnd], so that every store stays inside it) and at most 253
    bytes: the write returns fTrue, a read of the same length at the same
    address then returns the bytes written, and the write changed no
    other address of the device. *)
Theorem write_then_read_round_trip
        (p : platform) (bw br : bus) (mem : Z -> Z) (fuelw fuelr : nat)
        (slaveAddr addr : Z) (pbWrite : list Z) (cb cbDevRxMax : Z)
        (pcbWritten : option Z) (pbRead : Z -> Z) (uWait : Z)
        (Hfull : full p bw)
        (Hselect : select_failed p br = false)
        (Hok : forall k, read_ok_at p br k)
        (Hmb : p = MicroBlaze -> forall k n, 0 < n -> bus_recv br k n = n)
        (Hcap : 3 <= cbDevRxMax <= 32)
        (Hcb : 0 <= cb <= 253)
        (Hdata : cb <= Z.of_nat (length pbWrite))
        (Haddr : is_WORD addr)
        (Hfuelw : ceil_div cb (cbDevRxMax - 2) <= Z.of_nat fuelw)
        (Hfuelr : cb <= Z.of_nat fuelr) :
  let w := I2CHALWrite p bw fuelw slaveAddr addr pbWrite cb cbDevRxMax
                       pcbWritten uWait in
  let mem' := written (res_trace w) mem in
  res_ret w = Some fTrue /\
  Forall (in_bounds cbSndWrite) (res_trace w) /\
  (forall i, 0 <= i < cb ->
             I2CHALRead_pbRead p br (memory mem') fuelr slaveAddr addr pbRead
                               cb i
             = nth (Z.to_nat i) pbWrite 0) /\
  (forall a, (forall j, 0 <= j < cb -> a <> to_WORD (addr + j)) ->
             mem' a = mem a).
Proof.
  cbv zeta.
  assert (Hsel : select_failed p bw = false) by apply Hfull.
  rewrite I2CHALWrite_ret, I2CHALWrite_trace, Hsel.
  destruct (write_loop_full p bw cb cbDevRxMax Hfull ltac:(lia) ltac:(lia)
              fuelw 0 addr pbWrite 0 ltac:(lia)
              ltac:(now rewrite Z.sub_0_r))
    as (tr & Hrun & _ & Hsum & _).
  pose proof (write_loop_written p bw cb cbDevRxMax ltac:(lia) ltac:(lia)
                fuelw 0 addr pbWrite 0 mem Haddr ltac:(lia) ltac:(lia))
    as Hw.
  pose proof (write_loop_in_bounds p bw cb cbDevRxMax fuelw 0 addr pbWrite 0
                ltac:(lia)) as Hbounds.
  cbv zeta in Hw. rewrite Hrun in *. cbn [fst snd] in *.
  rewrite Z.sub_0_r in Hsum. rewrite Hsum in Hw. destruct Hw as [Hw1 Hw2].
  split; [reflexivity|].
  split; [eapply Forall_impl; [|exact Hbounds]; now intros t [H _]|].
  split; [|exact Hw2].
  intros i Hi.
  rewrite (I2CHALRead_pbRead_memory p br (written tr mem) fuelr slaveAddr
             addr pbRead cb Hselect Hok Hmb Haddr ltac:(byte_range) Hfuelr i).
  replace ((0 <=? i) && (i <? cb)) with true.
  - now apply Hw1.
  - symmetry. apply andb_true_iff. split; [apply Z.leb_le | apply Z.ltb_lt]; lia.
Qed.

Lemma write_then_read_round_trip_witness :
  I2CHALRead_pbRead Linux (Buses.ideal Linux)
    (memory (written
               (res_trace (PlatformMCU.PmcuI2cWrite
                             Linux (Buses.ideal Linux) 3 0x804A
                             (Buses.ramp 10) 10 None))
               (fun _ => 0xFF)))
    10 PlatformMCU.addrPlatformMcuI2c 0x804A (fun _ => 0) 10 7
  = 8.
Proof.
  refine (proj1 (proj2 (proj2
    (write_then_read_round_trip
       Linux (Buses.ideal Linux) (Buses.ideal Linux) (fun _ => 0xFF) 3 10
       PlatformMCU.addrPlatformMcuI2c 0x804A (Buses.ramp 10) 10
       PlatformMCU.cbPmcuRxMax None (fun _ => 0) 0 _ _ _ _ _ _ _ _ _ _)))
    7 _).
  - apply ideal_full.
  - reflexivity.
  - intros k. apply ideal_read_ok.
  - discriminate.
  - unfold PlatformMCU.cbPmcuRxMax. lia.
  - lia.
  - simpl. lia.
  - unfold is_WORD. simpl. lia.
  - vm_compute. discriminate.
  - simpl. lia.
  - lia.
Defined.

(** ** CRC-16: what the check detects *)

Lemma crc_update_0_lxor v w :
  crc_update (Z.lxor v w) 0 = Z.lxor (crc_update v 0) (crc_update w 0).
Proof.
  unfold crc_update. cbv zeta.
  change 0xFFFF with (Z.ones 16). rewrite <- !to_WORD_land.
  rewrite !Z.lxor_0_r.
  repeat (rewrite ?Z.shiftr_lxor, ?Z.shiftl_lxor, ?to_WORD_lxor).
  apply Z.bits_inj'. intros n _.
  rewrite !Z.lxor_spec.
  repeat match goal with
         | |- context [Z.testbit ?a n] =>
             let t := fresh "t" in
             generalize (Z.testbit a n); intro t
         end.
  repeat match goal with t : bool |- _ => destruct t end; reflexivity.
Qed.

Lemma crc_update_0_checks w :
  is_WORD w ->
  (crc_update w 0 = 0 -> w = 0) /\
  (Z.land (crc_update w 0) 0xFF = 0 -> Z.shiftr w 8 = 0).
Proof.
  intros Hw.
  pose proof (forall_word
    (fun w => (negb (crc_update w 0 =? 0) || (w =? 0)) &&
              (negb (Z.land (crc_update w 0) 0xFF =? 0) || (Z.shiftr w 8 =? 0)))
    ltac:(vm_compute; reflexivity) w Hw) as H.
  cbv beta in H. apply andb_true_iff in H. destruct H as [H1 H2].
  split; intros E; rewrite E in *; cbn in *.
  - now apply Z.eqb_eq.
  - now apply Z.eqb_eq.
Qed.

Lemma lxor_cancel_r a b c : Z.lxor a c = Z.lxor b c -> a = b.
Proof.
  intros H.
  rewrite <- (Z.lxor_0_r a), <- (Z.lxor_0_r b), <- (Z.lxor_nilpotent c).
  now rewrite <- !Z.lxor_assoc, H.
Qed.

Lemma is_WORD_lxor a b : is_WORD a -> is_WORD b -> is_WORD (Z.lxor a b).
Proof.
  intros Ha Hb.
  rewrite <- (to_WORD_id a Ha), <- (to_WORD_id b Hb), <- to_WORD_lxor.
  apply to_WORD_range.
Qed.

Lemma crc_update_0_inj v w :
  is_WORD v -> is_WORD w -> crc_update v 0 = crc_update w 0 -> v = w.
Proof.
  intros Hv Hw E. apply Z.lxor_eq.
  apply (crc_update_0_checks (Z.lxor v w)); [now apply is_WORD_lxor|].
  rewrite crc_update_0_lxor, E. apply Z.lxor_nilpotent.
Qed.

Lemma crc_update_inj_reg c1 c2 b :
  is_WORD c1 -> is_WORD c2 -> is_BYTE b ->
  crc_update c1 b = crc_update c2 b -> c1 = c2.
Proof.
  intros H1 H2 Hb E.
  rewrite !(crc_update_absorb _ b) in E by (unfold is_BYTE in Hb; lia).
  apply crc_update_0_inj in E; try now apply lxor_shiftl_8_WORD.
  now apply lxor_cancel_r in E.
Qed.

Lemma shiftl_8_inj a b : Z.shiftl a 8 = Z.shiftl b 8 -> a = b.
Proof. rewrite !Z.shiftl_mul_pow2 by lia. lia. Qed.

Lemma crc_update_inj_byte c b1 b2 :
  is_WORD c -> is_BYTE b1 -> is_BYTE b2 ->
  crc_update c b1 = crc_update c b2 -> b1 = b2.
Proof.
  intros Hc H1 H2 E.
  rewrite (crc_update_absorb _ b1), (crc_update_absorb _ b2) in E
    by (unfold is_BYTE in *; lia).
  apply crc_update_0_inj in E; try now apply lxor_shiftl_8_WORD.
  apply shiftl_8_inj. rewrite !(Z.lxor_comm c) in E.
  now apply lxor_cancel_r in E.
Qed.

Lemma fold_crc_update_inj buf :
  Forall is_BYTE buf ->
  forall c1 c2, is_WORD c1 -> is_WORD c2 ->
  fold_left crc_update buf c1 = fold_left crc_update buf c2 -> c1 = c2.
Proof.
  induction 1 as [|b rest Hb _ IH]; intros c1 c2 H1 H2 E; [exact E|].
  cbn [fold_left] in E.
  apply IH in E; try apply crc_update_range.
  now apply crc_update_inj_reg in E.
Qed.

Lemma crc_split pre b post :
  Z.of_nat (length (pre ++ b :: post)) <= 255 ->
  SyzygyComputeCRC (pre ++ b :: post) (Z.of_nat (length (pre ++ b :: post)))
  = fold_left crc_update post
      (crc_update (fold_left crc_update pre 0xFFFF) b).
Proof.
  intros Hlen. unfold SyzygyComputeCRC.
  rewrite crc_loop_is_fold by exact Hlen.
  now rewrite fold_left_app.
Qed.

(** X8: [SyzygyComputeCRC] detects every corruption confined to one
    byte: two buffers of the same length (at most 255) that differ in
    exactly one byte have different CRCs, so when one of them has CRC
    zero, as a valid DNA header does, the other one does not. *)
Theorem crc_detects_one_byte (pre post : list Z) (b b' : Z)
        (Hpost : Forall is_BYTE post)
        (Hb : is_BYTE b) (Hb' : is_BYTE b') (Hne : b <> b')
        (Hlen : Z.of_nat (length (pre ++ b :: post)) <= 255) :
  let n := Z.of_nat (length (pre ++ b :: post)) in
  SyzygyComputeCRC (pre ++ b :: post) n
  <> SyzygyComputeCRC (pre ++ b' :: post) n /\
  (SyzygyComputeCRC (pre ++ b :: post) n = 0 ->
   SyzygyComputeCRC (pre ++ b' :: post) n <> 0).
Proof.
  cbv zeta.
  assert (Hlen' : length (pre ++ b' :: post) = length (pre ++ b :: post))
    by (rewrite !length_app; reflexivity).
  assert (Hdiff : SyzygyComputeCRC (pre ++ b :: post)
                    (Z.of_nat (length (pre ++ b :: post)))
                  <> SyzygyComputeCRC (pre ++ b' :: post)
                       (Z.of_nat (length (pre ++ b :: post)))).
  { rewrite <- Hlen' at 2. rewrite !crc_split by (rewrite ?Hlen'; exact Hlen).
    intros E. apply Hne.
    apply fold_crc_update_inj in E;
      [|exact Hpost|apply crc_update_range..].
    apply crc_update_inj_byte in E; try assumption.
    apply fold_crc_update_range, is_WORD_FFFF. }
  split; [exact Hdiff|]. intros H0 H1. apply Hdiff. now rewrite H0, H1.
Qed.

Lemma crc_detects_one_byte_witness :
  SyzygyComputeCRC ([1; 2] ++ 3 :: [4; 5]) 5
  <> SyzygyComputeCRC ([1; 2] ++ 7 :: [4; 5]) 5.
Proof.
  refine (proj1 (crc_detects_one_byte [1; 2] [4; 5] 3 7 _ _ _ _ _)).
  - repeat constructor; unfold is_BYTE; simpl; lia.
  - unfold is_BYTE; simpl; lia.
  - unfold is_BYTE; simpl; lia.
  - lia.
  - simpl; lia.
Defined.

Lemma land_shiftl_8_FF l : Z.land (Z.shiftl l 8) 0xFF = 0.
Proof.
  change 0xFF with (Z.ones 8). rewrite Z.land_ones by lia.
  rewrite Z.shiftl_mul_pow2 by lia. apply Z_mod_mult.
Qed.

Lemma is_BYTE_land_FF c : is_BYTE (Z.land c 0xFF).
Proof.
  change 0xFF with (Z.ones 8). rewrite Z.land_ones by lia.
  unfold is_BYTE. apply Z.mod_pos_bound. reflexivity.
Qed.

(** A register that the byte [l] clears is [l << 8]. *)
Lemma crc_update_clears c l :
  is_WORD c -> is_BYTE l -> crc_update c l = 0 -> c = Z.shiftl l 8.
Proof.
  intros Hc Hl E.
  rewrite crc_update_absorb in E by (unfold is_BYTE in Hl; lia).
  apply crc_update_0_checks in E; [|now apply lxor_shiftl_8_WORD].
  now apply Z.lxor_eq.
Qed.

Lemma crc_two_bytes_clear c h l :
  is_WORD c -> is_BYTE h -> is_BYTE l ->
  crc_update (crc_update c h) l = 0 ->
  h = Z.shiftr c 8 /\ l = Z.land c 0xFF.
Proof.
  intros Hc Hh Hl E.
  apply crc_update_clears in E; [|apply crc_update_range|exact Hl].
  assert (Hh' : h = Z.shiftr c 8).
  { assert (E0 : Z.land (crc_update c h) 0xFF = 0)
      by (rewrite E; apply land_shiftl_8_FF).
    rewrite crc_update_absorb in E0 by (unfold is_BYTE in Hh; lia).
    apply crc_update_0_checks in E0; [|now apply lxor_shiftl_8_WORD].
    rewrite Z.shiftr_lxor, Z.shiftr_shiftl_l, Z.sub_diag, Z.shiftl_0_r in E0
      by lia.
    symmetry. now apply Z.lxor_eq. }
  split; [exact Hh'|]. subst h.
  pose proof (crc_update_own_bytes c Hc) as Hown.
  apply crc_update_clears in Hown;
    [|apply crc_update_range|apply is_BYTE_land_FF].
  apply shiftl_8_inj. congruence.
Qed.

(** Only the buffer's own CRC bytes bring the register to zero. *)
Lemma crc_zero_trailer body h l :
  is_BYTE h -> is_BYTE l -> Z.of_nat (length body) + 2 <= 255 ->
  SyzygyComputeCRC (body ++ [h; l]) (Z.of_nat (length body) + 2) = 0 ->
  [h; l] = crc_bytes (SyzygyComputeCRC body (Z.of_nat (length body))).
Proof.
  intros Hh Hl Hlen.
  unfold SyzygyComputeCRC at 1. rewrite crc_loop_app by lia.
  unfold SyzygyComputeCRC. rewrite (crc_loop_is_fold body) by lia.
  set (c := fold_left crc_update body 0xFFFF).
  assert (Hc : is_WORD c) by apply fold_crc_update_range, is_WORD_FFFF.
  cbn [crc_loop]. simpl (0 <? 2). change (to_BYTE (2 - 1)) with 1.
  simpl (0 <? 1). intros E.
  destruct (crc_two_bytes_clear c h l Hc Hh Hl E) as [-> ->]. reflexivity.
Qed.

(** X9: the two bytes that make the CRC of a buffer zero are unique: a
    buffer followed by the bytes [h], [l] has CRC zero if and only if
    [h] and [l] are the high and the low byte of the CRC of the buffer.
    (C4 has the "if" part.) *)
Theorem crc_trailer_unique (body : list Z) (h l : Z)
        (Hh : is_BYTE h) (Hl : is_BYTE l)
        (Hlen : Z.of_nat (length body) + 2 <= 255) :
  SyzygyComputeCRC (body ++ [h; l]) (Z.of_nat (length body) + 2) = 0
  <-> [h; l] = crc_bytes (SyzygyComputeCRC body (Z.of_nat (length body))).
Proof.
  split.
  - now apply crc_zero_trailer.
  - intros E. rewrite E. now apply crc_of_buffer_with_own_crc.
Qed.

Lemma crc_trailer_unique_witness :
  SyzygyComputeCRC (check_input ++ [0x29; 0xB1]) 11 = 0
  <-> [0x29; 0xB1] = crc_bytes (SyzygyComputeCRC check_input 9).
Proof.
  apply (crc_trailer_unique check_input 0x29 0xB1).
  - unfold is_BYTE; simpl; lia.
  - unfold is_BYTE; simpl; lia.
  - simpl; lia.
Defined.

(** ** The DNA header and the firmware registers *)

Lemma map_ext_Zseq (f g : Z -> Z) n :
  forall lo, (forall i, lo <= i < lo + Z.of_nat n -> f i = g i) ->
             map f (Zseq lo n) = map g (Zseq lo n).
Proof.
  induction n as [|n IH]; intros lo H; [reflexivity|].
  cbn [Zseq map]. rewrite (H lo) by lia. f_equal. apply IH.
  intros i Hi. apply H. lia.
Qed.

Lemma length_Zseq n : forall lo, length (Zseq lo n) = n.
Proof. induction n as [|n IH]; intros lo; cbn; [reflexivity|now rewrite IH]. Qed.

Lemma Zseq_shift (f : Z -> Z) lo n :
  forall k, map f (Zseq (lo + k) n) = map (fun i => f (lo + i)) (Zseq k n).
Proof.
  induction n as [|n IH]; intros k; [reflexivity|].
  cbn [Zseq map]. f_equal.
  rewrite <- IH. now rewrite Z.add_assoc.
Qed.

Section DnaHeader.

Variables (p : platform) (b : bus) (mem : Z -> Z) (fuel : nat).
Variables (addrI2cSlave : Z) (rgbDnaBuf : Z -> Z).
Hypothesis Hselect : select_failed p b = false.
Hypothesis Hok : forall k, read_ok_at p b k.
Hypothesis Hmb : p = MicroBlaze -> forall k n, 0 < n -> bus_recv b k n = n.
Hypothesis Hfuel : (40 <= fuel)%nat.

(** The header as the device holds it. *)
Let image : list Z := map mem (Zseq addrDnaStart 40).

Lemma dna_read_ok :
  res_ret (SyzygyI2c.SyzygyI2cRead p b fuel addrI2cSlave 0x8000
                                   cbSyzygyDnaHeader None) = Some fTrue.
Proof.
  unfold SyzygyI2c.SyzygyI2cRead. rewrite I2CHALRead_ret, Hselect.
  change (to_BYTE cbSyzygyDnaHeader) with 40.
  apply read_loop_all_ok; try assumption; lia.
Qed.

Lemma dna_read_image :
  bytes_of (SyzygyI2cRead_pbRead p b (memory mem) fuel addrI2cSlave 0x8000
                                 rgbDnaBuf cbSyzygyDnaHeader)
           cbSyzygyDnaHeader = image.
Proof.
  unfold bytes_of, image, SyzygyI2cRead_pbRead, cbSyzygyDnaHeader.
  change (to_BYTE 40) with 40. change (Z.to_nat 40) with 40%nat.
  symmetry. replace addrDnaStart with (addrDnaStart + 0) at 1 by apply Z.add_0_r.
  rewrite (Zseq_shift mem addrDnaStart 40 0). symmetry.
  apply map_ext_Zseq. intros i Hi.
  rewrite I2CHALRead_pbRead_memory; try assumption.
  - replace ((0 <=? i) && (i <? 40)) with true
      by (symmetry; apply andb_true_iff;
          split; [apply Z.leb_le | apply Z.ltb_lt]; lia).
    f_equal. apply to_WORD_id.
    unfold is_WORD, addrDnaStart. change (2 ^ 16) with 65536. lia.
  - unfold is_WORD. simpl. lia.
  - unfold is_BYTE. simpl. lia.
  - lia.
Qed.

Lemma SyzygyReadDNAHeader_on_memory pszgdnahdr fCheckCrc :
  SyzygyReadDNAHeader p b (memory mem) fuel addrI2cSlave rgbDnaBuf
                      pszgdnahdr fCheckCrc
  = if fCheckCrc && negb (0 =? SyzygyComputeCRC image cbSyzygyDnaHeader)
    then (Some fFalse, pszgdnahdr)
    else (Some fTrue,
          match pszgdnahdr with None => None | Some _ => Some image end).
Proof.
  unfold SyzygyReadDNAHeader. cbv zeta.
  rewrite dna_read_ok, dna_read_image. reflexivity.
Qed.

End DnaHeader.

(** X10: [SyzygyReadDNAHeader] on a memory device whose bus works.  With
    [fCheckCrc] set it returns fTrue exactly when bytes 38 and 39 of the
    header at 0x8000 are the CRC, high byte first, of bytes 0 to 37, and
    then [*pszgdnahdr] is the 40 bytes of the device; when it rejects
    the header it returns fFalse and leaves [*pszgdnahdr] as it was.
    Without [fCheckCrc] it accepts every header.  A [NULL] [pszgdnahdr]
    changes nothing in the return value. *)
Theorem dna_header_accepted_iff_crc_matches
        (p : platform) (b : bus) (mem : Z -> Z) (fuel : nat)
        (addrI2cSlave : Z) (rgbDnaBuf : Z -> Z) (old : list Z)
        (Hselect : select_failed p b = false)
        (Hok : forall k, read_ok_at p b k)
        (Hmb : p = MicroBlaze -> forall k n, 0 < n -> bus_recv b k n = n)
        (Hfuel : (40 <= fuel)%nat)
        (Hbytes : forall a, is_BYTE (mem a)) :
  let image := map mem (Zseq addrDnaStart 40) in
  let run := SyzygyReadDNAHeader p b (memory mem) fuel addrI2cSlave
                                 rgbDnaBuf in
  (fst (run (Some old) fTrue) = Some fTrue
   <-> skipn 38 image
       = crc_bytes (SyzygyComputeCRC (firstn 38 image) 38)) /\
  (fst (run (Some old) fTrue) = Some fTrue ->
   run (Some old) fTrue = (Some fTrue, Some image)) /\
  (fst (run (Some old) fTrue) <> Some fTrue ->
   run (Some old) fTrue = (Some fFalse, Some old)) /\
  run (Some old) fFalse = (Some fTrue, Some image) /\
  (forall fCheckCrc,
      run None fCheckCrc = (fst (run (Some old) fCheckCrc), None)).
Proof.
  cbv zeta.
  pose proof (SyzygyReadDNAHeader_on_memory p b mem fuel addrI2cSlave
                rgbDnaBuf Hselect Hok Hmb Hfuel) as Hrun.
  cbv zeta in Hrun.
  set (image := map mem (Zseq addrDnaStart 40)) in *.
  assert (Hsplit : image = firstn 38 image ++ [mem 0x8026; mem 0x8027]).
  { unfold image, addrDnaStart. vm_compute (Zseq _ _). reflexivity. }
  assert (Hskip : skipn 38 image = [mem 0x8026; mem 0x8027]).
  { unfold image, addrDnaStart. vm_compute (Zseq _ _). reflexivity. }
  assert (Hlen : length (firstn 38 image) = 38%nat).
  { unfold image, addrDnaStart. vm_compute (Zseq _ _). reflexivity. }
  assert (Hcrc : SyzygyComputeCRC image cbSyzygyDnaHeader = 0
                 <-> skipn 38 image
                     = crc_bytes (SyzygyComputeCRC (firstn 38 image) 38)).
  { rewrite Hskip. rewrite Hsplit at 1. split.
    - pose proof (crc_zero_trailer (firstn 38 image) (mem 0x8026)
                    (mem 0x8027) (Hbytes _) (Hbytes _)) as H.
      rewrite Hlen in H. apply H. simpl. lia.
    - intros E. rewrite E.
      pose proof (crc_of_buffer_with_own_crc (firstn 38 image)) as H.
      rewrite Hlen in H. apply H. simpl. lia. }
  rewrite !Hrun. cbn [andb].
  destruct (0 =? SyzygyComputeCRC image cbSyzygyDnaHeader) eqn:E;
    cbn [negb fst].
  - apply Z.eqb_eq in E. symmetry in E.
    split; [split; [intros _; now apply Hcrc | reflexivity]|].
    split; [reflexivity|]. split; [intros H; now contradiction H|].
    split; [reflexivity|].
    intros [|]; rewrite !Hrun; cbn [andb]; rewrite ?E; reflexivity.
  - apply Z.eqb_neq in E.
    split; [split; [discriminate|]|].
    { intros H. apply Hcrc in H. congruence. }
    split; [discriminate|]. split; [reflexivity|].
    split; [reflexivity|].
    intros [|]; rewrite !Hrun; cbn [andb].
    + replace (0 =? SyzygyComputeCRC image cbSyzygyDnaHeader) with false
        by (symmetry; now apply Z.eqb_neq).
      reflexivity.
    + reflexivity.
Qed.

Lemma dna_header_accepted_iff_crc_matches_witness :
  SyzygyReadDNAHeader Linux (Buses.ideal Linux) (memory (fun a => a mod 256))
                      40 0x30 (fun _ => 0) (Some []) fFalse
  = (Some fTrue, Some (map (fun a => a mod 256) (Zseq addrDnaStart 40))).
Proof.
  refine (proj1 (proj2 (proj2 (proj2
    (dna_header_accepted_iff_crc_matches
       Linux (Buses.ideal Linux) (fun a => a mod 256) 40 0x30 (fun _ => 0) []
       _ _ _ _ _))))).
  - reflexivity.
  - intros k. apply ideal_read_ok.
  - discriminate.
  - lia.
  - intros a. unfold is_BYTE. apply Z.mod_pos_bound. lia.
Defined.

(** X11: [SyzygyReadStdFwRegisters] on a memory device whose bus works
    returns fTrue with the four version bytes from addresses 0 to 3 and
    [cbEeprom] assembled from address 4 (high byte) and address 5 (low
    byte); the value fits the [WORD] without loss, so both bytes can be
    read back from it.  A [NULL] [pszgfwregs] is legal. *)
Theorem fw_registers_decoded_big_endian
        (p : platform) (b : bus) (mem : Z -> Z) (fuel : nat)
        (addrI2cSlave : Z) (rgbFwReg : Z -> Z) (old : SzgStdFwRegs)
        (Hselect : select_failed p b = false)
        (Hok : forall k, read_ok_at p b k)
        (Hmb : p = MicroBlaze -> forall k n, 0 < n -> bus_recv b k n = n)
        (Hfuel : (6 <= fuel)%nat)
        (Hbytes : forall a, is_BYTE (mem a)) :
  let run := SyzygyReadStdFwRegisters p b (memory mem) fuel addrI2cSlave
                                      rgbFwReg in
  run (Some old)
  = (Some fTrue,
     Some {| fwverMjr := mem 0; fwverMin := mem 1;
             dnaverMjr := mem 2; dnaverMin := mem 3;
             cbEeprom := 256 * mem 4 + mem 5 |}) /\
  is_WORD (256 * mem 4 + mem 5) /\
  (256 * mem 4 + mem 5) / 256 = mem 4 /\
  (256 * mem 4 + mem 5) mod 256 = mem 5 /\
  run None = (Some fTrue, None).
Proof.
  cbv zeta. unfold SyzygyReadStdFwRegisters. cbv zeta.
  assert (Hret : res_ret (SyzygyI2c.SyzygyI2cRead p b fuel addrI2cSlave 0 6
                                                  None) = Some fTrue).
  { unfold SyzygyI2c.SyzygyI2cRead. rewrite I2CHALRead_ret, Hselect.
    change (to_BYTE 6) with 6.
    apply read_loop_all_ok; try assumption; lia. }
  assert (Hbuf : forall i,
             SyzygyI2cRead_pbRead p b (memory mem) fuel addrI2cSlave 0
                                  rgbFwReg 6 i
             = if (0 <=? i) && (i <? 6) then mem (to_WORD (0 + i))
               else rgbFwReg i).
  { unfold SyzygyI2cRead_pbRead. change (to_BYTE 6) with 6.
    apply I2CHALRead_pbRead_memory; try assumption.
    - unfold is_WORD. simpl. lia.
    - unfold is_BYTE. simpl. lia.
    - lia. }
  rewrite Hret, !Hbuf. cbn [Z.leb Z.ltb Z.compare andb Pos.compare
                            Pos.compare_cont Z.add].
  change (to_WORD 0) with 0. change (to_WORD 1) with 1.
  change (to_WORD 2) with 2. change (to_WORD 3) with 3.
  change (to_WORD 4) with 4. change (to_WORD 5) with 5.
  pose proof (Hbytes 4) as H4. pose proof (Hbytes 5) as H5.
  unfold is_BYTE in H4, H5. change (2 ^ 8) with 256 in H4, H5.
  assert (Hw : is_WORD (256 * mem 4 + mem 5))
    by (unfold is_WORD; change (2 ^ 16) with 65536; lia).
  rewrite Z.shiftl_mul_pow2 by lia. change (2 ^ 8) with 256.
  rewrite (Z.mul_comm (mem 4) 256), (to_WORD_id _ Hw).
  split; [reflexivity|]. split; [exact Hw|].
  split; [zlia|]. split; [zlia|reflexivity].
Qed.

Lemma fw_registers_decoded_big_endian_witness :
  fst (SyzygyReadStdFwRegisters
         Zynq (Buses.ideal Zynq) (memory (fun a => a mod 256)) 6 0x30
         (fun _ => 0)
         (Some {| fwverMjr := 0; fwverMin := 0; dnaverMjr := 0;
                  dnaverMin := 0; cbEeprom := 0 |}))
  = Some fTrue.
Proof.
  rewrite (proj1 (fw_registers_decoded_big_endian
                    Zynq (Buses.ideal Zynq) (fun a => a mod 256) 6 0x30
                    (fun _ => 0)
                    {| fwverMjr := 0; fwverMin := 0; dnaverMjr := 0;
                       dnaverMin := 0; cbEeprom := 0 |}
                    eq_refl (ideal_read_ok Zynq)
                    ltac:(discriminate) ltac:(lia)
                    ltac:(intros a; unfold is_BYTE;
                          apply Z.mod_pos_bound; lia))).
  reflexivity.
Defined.

(** ** The DNA strings *)

Lemma Zseq_app n m : forall lo,
  Zseq lo (n + m) = Zseq lo n ++ Zseq (lo + Z.of_nat n) m.
Proof.
  induction n as [|n IH]; intros lo.
  - cbn. now rewrite Z.add_0_r.
  - cbn [Nat.add Zseq app]. rewrite IH. do 3 f_equal. lia.
Qed.

Lemma terminate_block (f : Z -> Z) (cb : Z) :
  0 <= cb ->
  terminate (map f (Zseq 0 (S (Z.to_nat cb)))) cb
  = map f (Zseq 0 (Z.to_nat cb)) ++ [0].
Proof.
  intros Hcb. unfold terminate.
  replace (S (Z.to_nat cb)) with (Z.to_nat cb + 1)%nat by lia.
  rewrite Zseq_app, map_app.
  rewrite firstn_app, firstn_all2 by (rewrite length_map, length_Zseq; lia).
  rewrite length_map, length_Zseq, Nat.sub_diag. cbn [firstn].
  rewrite app_nil_r.
  rewrite skipn_all2; [reflexivity|].
  rewrite length_app, !length_map, !length_Zseq. lia.
Qed.

Lemma length_terminate sz cb :
  0 <= cb -> (Z.to_nat cb < length sz)%nat ->
  length (terminate sz cb) = length sz.
Proof.
  intros Hcb Hlen. unfold terminate.
  rewrite length_app. cbn [length]. rewrite length_firstn, length_skipn. lia.
Qed.

Lemma length_new_string junk cb :
  length (new_string junk cb) = S (Z.to_nat cb).
Proof. unfold new_string. cbn [length]. now rewrite length_map, length_Zseq. Qed.

Lemma select_failed_after p n b :
  select_failed p (after n b) = select_failed p b.
Proof. destruct p; reflexivity. Qed.

Lemma read_ok_at_after p b n :
  (forall k, read_ok_at p b k) -> forall k, read_ok_at p (after n b) k.
Proof. intros H k. exact (H (n + k)%nat). Qed.

Section StringsOnMemory.

Variables (p : platform) (b : bus) (mem : Z -> Z) (fuel : nat).
Variable addrI2cSlave : Z.
Hypothesis Hselect : select_failed p b = false.
Hypothesis Hok : forall k, read_ok_at p b k.
Hypothesis Hmb : p = MicroBlaze -> forall k n, 0 < n -> bus_recv b k n = n.
Hypothesis Hfuel : (255 <= fuel)%nat.

Lemma read_string_memory pr cb sz :
  is_BYTE cb -> is_WORD (pr_addrRead pr) ->
  length sz = S (Z.to_nat cb) ->
  exists tr,
    read_string p b (memory mem) fuel addrI2cSlave pr cb sz
    = (Some fTrue, mem_slice mem (pr_addrRead pr) cb ++ [0],
       {| pr_addrRead := pr_addrRead pr; pr_trace := pr_trace pr ++ tr |}).
Proof.
  intros Hcb Haddr Hlen. unfold read_string. cbv zeta.
  set (n := length (pr_trace pr)).
  assert (Hcb' : 0 <= cb <= 255)
    by (unfold is_BYTE in Hcb; change (2 ^ 8) with 256 in Hcb; lia).
  assert (Hret : res_ret (SyzygyI2c.SyzygyI2cRead p (after n b) fuel
                            addrI2cSlave (pr_addrRead pr) cb None)
                 = Some fTrue).
  { unfold SyzygyI2c.SyzygyI2cRead.
    rewrite I2CHALRead_ret, select_failed_after, Hselect.
    rewrite (to_BYTE_id cb Hcb).
    apply read_loop_all_ok; try lia. now apply read_ok_at_after. }
  rewrite Hret. change (Some fTrue) with (Some true). cbv iota.
  eexists. apply f_equal2; [|reflexivity].
  apply f_equal2; [reflexivity|].
  rewrite Hlen.
  assert (Hbuf : forall i, 0 <= i < 0 + Z.of_nat (S (Z.to_nat cb)) ->
             SyzygyI2cRead_pbRead p (after n b) (rx_after n (memory mem))
               fuel addrI2cSlave (pr_addrRead pr)
               (fun i => nth (Z.to_nat i) sz 0) cb i
             = (fun i => if i <? cb then mem (to_WORD (pr_addrRead pr + i))
                         else nth (Z.to_nat i) sz 0) i).
  { intros i Hi. unfold SyzygyI2cRead_pbRead. rewrite (to_BYTE_id cb Hcb).
    change (rx_after n (memory mem)) with (memory mem).
    rewrite I2CHALRead_pbRead_memory; try assumption; try lia.
    - replace (0 <=? i) with true by (symmetry; apply Z.leb_le; lia).
      reflexivity.
    - now apply read_ok_at_after.
    - intros E k m Hm. exact (Hmb E (n + k)%nat m Hm). }
  rewrite (map_ext_Zseq _ _ _ 0 Hbuf).
  rewrite terminate_block by lia. f_equal.
  unfold mem_slice. apply map_ext_Zseq. intros i Hi.
  replace (i <? cb) with true by (symmetry; apply Z.ltb_lt; lia).
  reflexivity.
Qed.

End StringsOnMemory.

Lemma read_string_length p b rx fuel addrI2cSlave pr cb sz :
  0 <= cb -> (Z.to_nat cb < length sz)%nat ->
  length (snd (fst (read_string p b rx fuel addrI2cSlave pr cb sz)))
  = length sz.
Proof.
  intros Hcb Hlen. unfold read_string. cbv zeta.
  destruct (res_ret _) as [[|]|]; cbn [fst snd];
    rewrite ?length_terminate; rewrite ?length_map, ?length_Zseq;
    try reflexivity; try lia.
Qed.

(** X12: [SyzygyReadDNAStrings] on a memory device whose bus works
    returns fTrue, and the five strings are what the device holds back
    to back from address [0x8000 + cbDnaHeader] on (modulo [2^16]):
    manufacturer name, product name, product model, product version and
    serial number, each of the length the header gives and followed by a
    terminating zero. *)
Theorem dna_strings_read_back_to_back
        (p : platform) (b : bus) (mem : Z -> Z) (fuel : nat)
        (addrI2cSlave : Z) (junk : Z -> Z)
        (hdr : SzgDnaHeader) (strs : SzgDnaStrings)
        (Hselect : select_failed p b = false)
        (Hok : forall k, read_ok_at p b k)
        (Hmb : p = MicroBlaze -> forall k n, 0 < n -> bus_recv b k n = n)
        (Hfuel : (255 <= fuel)%nat)
        (Hman : is_BYTE (cbManufacturerName hdr))
        (Hname : is_BYTE (cbProductName hdr))
        (Hmodel : is_BYTE (cbProductModel hdr))
        (Hversion : is_BYTE (cbProductVersion hdr))
        (Hserial : is_BYTE (cbSerialNumber hdr)) :
  let a0 := to_WORD (0x8000 + cbDnaHeader hdr) in
  let a1 := to_WORD (a0 + cbManufacturerName hdr) in
  let a2 := to_WORD (a1 + cbProductName hdr) in
  let a3 := to_WORD (a2 + cbProductModel hdr) in
  let a4 := to_WORD (a3 + cbProductVersion hdr) in
  let r := SyzygyReadDNAStrings p b (memory mem) fuel addrI2cSlave junk
                                (Some hdr) (Some strs) in
  fst (fst (fst r)) = Some fTrue /\
  snd (fst (fst r))
  = Some {| szManufacturerName :=
              Some (mem_slice mem a0 (cbManufacturerName hdr) ++ [0]);
            szProductName :=
              Some (mem_slice mem a1 (cbProductName hdr) ++ [0]);
            szProductModel :=
              Some (mem_slice mem a2 (cbProductModel hdr) ++ [0]);
            szProductVersion :=
              Some (mem_slice mem a3 (cbProductVersion hdr) ++ [0]);
            szSerialNumber :=
              Some (mem_slice mem a4 (cbSerialNumber hdr) ++ [0]) |}.
Proof.
  cbv zeta. unfold SyzygyReadDNAStrings.
  pose proof (read_string_memory p b mem fuel addrI2cSlave Hselect Hok Hmb
                Hfuel) as Hread.
  repeat match goal with
         | |- context [read_string p b (memory mem) fuel addrI2cSlave
                                   ?pr ?cb ?sz] =>
             let tr := fresh "tr" in
             let E := fresh "E" in
             destruct (Hread pr cb sz ltac:(assumption)
                         ltac:(apply to_WORD_range)
                         ltac:(apply length_new_string)) as [tr E];
             rewrite E; clear E;
             change (Some fTrue) with (Some true); cbv iota;
             unfold advance; cbn [pr_addrRead pr_trace]
         end.
  split; reflexivity.
Qed.

Lemma dna_strings_read_back_to_back_witness :
  fst (fst (fst (SyzygyReadDNAStrings
                   Linux (Buses.ideal Linux) (memory (fun a => a mod 256))
                   255 0x30 (fun _ => 0xAA)
                   (Some {| cbDnaHeader := 40; cbManufacturerName := 8;
                            cbProductName := 12; cbProductModel := 0;
                            cbProductVersion := 1; cbSerialNumber := 40 |})
                   (Some {| szManufacturerName := None;
                            szProductName := None; szProductModel := None;
                            szProductVersion := None;
                            szSerialNumber := None |}))))
  = Some fTrue.
Proof.
  refine (proj1 (dna_strings_read_back_to_back
                   Linux (Buses.ideal Linux) (fun a => a mod 256) 255 0x30
                   (fun _ => 0xAA) _ _ _ _ _ _ _ _ _ _ _)).
  - reflexivity.
  - intros k. apply ideal_read_ok.
  - discriminate.
  - lia.
  - unfold is_BYTE. simpl. lia.
  - unfold is_BYTE. simpl. lia.
  - unfold is_BYTE. simpl. lia.
  - unfold is_BYTE. simpl. lia.
  - unfold is_BYTE. simpl. lia.
Defined.

(** X13: [SyzygyReadDNAStrings] allocates before it reads.  With both
    pointers non-NULL, whatever the bus does and whatever the call
    returns: every block the structure pointed to has been freed, the
    five fields point to new blocks of [cb + 1] bytes each, and a
    following [SyzygyFreeDNAStrings] frees exactly these five.  With a
    [NULL] pointer the call returns fFalse and does nothing. *)
Theorem dna_strings_allocated_on_every_path
        (p : platform) (b : bus) (rx : rxdata) (fuel : nat)
        (addrI2cSlave : Z) (junk : Z -> Z)
        (hdr : SzgDnaHeader) (strs : SzgDnaStrings)
        (Hman : 0 <= cbManufacturerName hdr)
        (Hname : 0 <= cbProductName hdr)
        (Hmodel : 0 <= cbProductModel hdr)
        (Hversion : 0 <= cbProductVersion hdr)
        (Hserial : 0 <= cbSerialNumber hdr) :
  let run := SyzygyReadDNAStrings p b rx fuel addrI2cSlave junk in
  let r := run (Some hdr) (Some strs) in
  (exists man name model version serial,
      snd (fst (fst r))
      = Some {| szManufacturerName := Some man; szProductName := Some name;
                szProductModel := Some model;
                szProductVersion := Some version;
                szSerialNumber := Some serial |} /\
      Z.of_nat (length man) = cbManufacturerName hdr + 1 /\
      Z.of_nat (length name) = cbProductName hdr + 1 /\
      Z.of_nat (length model) = cbProductModel hdr + 1 /\
      Z.of_nat (length version) = cbProductVersion hdr + 1 /\
      Z.of_nat (length serial) = cbSerialNumber hdr + 1) /\
  snd (fst r)
  = snd (SyzygyFreeDNAStrings (Some strs))
    ++ [ev_malloc (cbManufacturerName hdr + 1);
        ev_malloc (cbProductName hdr + 1);
        ev_malloc (cbProductModel hdr + 1);
        ev_malloc (cbProductVersion hdr + 1);
        ev_malloc (cbSerialNumber hdr + 1)] /\
  snd (SyzygyFreeDNAStrings (snd (fst (fst r))))
  = [ev_free; ev_free; ev_free; ev_free; ev_free] /\
  (forall x, run None x = (Some fFalse, x, [], [])) /\
  (forall h, run h None = (Some fFalse, None, [], [])).
Proof.
  cbv zeta.
  assert (Hlen : forall pr cb sz,
             0 <= cb -> length sz = S (Z.to_nat cb) ->
             Z.of_nat (length (snd (fst (read_string p b rx fuel addrI2cSlave
                                                     pr cb sz))))
             = cb + 1).
  { intros pr cb sz Hcb Hsz. rewrite read_string_length; lia. }
  assert (Hnew : forall cb, 0 <= cb ->
                            Z.of_nat (length (new_string junk cb)) = cb + 1).
  { intros cb Hcb. rewrite length_new_string. lia. }
  split; [|split; [|split; [|split]]].
  - unfold SyzygyReadDNAStrings.
    repeat match goal with
           | |- context [read_string p b rx fuel addrI2cSlave ?pr ?cb ?sz] =>
               let H := fresh "H" in
               let ret := fresh "ret" in
               let s := fresh "s" in
               let q := fresh "q" in
               pose proof (Hlen pr cb sz ltac:(assumption)
                             ltac:(apply length_new_string)) as H;
               destruct (read_string p b rx fuel addrI2cSlave pr cb sz)
                 as [[ret s] q];
               cbn [fst snd] in H;
               destruct ret as [[|]|]
           end;
      cbn [fst snd]; do 5 eexists;
      (split; [reflexivity|]); repeat split;
      first [assumption | now apply Hnew].
  - unfold SyzygyReadDNAStrings.
    repeat match goal with
           | |- context [read_string p b rx fuel addrI2cSlave ?pr ?cb ?sz] =>
               let ret := fresh "ret" in
               let s := fresh "s" in
               let q := fresh "q" in
               destruct (read_string p b rx fuel addrI2cSlave pr cb sz)
                 as [[ret s] q];
               destruct ret as [[|]|]
           end; reflexivity.
  - unfold SyzygyReadDNAStrings.
    repeat match goal with
           | |- context [read_string p b rx fuel addrI2cSlave ?pr ?cb ?sz] =>
               let ret := fresh "ret" in
               let s := fresh "s" in
               let q := fresh "q" in
               destruct (read_string p b rx fuel addrI2cSlave pr cb sz)
                 as [[ret s] q];
               destruct ret as [[|]|]
           end; reflexivity.
  - intros x. reflexivity.
  - intros [h|]; reflexivity.
Qed.

Lemma dna_strings_allocated_on_every_path_witness :
  snd (SyzygyFreeDNAStrings
         (snd (fst (fst (SyzygyReadDNAStrings
                           Linux (Buses.dead_at Linux 0)
                           (memory (fun a => a mod 256)) 255 0x30
                           (fun _ => 0xAA)
                           (Some {| cbDnaHeader := 40;
                                    cbManufacturerName := 8;
                                    cbProductName := 12;
                                    cbProductModel := 0;
                                    cbProductVersion := 1;
                                    cbSerialNumber := 40 |})
                           (Some {| szManufacturerName := Some [0];
                                    szProductName := None;
                                    szProductModel := None;
                                    szProductVersion := None;
                                    szSerialNumber := None |}))))))
  = [ev_free; ev_free; ev_free; ev_free; ev_free].
Proof.
  refine (proj1 (proj2 (proj2
    (dna_strings_allocated_on_every_path
       Linux (Buses.dead_at Linux 0) (memory (fun a => a mod 256)) 255 0x30
       (fun _ => 0xAA) _ _ _ _ _ _ _)))); simpl; lia.
Defined.

(** X14: [SyzygyFreeDNAStrings] calls [free] once for each non-NULL
    field and leaves every field [NULL], so calling it again frees
    nothing: the second call in the error path of [dpmutilFEnum] is
    harmless.  A [NULL] argument is legal and does nothing. *)
Theorem free_dna_strings_is_idempotent :
  forall pszgdnastrings,
    let r := SyzygyFreeDNAStrings pszgdnastrings in
    SyzygyFreeDNAStrings (fst r) = (fst r, []) /\
    (forall s, pszgdnastrings = Some s ->
               fst r = Some {| szManufacturerName := None;
                               szProductName := None;
                               szProductModel := None;
                               szProductVersion := None;
                               szSerialNumber := None |} /\
               length (snd r) = owned s /\
               Forall (eq ev_free) (snd r)) /\
    (pszgdnastrings = None -> r = (None, [])).
Proof.
  intros [s|]; cbv zeta.
  - split; [reflexivity|]. split; [|discriminate].
    intros s' E. injection E as <-. split; [reflexivity|].
    split; [reflexivity|].
    destruct s as [[?|] [?|] [?|] [?|] [?|]]; cbn; repeat constructor.
  - split; [reflexivity|]. split; [discriminate|reflexivity].
Qed.

(** ** Product-ID decoding, all values *)

Lemma selector_mask Pdid :
  Z.land (Z.shiftr (Z.land Pdid 0xFFF00) 8) 0xfff
  = Z.land (Z.shiftr Pdid 8) 0xfff.
Proof.
  rewrite Z.shiftr_land. change (Z.shiftr 0xFFF00 8) with 0xfff.
  now rewrite <- Z.land_assoc, Z.land_diag.
Qed.

Lemma adc_variant_cases v res0 :
  let r := match v with
           | 0x002 => (fTrue, ZMOD_ADC_VARIANT_1410_105)
           | 0x012 => (fTrue, ZMOD_ADC_VARIANT_1010_40)
           | 0x022 => (fTrue, ZMOD_ADC_VARIANT_1210_40)
           | 0x032 => (fTrue, ZMOD_ADC_VARIANT_1410_40)
           | 0x042 => (fTrue, ZMOD_ADC_VARIANT_1010_125)
           | 0x052 => (fTrue, ZMOD_ADC_VARIANT_1210_125)
           | 0x062 => (fTrue, ZMOD_ADC_VARIANT_1410_125)
           | _ => (fFalse, ZMOD_ADC_VARIANT_UNSUPPORTED)
           end in
  (fst r = fTrue <-> In v [0x002; 0x012; 0x022; 0x032; 0x042; 0x052; 0x062]) /\
  (fst r = fFalse <-> snd r = ZMOD_ADC_VARIANT_UNSUPPORTED) /\
  fst (FGetZmodADCResolution (snd r) res0) = fst r /\
  (fst r = fTrue -> In (snd (FGetZmodADCResolution (snd r) res0)) [10; 12; 14]) /\
  (fst r = fFalse -> snd (FGetZmodADCResolution (snd r) res0) = res0).
Proof.
  cbv zeta.
  assert (Hin : forall x : Z,
             In x [0x002; 0x012; 0x022; 0x032; 0x042; 0x052; 0x062] ->
             x = 0x002 \/ x = 0x012 \/ x = 0x022 \/ x = 0x032 \/
             x = 0x042 \/ x = 0x052 \/ x = 0x062).
  { intros x H. simpl in H. intuition. }
  destruct v as [|q|q];
    [ | do 8 (try destruct q as [q|q|]) | ];
    cbn -[In];
    (split; [split; [try discriminate; intros _; simpl; tauto
                    | try reflexivity; intros H; apply Hin in H;
                      exfalso; intuition discriminate]|]);
    (split; [split; intros; try discriminate; reflexivity|]);
    (split; [reflexivity|]);
    (split; [try discriminate; intros _; simpl; tauto|]);
    try discriminate; reflexivity.
Qed.

(** X15: for every PDID, [FGetZmodADCVariant] succeeds exactly on the
    seven selectors 0x002, 0x012, ..., 0x062 in bits 19:8, and fails
    exactly when it stores the UNSUPPORTED variant; [FGetZmodADCResolution]
    of the variant it stored succeeds exactly when the variant decoding
    did, then with 10, 12 or 14 bits, and otherwise leaves [*pResolution]
    as it was.  No other bit of the PDID matters. *)
Theorem adc_variant_and_resolution_agree :
  forall Pdid res0,
    let sel := Z.land (Z.shiftr Pdid 8) 0xfff in
    let v := FGetZmodADCVariant Pdid in
    let r := FGetZmodADCResolution (snd v) res0 in
    (fst v = fTrue
     <-> In sel [0x002; 0x012; 0x022; 0x032; 0x042; 0x052; 0x062]) /\
    (fst v = fFalse <-> snd v = ZMOD_ADC_VARIANT_UNSUPPORTED) /\
    fst r = fst v /\
    (fst v = fTrue -> In (snd r) [10; 12; 14]) /\
    (fst v = fFalse -> snd r = res0) /\
    FGetZmodADCVariant (Z.land Pdid 0xFFF00) = v.
Proof.
  intros Pdid res0. cbv zeta.
  split; [|split; [|split; [|split; [|split]]]];
    try (unfold FGetZmodADCVariant; rewrite ?selector_mask;
         generalize (Z.land (Z.shiftr Pdid 8) 0xfff); intros v;
         pose proof (adc_variant_cases v res0) as H; cbv zeta in H;
         destruct H as (H1 & H2 & H3 & H4 & H5); assumption).
  unfold FGetZmodADCVariant. now rewrite selector_mask.
Qed.

(** X16: [FGetZmodDigitizerVariant] succeeds exactly on the selector
    0x061, and [FGetZmodDigitizerResolution] of its result is then 14.
    No PDID is both a supported ADC variant and a supported Digitizer
    variant; so a PDID with the Digitizer product code and the Digitizer
    selector is one that [FGetZmodFamily] reports as the ADC family and
    [FGetZmodADCVariant] then rejects as unsupported. *)
Theorem digitizer_pdid_is_decoded_as_adc :
  forall FZmodIsDAC Pdid res0,
    let d := FGetZmodDigitizerVariant Pdid in
    (fst d = fTrue <-> Z.land (Z.shiftr Pdid 8) 0xfff = 0x061) /\
    (fst d = fFalse <-> snd d = ZMOD_DIGITIZER_VARIANT_UNSUPPORTED) /\
    FGetZmodDigitizerResolution (snd d) res0
    = (fst d, if fst d then 14 else res0) /\
    fst (FGetZmodADCVariant Pdid) && fst d = false /\
    (FZmodIsDigitizer Pdid = fTrue -> fst d = fTrue ->
     FGetZmodFamily FZmodIsDAC Pdid = (fTrue, ZMOD_FAMILY_ADC) /\
     FGetZmodADCVariant Pdid = (fFalse, ZMOD_ADC_VARIANT_UNSUPPORTED)) /\
    ProductFromPdid Pdid = Z.land (Z.shiftr Pdid 20) 0xfff.
Proof.
  intros isDAC Pdid res0. cbv zeta.
  unfold FGetZmodDigitizerVariant, FGetZmodADCVariant, FGetZmodFamily.
  change (FZmodIsADC Pdid) with (FZmodIsDigitizer Pdid).
  generalize (Z.land (Z.shiftr Pdid 8) 0xfff). intros v.
  destruct (FZmodIsDigitizer Pdid);
    (destruct v as [|q|q];
     [ | do 8 (try destruct q as [q|q|]) | ]);
    cbn; repeat split; intros; try discriminate; try reflexivity;
    try congruence; try tauto.
Qed.

(** ** Finding the I2C controller *)

Lemma read_device_name_spec pfile :
  forall cchRead,
    0 <= cchRead <= cchDeviceNameMax ->
    let stores := read_device_name pfile cchRead in
    let n := Z.to_nat (cchDeviceNameMax - cchRead) in
    map snd stores = firstn n (first_line pfile) ++ [0] /\
    map fst stores = Zseq cchRead (S (length (firstn n (first_line pfile)))).
Proof.
  induction pfile as [|ch rest IH]; intros cchRead Hc; cbv zeta.
  - cbn. rewrite firstn_nil. split; reflexivity.
  - cbn [read_device_name first_line].
    destruct (chNewline =? ch) eqn:E1; cbn [negb andb].
    + rewrite firstn_nil. split; reflexivity.
    + destruct (cchRead <? cchDeviceNameMax) eqn:E2.
      * apply Z.ltb_lt in E2.
        assert (Hw : to_WORD (cchRead + 1) = cchRead + 1).
        { apply to_WORD_id. unfold is_WORD, cchDeviceNameMax in *.
          change (2 ^ 16) with 65536. lia. }
        rewrite Hw.
        destruct (IH (cchRead + 1) ltac:(lia)) as [H1 H2].
        cbv zeta in H1, H2.
        replace (Z.to_nat (cchDeviceNameMax - cchRead))
          with (S (Z.to_nat (cchDeviceNameMax - (cchRead + 1)))) by lia.
        cbn [map fst snd firstn app length Zseq].
        rewrite H1, H2. split; reflexivity.
      * apply Z.ltb_ge in E2.
        replace (Z.to_nat (cchDeviceNameMax - cchRead)) with 0%nat by lia.
        split; reflexivity.
Qed.

Lemma find_controller_step e rest :
  find_controller (e :: rest)
  = if is_controller e then Some e else find_controller rest.
Proof.
  cbn [find_controller]. unfold is_controller.
  destruct (strcmp_is_0 (d_name e) [chDot]
            || strcmp_is_0 (d_name e) [chDot; chDot]); cbn [negb andb];
    [reflexivity|].
  destruct (device_name e) as [pfile|]; [|reflexivity].
  destruct (strcmp_is_0 szI2cDeviceName (szDevName pfile)); reflexivity.
Qed.

Lemma find_controller_first pre :
  forall e post,
    Forall (fun x => is_controller x = false) pre ->
    is_controller e = true ->
    find_controller (pre ++ e :: post) = Some e.
Proof.
  induction pre as [|x pre IH]; intros e post Hpre He.
  - cbn [app]. now rewrite find_controller_step, He.
  - inversion Hpre as [|? ? Hx Hrest]; subst.
    cbn [app]. rewrite find_controller_step, Hx. now apply IH.
Qed.

Lemma find_controller_none entries :
  Forall (fun x => is_controller x = false) entries ->
  find_controller entries = None.
Proof.
  induction 1 as [|x rest Hx _ IH]; [reflexivity|].
  now rewrite find_controller_step, Hx.
Qed.

Lemma strcmp_is_0_iff sz1 sz2 :
  strcmp_is_0 sz1 sz2 = true <-> c_str sz1 = c_str sz2.
Proof.
  unfold strcmp_is_0.
  destruct (list_eq_dec Z.eq_dec (c_str sz1) (c_str sz2)); split;
    congruence.
Qed.

Lemma c_str_app_0 l : c_str (l ++ [0]) = c_str l.
Proof.
  induction l as [|x l IH]; [reflexivity|].
  cbn [app c_str]. destruct (x =? 0); [reflexivity|now rewrite IH].
Qed.

Lemma c_str_idem l : c_str (c_str l) = c_str l.
Proof.
  induction l as [|x l IH]; [reflexivity|].
  cbn [c_str]. destruct (x =? 0) eqn:E; [reflexivity|].
  cbn [c_str]. now rewrite E, IH.
Qed.

Lemma szDevName_first_line pfile :
  szDevName pfile = c_str (firstn 64 (first_line pfile)).
Proof.
  destruct (read_device_name_spec pfile 0 ltac:(unfold cchDeviceNameMax; lia))
    as [H1 _].
  cbv zeta in H1. rewrite Z.sub_0_r in H1.
  change (Z.to_nat cchDeviceNameMax) with 64%nat in H1.
  unfold szDevName. now rewrite H1, c_str_app_0.
Qed.

(** X17: the loop of [I2CHALOpenI2cController] that reads a device
    name stores the first line of the file, cut at 64 characters, and a
    terminating zero, at the indices 0, 1, 2, ... of [szDevName]: no
    store leaves the 65 elements of the array, whatever the file holds.
    The name compares equal to "pmcu-i2c" exactly when the first line,
    cut at 64 characters and at its first zero, is "pmcu-i2c". *)
Theorem device_name_read_stays_in_bounds :
  forall pfile,
    let stores := read_device_name pfile 0 in
    map snd stores = firstn 64 (first_line pfile) ++ [0] /\
    Forall (fun st => 0 <= fst st < cchDevName) stores /\
    Z.of_nat (length stores) <= cchDevName /\
    szDevName pfile = c_str (firstn 64 (first_line pfile)) /\
    (strcmp_is_0 szI2cDeviceName (szDevName pfile) = true
     <-> c_str (firstn 64 (first_line pfile)) = szI2cDeviceName).
Proof.
  intros pfile. cbv zeta.
  destruct (read_device_name_spec pfile 0 ltac:(unfold cchDeviceNameMax; lia))
    as [H1 H2].
  cbv zeta in H1, H2. rewrite Z.sub_0_r in H1, H2.
  change (Z.to_nat cchDeviceNameMax) with 64%nat in H1, H2.
  assert (Hlen : (length (firstn 64 (first_line pfile)) <= 64)%nat)
    by (rewrite length_firstn; lia).
  split; [exact H1|]. split; [|split; [|split]].
  - apply Forall_forall. intros st Hst.
    apply (in_map fst) in Hst. rewrite H2 in Hst. apply In_Zseq in Hst.
    unfold cchDevName, cchDeviceNameMax. lia.
  - rewrite <- (length_map fst), H2, length_Zseq.
    unfold cchDevName, cchDeviceNameMax. lia.
  - apply szDevName_first_line.
  - rewrite strcmp_is_0_iff, szDevName_first_line, c_str_idem.
    change (c_str szI2cDeviceName) with szI2cDeviceName.
    split; intros H; congruence.
Qed.

(** X18: [I2CHALOpenI2cController] returns -1 when [opendir] fails, and
    otherwise what [open] returns for "/dev/<name>" of the first
    directory entry, in the order of [readdir], that is neither "." nor
    "..", has a device-name file that opens, and whose device name is
    "pmcu-i2c"; without such an entry it opens "/dev/i2c-0".  Both paths
    it prints fit [szFilePath] for entry names of up to 255
    characters. *)
Theorem controller_is_the_first_match :
  forall (open : list Z -> Z),
    I2CHALOpenI2cController None open = -1 /\
    (forall pre e post,
        Forall (fun x => is_controller x = false) pre ->
        is_controller e = true ->
        I2CHALOpenI2cController (Some (pre ++ e :: post)) open
        = open (dev_path e)) /\
    (forall entries,
        Forall (fun x => is_controller x = false) entries ->
        I2CHALOpenI2cController (Some entries) open
        = open szI2cDeviceNameDefault) /\
    (forall e,
        is_controller e = true
        <-> c_str (d_name e) <> [chDot] /\
            c_str (d_name e) <> [chDot; chDot] /\
            exists pfile,
              device_name e = Some pfile /\
              c_str (firstn 64 (first_line pfile)) = szI2cDeviceName) /\
    (forall e,
        Z.of_nat (length (c_str (d_name e))) <= 255 ->
        Z.of_nat (length (device_name_path e)) + 1 <= cchFilePath /\
        Z.of_nat (length (dev_path e)) + 1 <= cchFilePath).
Proof.
  intros open. split; [reflexivity|]. split; [|split; [|split]].
  - intros pre e post Hpre He. unfold I2CHALOpenI2cController.
    now rewrite find_controller_first.
  - intros entries H. unfold I2CHALOpenI2cController.
    now rewrite find_controller_none.
  - intros e. unfold is_controller.
    rewrite andb_true_iff, negb_true_iff, orb_false_iff.
    rewrite <- !not_true_iff_false, !strcmp_is_0_iff.
    change (c_str [chDot]) with [chDot].
    change (c_str [chDot; chDot]) with [chDot; chDot].
    split.
    + intros [[H1 H2] H3]. split; [exact H1|]. split; [exact H2|].
      destruct (device_name e) as [pfile|]; [|discriminate].
      exists pfile. split; [reflexivity|].
      apply strcmp_is_0_iff in H3.
      rewrite szDevName_first_line, c_str_idem in H3.
      symmetry. exact H3.
    + intros (H1 & H2 & pfile & Hf & Hn).
      split; [split; assumption|]. rewrite Hf.
      apply strcmp_is_0_iff.
      rewrite szDevName_first_line, c_str_idem. symmetry. exact Hn.
  - intros e Hlen. unfold device_name_path, dev_path, cchFilePath.
    rewrite !length_app. cbn [szSysDevices szDeviceNameFile szDev length].
    lia.
Qed.
